(** * Flask-Made-Easy: the two anime CSV utilities

    A shallow embedding of [src/utils/import.py] (the relational importer) and
    [src/utils/add-images.py] (the image enricher), and the properties of the
    specification that are about them.

    Modelling conventions.
    - A Python [str] is the list of its code points ([pystr]); [py "..."]
      writes a literal.  The character tables are those of CPython 3.11
      (Unicode 14): [Py_UNICODE_ISSPACE] and [Py_UNICODE_TODECIMAL] are
      complete; [str_lower] covers Basic Latin and Latin-1 and leaves every
      other code point as it is, which only matters for the wording of the
      detected-columns lines (the column synonyms are ASCII, and a header
      with a letter outside Latin-1 never lowers to one of them: the only
      such letter that lowers to an ASCII text is U+212A, to k, which no
      synonym contains).
    - A Python [int] is a [Z]; [int(s)] of a text of more than 4300 digits
      raises ValueError (the interpreter's default
      sys.get_int_max_str_digits()).  The interpreter's recursion limit is
      not modelled.
    - A Python [float] is a binary64 value, kept as sign, integer significand
      and binary exponent; [float(s)] rounds the decimal to nearest, ties to
      even, as CPython's correctly rounded conversion does.
    - A CSV file is seen through [csv.reader]: the records it yields (each a
      list of cells) and, for the importer, the exception that ends the
      reading when the file stops being decodable part-way.  The enricher
      reads its file with two decoders, utf-8-sig and utf-8, which differ on
      a file that starts with a byte order mark; a file is given by what
      each of them reads.  What [csv.writer] writes is read back as written
      (quoting is below the model), except that a text with a lone surrogate
      cannot be written.
    - The SQLite store is the content of the three tables of the schema with
      their AUTOINCREMENT counters; a connection is the pair of the committed
      content and the content seen by the open transaction.  A statement
      fails when a value cannot be bound (an [int] beyond 64 bits, a [str]
      with a lone surrogate) or a foreign key is violated; a target that
      cannot be opened or written makes the importer's command fail before
      any statement runs.  Locks and a disk that fills up are not modelled.
    - The remote image service is a function of the request's rank in the run
      and of the id asked for; its answer is the text [csv.writer] writes for
      the value the service gave. *)

From Stdlib Require Import ZArith NArith List Bool Lia Ascii String DecimalString.
From stdpp Require Import gmap list.

Local Open Scope N_scope.

(** ** Python text *)

Module Py.

Abbreviation pystr := (list N).

Definition py (s : string) : pystr := List.map N_of_ascii (list_ascii_of_string s).
Arguments py _%_string.

Definition str_eqb (a b : pystr) : bool := bool_decide (a = b).

(** Truth value of a [str]: non-empty. *)
Definition truthy (s : pystr) : bool :=
  match s with [] => false | _ :: _ => true end.

Definition between (lo hi c : N) : bool := (lo <=? c) && (c <=? hi).

(** [Py_UNICODE_ISSPACE]: what [str.strip], [str.isspace] and the regular
    expression class [\s] use. *)
Definition Py_UNICODE_ISSPACE (c : N) : bool :=
  between 0x09 0x0D c || between 0x1C 0x20 c || (c =? 0x85) || (c =? 0xA0)
  || (c =? 0x1680) || between 0x2000 0x200A c || (c =? 0x2028) || (c =? 0x2029)
  || (c =? 0x202F) || (c =? 0x205F) || (c =? 0x3000).

(** [Py_ISSPACE]: the C locale's white space, used by [float] on the text it
    has brought to ASCII. *)
Definition Py_ISSPACE (c : N) : bool := between 0x09 0x0D c || (c =? 0x20).

(** First code points of the runs of decimal digits (general category Nd);
    every run holds the digits 0 to 9 in order, the mathematical digits at
    U+1D7CE five times over. *)
Definition decimal_runs : list (N * N) :=
  [(48, 10); (1632, 10); (1776, 10); (1984, 10); (2406, 10); (2534, 10);
   (2662, 10); (2790, 10); (2918, 10); (3046, 10); (3174, 10); (3302, 10);
   (3430, 10); (3558, 10); (3664, 10); (3792, 10); (3872, 10); (4160, 10);
   (4240, 10); (6112, 10); (6160, 10); (6470, 10); (6608, 10); (6784, 10);
   (6800, 10); (6992, 10); (7088, 10); (7232, 10); (7248, 10); (42528, 10);
   (43216, 10); (43264, 10); (43472, 10); (43504, 10); (43600, 10);
   (44016, 10); (65296, 10); (66720, 10); (68912, 10); (69734, 10);
   (69872, 10); (69942, 10); (70096, 10); (70384, 10); (70736, 10);
   (70864, 10); (71248, 10); (71360, 10); (71472, 10); (71904, 10);
   (72016, 10); (72784, 10); (73040, 10); (73120, 10); (92768, 10);
   (92864, 10); (93008, 10); (120782, 50); (123200, 10); (123632, 10);
   (125264, 10); (130032, 10)].

(** [Py_UNICODE_TODECIMAL]: the digit value of a decimal digit. *)
Definition Py_UNICODE_TODECIMAL (c : N) : option N :=
  match List.find (fun r => (fst r <=? c) && (c <? fst r + snd r)) decimal_runs with
  | Some r => Some ((c - fst r) mod 10)
  | None => None
  end.

Definition Py_UNICODE_ISDECIMAL (c : N) : bool :=
  match Py_UNICODE_TODECIMAL c with Some _ => true | None => false end.

(** [str.lower] on Basic Latin and Latin-1. *)
Definition lower_char (c : N) : N :=
  if between 0x41 0x5A c || between 0xC0 0xD6 c || between 0xD8 0xDE c
  then c + 32 else c.

Definition str_lower (s : pystr) : pystr := List.map lower_char s.

Fixpoint lstrip_by (p : N -> bool) (s : pystr) : pystr :=
  match s with
  | [] => []
  | c :: t => if p c then lstrip_by p t else s
  end.

Definition rstrip_by (p : N -> bool) (s : pystr) : pystr :=
  rev (lstrip_by p (rev s)).

(** [s.strip()] *)
Definition str_strip (s : pystr) : pystr :=
  rstrip_by Py_UNICODE_ISSPACE (lstrip_by Py_UNICODE_ISSPACE s).

(** [s.replace(old, new)] for a one-character [old] and [new]. *)
Definition str_replace (old new : N) (s : pystr) : pystr :=
  List.map (fun c => if c =? old then new else c) s.

(** [s.startswith(c)] and [s.endswith(c)] for a one-character [c]. *)
Definition startswith (c : N) (s : pystr) : bool :=
  match s with [] => false | x :: _ => x =? c end.

Definition endswith (c : N) (s : pystr) : bool := startswith c (rev s).

(** The slice [s[1:-1]]. *)
Definition slice_1_m1 (s : pystr) : pystr := removelast (tl s).

(** [str(n)] for an [int]. *)
Definition str_of_int (z : Z) : pystr := py (NilZero.string_of_int (Z.to_int z)).

(** The value of a text [s] made of decimal digits only. *)
Definition int_of_digits (s : pystr) : Z :=
  fold_left (fun acc c =>
               match Py_UNICODE_TODECIMAL c with
               | Some d => (10 * acc + Z.of_N d)%Z
               | None => acc
               end) s 0%Z.

(** [sys.get_int_max_str_digits()] *)
Definition int_max_str_digits : Z := 4300.

(** [int(s)] for a text [s] made of decimal digits only; [None] is the
    ValueError of a text of more digits than the limit (leading zeros
    count). *)
Definition py_int (s : pystr) : option Z :=
  if (int_max_str_digits <? Z.of_nat (length s))%Z then None
  else Some (int_of_digits s).

End Py.

(** ** Python numbers *)

Module PyNum.
Import Py.

(** A binary64 value: [FFin neg m e] is (-1)^neg * m * 2^e with [0 <= m]. *)
Inductive pyfloat : Type :=
| FFin (neg : bool) (m : Z) (e : Z)
| FInf (neg : bool)
| FNan.

Definition is_ascii_digit (c : N) : bool := between 48 57 c.

(** Step 1 of [float(str)]: the text is brought to ASCII.  Code points below
    127 stay, other white space becomes a blank, other decimal digits become
    ASCII digits, and anything else makes the conversion fail. *)
Fixpoint to_ascii (s : pystr) : option pystr :=
  match s with
  | [] => Some []
  | c :: t =>
    let c' := if c <? 127 then Some c
              else if Py_UNICODE_ISSPACE c then Some 32
              else match Py_UNICODE_TODECIMAL c with
                   | Some d => Some (48 + d)
                   | None => None
                   end in
    match c', to_ascii t with
    | Some x, Some t' => Some (x :: t')
    | _, _ => None
    end
  end.

(** Step 2: an underscore is dropped when it stands between two digits and
    makes the conversion fail otherwise.  [prev] is the previous character. *)
Fixpoint drop_underscores (prev : N) (s : pystr) : option pystr :=
  match s with
  | [] => if prev =? 95 then None else Some []
  | c :: t =>
    if c =? 95 then
      if is_ascii_digit prev then drop_underscores c t else None
    else if (prev =? 95) && negb (is_ascii_digit c) then None
    else match drop_underscores c t with
         | Some t' => Some (c :: t')
         | None => None
         end
  end.

Fixpoint span (p : N -> bool) (s : pystr) : pystr * pystr :=
  match s with
  | [] => ([], [])
  | c :: t => if p c then let (a, b) := span p t in (c :: a, b) else ([], s)
  end.

Definition split_sign (s : pystr) : bool * pystr :=
  match s with
  | c :: t => if c =? 45 then (true, t) else if c =? 43 then (false, t) else (false, s)
  | [] => (false, [])
  end.

(** The decimal [M * 10^E], [0 <= M], rounded to the nearest binary64 value,
    ties to even; a result of 2^1024 or more is an infinity. *)
Definition round_binary64 (neg : bool) (M E : Z) : pyfloat :=
  (if M =? 0 then FFin neg 0 0
   else
     let n := if 0 <=? E then M * 10 ^ E else M in
     let d := if 0 <=? E then 1 else 10 ^ (- E) in
     let l := Z.log2 n - Z.log2 d in
     let ge := if 0 <=? l then d * 2 ^ l <=? n else d <=? n * 2 ^ (- l) in
     let e := if ge then l else l - 1 in
     let p := Z.max (e - 52) (-1074) in
     let num := if 0 <=? p then n else n * 2 ^ (- p) in
     let den := if 0 <=? p then d * 2 ^ p else d in
     let q := num / den in
     let r := num mod den in
     let m := if (den <? 2 * r) || ((den =? 2 * r) && Z.odd q) then q + 1 else q in
     if 1024 <=? Z.log2 m + p then FInf neg else FFin neg m p)%Z.

(** [inf], [infinity] and [nan], in any case, after an optional sign. *)
Definition parse_inf_or_nan (s : pystr) : option pyfloat :=
  let (neg, r) := split_sign s in
  let w := List.map lower_char r in
  if str_eqb w (py "inf") || str_eqb w (py "infinity") then Some (FInf neg)
  else if str_eqb w (py "nan") then Some FNan
  else None.

(** The decimal grammar of the conversion: sign, digits, point, digits (at
    least one digit in all), and an exponent that needs a digit. *)
Definition parse_decimal (s : pystr) : option pyfloat :=
  let (neg, r) := split_sign s in
  let (ip, r1) := span is_ascii_digit r in
  let (fp, r2) := match r1 with
                  | c :: t => if c =? 46 then span is_ascii_digit t else ([], r1)
                  | [] => ([], r1)
                  end in
  match ip ++ fp with
  | [] => parse_inf_or_nan s
  | ds =>
    let M := int_of_digits ds in
    let F := Z.of_nat (length fp) in
    match r2 with
    | [] => Some (round_binary64 neg M (- F))
    | c :: r3 =>
      if (c =? 101) || (c =? 69) then
        let (eneg, r4) := split_sign r3 in
        let (ed, r5) := span is_ascii_digit r4 in
        match ed, r5 with
        | _ :: _, [] =>
          let X := int_of_digits ed in
          Some (round_binary64 neg M ((if eneg then - X else X) - F)%Z)
        | _, _ => None
        end
      else None
    end
  end.

(** [float(s)] for a [str]; [None] is the ValueError. *)
Definition py_float (s : pystr) : option pyfloat :=
  match to_ascii s with
  | None => None
  | Some a =>
    match (if existsb (N.eqb 95) a then drop_underscores 0 a else Some a) with
    | None => None
    | Some b => parse_decimal (rstrip_by Py_ISSPACE (lstrip_by Py_ISSPACE b))
    end
  end.

(** [int(x)] for a [float]: truncation toward zero; [None] is the
    OverflowError of an infinity or the ValueError of a NaN. *)
Definition int_of_float (x : pyfloat) : option Z :=
  match x with
  | FFin neg m e =>
    let a := (if 0 <=? e then m * 2 ^ e else m / 2 ^ (- e))%Z in
    Some (if neg then (- a)%Z else a)
  | FInf _ => None
  | FNan => None
  end.

(** [int(float(s))] inside a [try] whose handler catches everything. *)
Definition int_float (s : pystr) : option Z :=
  match py_float s with
  | Some x => int_of_float x
  | None => None
  end.

End PyNum.

(** ** Regular expressions of the form [[class]+] *)

Module Re.
Import Py PyNum.

(** Matching [[class]+] at the start of [s]: the longest non-empty run, and
    what follows it. *)
Definition match_plus (cls : N -> bool) (s : pystr) : option (pystr * pystr) :=
  match span cls s with
  | ([], _) => None
  | (m, rest) => Some (m, rest)
  end.

(** [re.search]: the match at the leftmost position that has one. *)
Fixpoint search_plus (cls : N -> bool) (s : pystr) : option pystr :=
  match match_plus cls s with
  | Some (m, _) => Some m
  | None => match s with
            | [] => None
            | _ :: t => search_plus cls t
            end
  end.

(** [re.findall]: the successive non-overlapping matches, left to right,
    which for [[class]+] are the maximal runs of the class.  [cur] is the run
    being read, last character first. *)
Fixpoint findall_run (cls : N -> bool) (cur : pystr) (s : pystr) : list pystr :=
  match s with
  | [] => match cur with [] => [] | _ :: _ => [rev cur] end
  | c :: t =>
    if cls c then findall_run cls (c :: cur) t
    else match cur with
         | [] => findall_run cls [] t
         | _ :: _ => rev cur :: findall_run cls [] t
         end
  end.

Definition findall_plus (cls : N -> bool) (s : pystr) : list pystr :=
  findall_run cls [] s.

(** The class [\d]. *)
Definition cls_digit : N -> bool := Py_UNICODE_ISDECIMAL.

(** The class [[A-Za-z0-9\s\-]]. *)
Definition cls_word (c : N) : bool :=
  between 65 90 c || between 97 122 c || between 48 57 c
  || Py_UNICODE_ISSPACE c || (c =? 45).

End Re.

(** ** The JSON decoder ([json.loads], CPython's C scanner, strict mode) *)

Module Json.
Import Py PyNum.

Local Unset Elimination Schemes.

Inductive json : Type :=
| JNull
| JBool (b : bool)
| JInt (z : Z)
| JFloat (x : pyfloat)
| JStr (s : pystr)
| JList (l : list json)
| JObj (kv : list (pystr * json)).

Local Set Elimination Schemes.

Definition is_ws (c : N) : bool := (c =? 32) || (c =? 9) || (c =? 10) || (c =? 13).

Definition skip_ws (s : pystr) : pystr := lstrip_by is_ws s.

Definition hex_digit (c : N) : option N :=
  if between 48 57 c then Some (c - 48)
  else if between 97 102 c then Some (c - 87)
  else if between 65 70 c then Some (c - 55)
  else None.

Definition hex4 (a b c d : N) : option N :=
  match hex_digit a, hex_digit b, hex_digit c, hex_digit d with
  | Some w, Some x, Some y, Some z => Some (((w * 16 + x) * 16 + y) * 16 + z)
  | _, _, _, _ => None
  end.

Definition is_high_surrogate (c : N) : bool := between 0xD800 0xDBFF c.
Definition is_low_surrogate (c : N) : bool := between 0xDC00 0xDFFF c.
Definition join_surrogates (hi lo : N) : N :=
  0x10000 + ((hi - 0xD800) * 0x400 + (lo - 0xDC00)).

Definition simple_escape (e : N) : option N :=
  if (e =? 34) || (e =? 92) || (e =? 47) then Some e
  else if e =? 98 then Some 8
  else if e =? 102 then Some 12
  else if e =? 110 then Some 10
  else if e =? 114 then Some 13
  else if e =? 116 then Some 9
  else None.

(** The body of a string, after its opening quote: the decoded text and what
    follows the closing quote.  [acc] is the text read so far, reversed.  A
    high surrogate escape directly followed by a low surrogate escape is one
    code point; any other surrogate escape is kept as it is. *)
Fixpoint scanstring (s : pystr) (acc : pystr) : option (pystr * pystr) :=
  match s with
  | [] => None
  | c :: t =>
    if c =? 34 then Some (rev acc, t)
    else if c =? 92 then
      match t with
      | [] => None
      | e :: t1 =>
        if e =? 117 then
          match t1 with
          | h1 :: h2 :: h3 :: h4 :: t2 =>
            match hex4 h1 h2 h3 h4 with
            | None => None
            | Some u =>
              match t2 with
              | b :: v :: l1 :: l2 :: l3 :: l4 :: t3 =>
                if is_high_surrogate u && (b =? 92) && (v =? 117) then
                  match hex4 l1 l2 l3 l4 with
                  | None => None
                  | Some u2 =>
                    if is_low_surrogate u2
                    then scanstring t3 (join_surrogates u u2 :: acc)
                    else scanstring t2 (u :: acc)
                  end
                else scanstring t2 (u :: acc)
              | _ => scanstring t2 (u :: acc)
              end
            end
          | _ => None
          end
        else
          match simple_escape e with
          | Some x => scanstring t1 (x :: acc)
          | None => None
          end
      end
    else if c <=? 0x1F then None
    else scanstring t (c :: acc)
  end.

Fixpoint strip_prefix (p s : pystr) : option pystr :=
  match p, s with
  | [], _ => Some s
  | a :: p', b :: s' => if a =? b then strip_prefix p' s' else None
  | _ :: _, [] => None
  end.

(** A number: an optional minus sign, then a single 0 or a digit run that
    does not start with 0, then an optional fraction (a point and at least
    one digit), then an optional exponent (e or E, an optional sign, at least
    one digit).  It is an [int] when it has neither fraction nor exponent and
    a [float] otherwise.  [None] is also the ValueError of an [int] of more
    than 4300 digits, which [json.loads] lets through. *)
Definition match_number (s : pystr) : option (json * pystr) :=
  let (neg, r) := match s with
                  | c :: t => if c =? 45 then (true, t) else (false, s)
                  | [] => (false, s)
                  end in
  let int_part :=
    match r with
    | c :: t =>
      if between 49 57 c then let (ds, r1) := span is_ascii_digit t in Some (c :: ds, r1)
      else if c =? 48 then Some ([c], t)
      else None
    | [] => None
    end in
  match int_part with
  | None => None
  | Some (ip, r1) =>
    let (frac, r2) :=
      match r1 with
      | c :: d :: t =>
        if (c =? 46) && is_ascii_digit d
        then let (ds, r') := span is_ascii_digit (d :: t) in (c :: ds, r')
        else ([], r1)
      | _ => ([], r1)
      end in
    let (expo, r3) :=
      match r2 with
      | c :: t =>
        if (c =? 101) || (c =? 69) then
          let (sg, t1) := match t with
                          | x :: t' => if (x =? 45) || (x =? 43) then ([x], t') else ([], t)
                          | [] => ([], t)
                          end in
          match span is_ascii_digit t1 with
          | ([], _) => ([], r2)
          | (ds, r') => (c :: sg ++ ds, r')
          end
        else ([], r2)
      | [] => ([], r2)
      end in
    match frac, expo with
    | [], [] =>
      match py_int ip with
      | Some v => Some (JInt (if neg then (- v)%Z else v), r3)
      | None => None
      end
    | _, _ =>
      match py_float ((if neg then [45] else []) ++ ip ++ frac ++ expo) with
      | Some x => Some (JFloat x, r3)
      | None => None
      end
    end
  end.

(** One JSON value at the start of [s].  [fuel] bounds the recursion; each
    second call at least has consumed a character, so [2 * length s + 2] is
    always enough (the interpreter's own recursion limit is not modelled). *)
Fixpoint scan_once (fuel : nat) (s : pystr) {struct fuel} : option (json * pystr) :=
  match fuel with
  | O => None
  | S fuel' =>
    match s with
    | [] => None
    | c :: t =>
      if c =? 34 then
        match scanstring t [] with
        | Some (str, rest) => Some (JStr str, rest)
        | None => None
        end
      else if c =? 123 then
        match skip_ws t with
        | c' :: t' =>
          if c' =? 125 then Some (JObj [], t')
          else match object_items fuel' (c' :: t') [] with
               | Some (kv, rest) => Some (JObj kv, rest)
               | None => None
               end
        | [] => None
        end
      else if c =? 91 then
        match skip_ws t with
        | c' :: t' =>
          if c' =? 93 then Some (JList [], t')
          else match array_items fuel' (c' :: t') [] with
               | Some (l, rest) => Some (JList l, rest)
               | None => None
               end
        | [] => None
        end
      else
        match strip_prefix (py "null") s, strip_prefix (py "true") s,
              strip_prefix (py "false") s, strip_prefix (py "NaN") s,
              strip_prefix (py "Infinity") s, strip_prefix (py "-Infinity") s with
        | Some rest, _, _, _, _, _ => Some (JNull, rest)
        | _, Some rest, _, _, _, _ => Some (JBool true, rest)
        | _, _, Some rest, _, _, _ => Some (JBool false, rest)
        | _, _, _, Some rest, _, _ => Some (JFloat FNan, rest)
        | _, _, _, _, Some rest, _ => Some (JFloat (FInf false), rest)
        | _, _, _, _, _, Some rest => Some (JFloat (FInf true), rest)
        | None, None, None, None, None, None => match_number s
        end
    end
  end

with array_items (fuel : nat) (s : pystr) (acc : list json) {struct fuel}
  : option (list json * pystr) :=
  match fuel with
  | O => None
  | S fuel' =>
    match scan_once fuel' s with
    | None => None
    | Some (v, r) =>
      match skip_ws r with
      | c :: t =>
        if c =? 93 then Some (rev (v :: acc), t)
        else if c =? 44 then array_items fuel' (skip_ws t) (v :: acc)
        else None
      | [] => None
      end
    end
  end

with object_items (fuel : nat) (s : pystr) (acc : list (pystr * json)) {struct fuel}
  : option (list (pystr * json) * pystr) :=
  match fuel with
  | O => None
  | S fuel' =>
    match s with
    | q :: t =>
      if q =? 34 then
        match scanstring t [] with
        | None => None
        | Some (key, r) =>
          match skip_ws r with
          | c :: r1 =>
            if c =? 58 then
              match scan_once fuel' (skip_ws r1) with
              | None => None
              | Some (v, r2) =>
                match skip_ws r2 with
                | c' :: t' =>
                  if c' =? 125 then Some (rev ((key, v) :: acc), t')
                  else if c' =? 44 then object_items fuel' (skip_ws t') ((key, v) :: acc)
                  else None
                | [] => None
                end
              end
            else None
          | [] => None
          end
        end
      else None
    | [] => None
    end
  end.

(** [json.loads(s)]: one value, white space around it, nothing else.  [None]
    is the JSONDecodeError, or the ValueError of an integer of too many
    digits. *)
Definition json_loads (s : pystr) : option json :=
  match scan_once (2 * length s + 2) (skip_ws s) with
  | Some (v, rest) =>
    match skip_ws rest with
    | [] => Some v
    | _ :: _ => None
    end
  | None => None
  end.

End Json.

(** ** [src/utils/import.py]: the relational importer *)

Module Importer.
Import Py PyNum Re Json.

(** *** The SQLite store *)

Record anime_row : Type := {
  id : Z;
  mal_id : Z;
  image : pystr;
  title : pystr;
  release_date : pystr;
  synopsis : pystr;
  score : option pyfloat;
  episodes : option Z;
  studio : pystr;
  theme : pystr
}.

(** The three tables of [create_schema] and the AUTOINCREMENT counters of
    [Anime] and [Genres] (their rows of sqlite_sequence). *)
Record db : Type := {
  Anime : list anime_row;
  Anime_seq : Z;
  Genres : list (Z * pystr);
  Genres_seq : Z;
  AnimeGenres : list (Z * Z)
}.

Definition empty_db : db :=
  {| Anime := []; Anime_seq := 0; Genres := []; Genres_seq := 0; AnimeGenres := [] |}.

(** A connection: what is committed, and what the open transaction sees. *)
Record conn : Type := { persisted : db; working : db }.

Definition connect (store : db) : conn := {| persisted := store; working := store |}.

Definition commit (c : conn) : conn := {| persisted := working c; working := working c |}.

(** [create_schema]: the script runs outside a transaction, so the three
    tables are dropped and created empty at once. *)
Definition create_schema (c : conn) : conn := {| persisted := empty_db; working := empty_db |}.

Inductive exn : Type :=
| FileNotFoundError
| TypeError
| ValueError
| OverflowError
| UnicodeEncodeError
| UnicodeDecodeError
| IntegrityError
| OperationalError
| DatabaseError.

Inductive result (A : Type) : Type :=
| Ok (a : A)
| Raise (e : exn).
Arguments Ok {A} a.
Arguments Raise {A} e.

(** Values bound to the [?] of a statement. *)
Inductive sqlval : Type :=
| VInt (z : Z)
| VText (s : pystr)
| VReal (x : pyfloat)
| VNull.

Definition is_surrogate (c : N) : bool := between 0xD800 0xDFFF c.

(** Binding one value: an [int] must fit SQLite's signed 64-bit INTEGER, and
    a [str] must be encodable in UTF-8, which a lone surrogate is not. *)
Definition bind_value (v : sqlval) : option exn :=
  match v with
  | VInt z => if ((- 2 ^ 63 <=? z) && (z <? 2 ^ 63))%Z then None else Some OverflowError
  | VText s => if existsb is_surrogate s then Some UnicodeEncodeError else None
  | VReal _ => None
  | VNull => None
  end.

(** The values are bound in order; the first failure is raised and the
    statement does not run. *)
Fixpoint bind_parameters (vs : list sqlval) : option exn :=
  match vs with
  | [] => None
  | v :: rest =>
    match bind_value v with
    | Some e => Some e
    | None => bind_parameters rest
    end
  end.

Definition opt_val {A : Type} (f : A -> sqlval) (o : option A) : sqlval :=
  match o with Some a => f a | None => VNull end.

(** The row id an AUTOINCREMENT table gives next: one more than the largest
    it ever gave. *)
Definition next_rowid (seq : Z) (ids : list Z) : Z :=
  (fold_left Z.max ids seq + 1)%Z.

(** [INSERT INTO Anime (...) VALUES (?, ?, ?, ?, ?, ?, ?, ?, ?)]; the result
    is the store and [cur.lastrowid].  SQLite stores a NaN as NULL. *)
Definition insert_anime (d : db) (mal_id : Z) (image title release_date synopsis : pystr)
           (score : option pyfloat) (episodes : option Z) (studio theme : pystr)
  : result (db * Z) :=
  match bind_parameters [VInt mal_id; VText image; VText title; VText release_date;
                         VText synopsis; opt_val VReal score; opt_val VInt episodes;
                         VText studio; VText theme] with
  | Some e => Raise e
  | None =>
    let rid := next_rowid (Anime_seq d) (List.map id (Anime d)) in
    Ok ({| Anime := Anime d ++ [ {| id := rid; mal_id := mal_id; image := image;
                                    title := title; release_date := release_date;
                                    synopsis := synopsis;
                                    score := match score with
                                             | Some FNan => None
                                             | _ => score
                                             end;
                                    episodes := episodes; studio := studio;
                                    theme := theme |} ];
           Anime_seq := rid;
           Genres := Genres d; Genres_seq := Genres_seq d;
           AnimeGenres := AnimeGenres d |}, rid)
  end.

(** [INSERT OR IGNORE INTO Genres (name) VALUES (?)]: [name] is UNIQUE, so a
    name already in the table is left alone.  The ignored insert still uses
    up a row id. *)
Definition insert_genre (d : db) (name : pystr) : result db :=
  match bind_parameters [VText name] with
  | Some e => Raise e
  | None =>
    let rid := next_rowid (Genres_seq d) (List.map fst (Genres d)) in
    Ok {| Anime := Anime d; Anime_seq := Anime_seq d;
          Genres := if existsb (fun r => str_eqb (snd r) name) (Genres d)
                    then Genres d else Genres d ++ [(rid, name)];
          Genres_seq := rid;
          AnimeGenres := AnimeGenres d |}
  end.

(** [SELECT genre_id FROM Genres WHERE name = ?] and [cur.fetchone()]. *)
Definition select_genre (d : db) (name : pystr) : result (option Z) :=
  match bind_parameters [VText name] with
  | Some e => Raise e
  | None =>
    Ok (match List.find (fun r => str_eqb (snd r) name) (Genres d) with
        | Some r => Some (fst r)
        | None => None
        end)
  end.

Definition pair_eqb (p q : Z * Z) : bool :=
  ((fst p =? fst q) && (snd p =? snd q))%Z.

(** [INSERT OR IGNORE INTO AnimeGenres (anime_id, genre_id) VALUES (?, ?)]:
    a pair already in the table (its primary key) is left alone; a new pair
    must reference an existing [Anime] and an existing [Genres] row, foreign
    keys being on. *)
Definition insert_link (d : db) (anime_id genre_id : Z) : result db :=
  match bind_parameters [VInt anime_id; VInt genre_id] with
  | Some e => Raise e
  | None =>
    if existsb (pair_eqb (anime_id, genre_id)) (AnimeGenres d) then Ok d
    else if existsb (Z.eqb anime_id) (List.map id (Anime d))
            && existsb (Z.eqb genre_id) (List.map fst (Genres d))
    then Ok {| Anime := Anime d; Anime_seq := Anime_seq d;
               Genres := Genres d; Genres_seq := Genres_seq d;
               AnimeGenres := AnimeGenres d ++ [(anime_id, genre_id)] |}
    else Raise IntegrityError
  end.

(** [SELECT COUNT( * ) FROM Anime] *)
Definition count_anime (d : db) : Z := Z.of_nat (length (Anime d)).

(** *** What the run prints *)

Inductive output : Type :=
| OutCsv (csv_path : pystr)
| OutDb (db_path : pystr)
| OutDetected
| OutColumn (k : pystr)
| OutInserted (n : Z)
| OutRowSkipped (i : nat) (e : exn)
| OutComplete
| OutRows (n : Z).

(** *** The state of a run and its monad

    The loop body mutates the connection, counts and prints; a statement may
    raise.  A computation takes the state and gives the state it leaves and
    either a value or the exception raised; the state reached when the
    exception was raised is kept, as nothing rolls the transaction back. *)
Record state : Type := { cn : conn; inserted : Z; out : list output }.

Definition M (A : Type) : Type := state -> state * result A.

Definition ret {A : Type} (a : A) : M A := fun st => (st, Ok a).

Definition bind {A B : Type} (m : M A) (k : A -> M B) : M B :=
  fun st => match m st with
            | (st', Ok a) => k a st'
            | (st', Raise e) => (st', Raise e)
            end.

Notation "x <- m ;; k" := (bind m (fun x => k))
  (at level 100, m at next level, right associativity).
Notation "m ;;; k" := (bind m (fun _ => k))
  (at level 100, right associativity).

(** [try: body except Exception as e: handler(e)] *)
Definition try_except (body : M unit) (handler : exn -> M unit) : M unit :=
  fun st => match body st with
            | (st', Ok tt) => (st', Ok tt)
            | (st', Raise e) => handler e st'
            end.

(** A value or the exception its computation raised, with no effect on the
    state. *)
Definition of_result {A : Type} (r : result A) : M A := fun st => (st, r).

Definition print (o : output) : M unit :=
  fun st => ({| cn := cn st; inserted := inserted st; out := out st ++ [o] |}, Ok tt).

(** [cur.execute(...)] for a statement that changes the store. *)
Definition execute {A : Type} (stmt : db -> result (db * A)) : M A :=
  fun st => match stmt (working (cn st)) with
            | Ok (d, a) => ({| cn := {| persisted := persisted (cn st); working := d |};
                               inserted := inserted st; out := out st |}, Ok a)
            | Raise e => (st, Raise e)
            end.

Definition conn_commit : M unit :=
  fun st => ({| cn := commit (cn st); inserted := inserted st; out := out st |}, Ok tt).

Definition incr_inserted : M Z :=
  fun st => ({| cn := cn st; inserted := inserted st + 1; out := out st |},
             Ok (inserted st + 1)%Z).

(** [for x in l: body(x)] *)
Fixpoint for_each {A : Type} (l : list A) (body : A -> M unit) : M unit :=
  match l with
  | [] => ret tt
  | x :: rest => body x ;;; for_each rest body
  end.

Definition with_unit (r : result db) : result (db * unit) :=
  match r with Ok d => Ok (d, tt) | Raise e => Raise e end.

Definition query {A : Type} (q : db -> result A) : M A :=
  execute (fun d => match q d with Ok a => Ok (d, a) | Raise e => Raise e end).

(** *** [csv.DictReader] *)

(** The dict of one record: the header cells zipped with the record's cells,
    a later duplicate of a header winning, and the headers a short record
    does not reach set to [None]. *)
Definition DictReader_row (fieldnames row : list pystr) : gmap pystr (option pystr) :=
  let d := fold_left (fun m kv => <[fst kv := Some (snd kv)]> m) (combine fieldnames row) ∅ in
  fold_left (fun m k => <[k := None]> m) (drop (length row) fieldnames) d.

(** The rows a [DictReader] yields for the records after the header: blank
    records are passed over. *)
Definition DictReader_rows (fieldnames : list pystr) (records : list (list pystr))
  : list (gmap pystr (option pystr)) :=
  List.map (DictReader_row fieldnames)
           (List.filter (fun r => match r with [] => false | _ :: _ => true end) records).

(** The input file as [csv_path.open] and [csv.reader] give it: the open
    fails, or the reader yields [records] and then either reaches the end of
    the file ([fault] is [None]) or raises [fault], as the decoder does at
    bytes that are not UTF-8. *)
Inductive csv_source : Type :=
| OpenFails (e : exn)
| Opened (records : list (list pystr)) (fault : option exn).

(** *** Parsing helpers and the import, for any rendering of the decoded
    values whose [str()] is not modelled *)

Section Run.

(** [str(x)] of a decoded JSON value that is a [float], a nested [list] or a
    [dict]. *)
Variable repr_value : json -> pystr.

(** [str(x)] of an element of the decoded list. *)
Definition py_str (x : json) : pystr :=
  match x with
  | JStr s => s
  | JInt z => str_of_int z
  | JBool true => py "True"
  | JBool false => py "False"
  | JNull => py "None"
  | JFloat _ | JList _ | JObj _ => repr_value x
  end.

Definition parse_genres (raw : pystr) : list pystr :=
  if negb (truthy raw) then []
  else
    let s := str_strip (str_replace 10 32 raw) in
    if negb (truthy s) || str_eqb s (py "[]") then []
    else
      let s := if startswith 34 s && endswith 34 s then str_strip (slice_1_m1 s) else s in
      let s_json := str_replace 39 34 s in
      match json_loads s_json with
      | Some (JList val) =>
        List.filter truthy (List.map (fun x => str_strip (py_str x)) val)
      | _ =>
        List.filter truthy (List.map str_strip (findall_plus cls_word s))
      end.

(** [int(m.group())] stands in the handler of the [try], so its ValueError
    leaves the function. *)
Definition parse_episodes (raw : pystr) : result (option Z) :=
  if negb (truthy raw) then Ok None
  else match int_float raw with
       | Some n => Ok (Some n)
       | None =>
         match search_plus cls_digit raw with
         | Some m =>
           match py_int m with
           | Some n => Ok (Some n)
           | None => Raise ValueError
           end
         | None => Ok None
         end
       end.

Definition parse_score (raw : pystr) : option pyfloat :=
  if negb (truthy raw) then None else py_float raw.

(** [field_map]: the stripped, lower-cased header to the header as written,
    a later header winning. *)
Definition field_map_of (fieldnames : list pystr) : gmap pystr pystr :=
  fold_left (fun m h => if truthy h then <[str_lower (str_strip h) := h]> m else m)
            fieldnames ∅.

(** The keys of [field_map] in the order a dict keeps them: that of their
    first insertion. *)
Fixpoint keys_in_order (seen : list pystr) (hs : list pystr) : list pystr :=
  match hs with
  | [] => []
  | h :: rest =>
    if truthy h then
      let k := str_lower (str_strip h) in
      if existsb (str_eqb k) seen then keys_in_order seen rest
      else k :: keys_in_order (k :: seen) rest
    else keys_in_order seen rest
  end.

(** [g(row, *possible_keys)]: the cell under the first synonym that is a
    header, the empty text when the cell is empty or [None], or when no
    synonym is a header. *)
Fixpoint g (field_map : gmap pystr pystr) (row : gmap pystr (option pystr))
         (possible_keys : list pystr) : pystr :=
  match possible_keys with
  | [] => []
  | key :: rest =>
    match field_map !! str_lower key with
    | Some k =>
      if truthy k then
        match row !! k with
        | Some (Some v) => v
        | _ => []
        end
      else g field_map row rest
    | None => g field_map row rest
    end
  end.

(** The body of [for genre in genres_list]. *)
Definition link_genre (anime_id : Z) (genre : pystr) : M unit :=
  execute (fun d => with_unit (insert_genre d genre)) ;;;
  gid <- query (fun d => select_genre d genre) ;;
  match gid with
  | Some gid0 => execute (fun d => with_unit (insert_link d anime_id gid0))
  | None => ret tt
  end.

(** The body of the row's [try].  The values of the insert are computed
    before the statement runs; the episode count is the only one whose
    computation can raise. *)
Definition import_row_body (field_map : gmap pystr pystr)
           (row : gmap pystr (option pystr)) (mal_id : Z) : M unit :=
  episodes <- of_result (parse_episodes (g field_map row [py "episodes"; py "eps"])) ;;
  anime_id <- execute (fun d =>
                insert_anime d mal_id
                  (g field_map row [py "image"])
                  (g field_map row [py "title"; py "name"])
                  (g field_map row [py "release"; py "release_date"; py "aired"])
                  (g field_map row [py "synopsis"; py "description"])
                  (parse_score (g field_map row [py "score"; py "rating"]))
                  episodes
                  (g field_map row [py "studio"; py "studios"])
                  (g field_map row [py "theme"; py "themes"])) ;;
  for_each (parse_genres (g field_map row [py "genre"; py "genres"]))
           (link_genre anime_id) ;;;
  n <- incr_inserted ;;
  if (n mod 500 =? 0)%Z then conn_commit ;;; print (OutInserted n) else ret tt.

(** The body of [for i, row in enumerate(reader, start=1)]. *)
Definition import_row (field_map : gmap pystr pystr) (i : nat)
           (row : gmap pystr (option pystr)) : M unit :=
  let raw_mid := str_strip (g field_map row [py "mal_id"; py "mal id"; py "id"]) in
  if negb (truthy raw_mid) then ret tt
  else match int_float raw_mid with
       | None => ret tt
       | Some mal_id =>
         try_except (import_row_body field_map row mal_id)
                    (fun e => print (OutRowSkipped i e))
       end.

Fixpoint import_rows (field_map : gmap pystr pystr) (i : nat)
         (rows : list (gmap pystr (option pystr))) : M unit :=
  match rows with
  | [] => ret tt
  | row :: rest => import_row field_map i row ;;; import_rows field_map (S i) rest
  end.

(** What a run leaves: how it ended, what the database file holds once the
    process is gone (the committed content), and what it printed. *)
Record run : Type := { outcome : result unit; store : db; printed : list output }.

(** [import_csv_to_db(csv_path, db_path)] on a target that
    [sqlite3.connect] opens as a database holding [store0] (a target without
    a file is created empty; a target that cannot be opened or written is
    the matter of [ImporterMain.main]).  The row loop stands outside every
    [try], so an exception of the reader ends the run before the final
    commit; what was not committed is lost with the connection. *)
Definition import_csv_to_db (csv_path db_path : pystr) (csv : csv_source) (store0 : db)
  : run :=
  let st0 := {| cn := commit (create_schema (connect store0));
                inserted := 0;
                out := [OutCsv csv_path; OutDb db_path] |} in
  let script : M unit :=
    match csv with
    | OpenFails e => of_result (Raise e)
    | Opened [] None => of_result (Raise TypeError)
    | Opened [] (Some e) => of_result (Raise e)
    | Opened (fieldnames :: records) fault =>
      let field_map := field_map_of fieldnames in
      print OutDetected ;;;
      for_each (keys_in_order [] fieldnames) (fun k => print (OutColumn k)) ;;;
      import_rows field_map 1 (DictReader_rows fieldnames records) ;;;
      match fault with
      | Some e => of_result (Raise e)
      | None => ret tt
      end ;;;
      conn_commit ;;;
      n <- query (fun d => Ok (count_anime d)) ;;
      print OutComplete ;;;
      print (OutRows n)
    end in
  let (st, r) := script st0 in
  {| outcome := r; store := persisted (cn st); printed := out st |}.

(** *** The episode coercion as the specification words it

    Parse as a real number and truncate to an integer; if that fails, take
    the first contiguous run of digits of the raw text; if there is none, the
    value is absent.  A real number is written as a decimal numeral (an
    optional sign, digits with an optional point, an optional exponent) and
    has the value the numeral denotes, exactly. *)










End Run.

(** *** Predicates on runs *)

(** A property of the store's content holds of what a connection has
    committed and of what its transaction sees. *)
Definition state_ok (I : db -> Prop) (st : state) : Prop :=
  I (working (cn st)) /\ I (persisted (cn st)).

(** A computation keeps such a property, however it ends. *)
Definition preserves (I : db -> Prop) {A : Type} (m : M A) : Prop :=
  forall st, state_ok I st -> state_ok I (fst (m st)).

(** No two [Genres] rows have the same name. *)
Definition names_unique (d : db) : Prop :=
  NoDup (List.map snd (Genres d)).

(** No two [AnimeGenres] rows hold the same pair. *)
Definition links_unique (d : db) : Prop := NoDup (AnimeGenres d).

(** Every link references an [Anime] row and a [Genres] row of the store. *)
Definition refs_ok (d : db) : Prop :=
  Forall (fun l => In (fst l) (List.map id (Anime d))
                   /\ In (snd l) (List.map fst (Genres d))) (AnimeGenres d).


Definition in_int64 (z : Z) : Prop := (- 2 ^ 63 <= z < 2 ^ 63)%Z.

(** The integers of every [Anime] row fit SQLite's INTEGER. *)
Definition anime_bindable (d : db) : Prop :=
  Forall (fun a => in_int64 (mal_id a)
                   /\ match episodes a with Some n => in_int64 n | None => True end)
         (Anime d).

(** Every genre name is non-empty, stripped and free of surrogates. *)
Definition genre_names_clean (d : db) : Prop :=
  Forall (fun r => snd r <> [] /\ str_strip (snd r) = snd r
                   /\ existsb is_surrogate (snd r) = false) (Genres d).

(** The record [anime_id] is linked to a genre named [name]. *)
Definition linked_in (d : db) (anime_id : Z) (name : pystr) : Prop :=
  exists gid, In (gid, name) (Genres d) /\ In (anime_id, gid) (AnimeGenres d).

(** The store only grew: rows were appended to its tables. *)
Definition grows (d d' : db) : Prop :=
  (exists a, Anime d' = Anime d ++ a)
  /\ (exists g, Genres d' = Genres d ++ g)
  /\ (exists l, AnimeGenres d' = AnimeGenres d ++ l).

End Importer.

(** ** [src/utils/add-images.py]: the image enricher *)

Module Enricher.
Import Py.

(** *** [pathlib] on POSIX (CPython 3.11)

    A path is its root (empty, one slash or two) and its components; the
    drive is always empty. *)
Abbreviation Path := (pystr * list pystr)%type.

Fixpoint split_sep (cur : pystr) (s : pystr) : list pystr :=
  match s with
  | [] => [rev cur]
  | c :: t => if c =? 47 then rev cur :: split_sep [] t else split_sep (c :: cur) t
  end.

Definition splitroot (part : pystr) : pystr * pystr :=
  if startswith 47 part then
    let stripped := lstrip_by (N.eqb 47) part in
    if (length part - length stripped =? 2)%nat then (py "//", stripped)
    else (py "/", stripped)
  else ([], part).

(** [Path(s)]: components that are empty or a single dot are dropped. *)
Definition make_path (s : pystr) : Path :=
  let (rt, rel) := splitroot s in
  (rt, List.filter (fun x => truthy x && negb (str_eqb x (py "."))) (split_sep [] rel)).

Definition name (p : Path) : pystr := List.last (snd p) [].

Fixpoint rfind_from (c : N) (s : pystr) (i best : Z) : Z :=
  match s with
  | [] => best
  | x :: t => rfind_from c t (i + 1)%Z (if x =? c then i else best)
  end.

(** [s.rfind(c)] *)
Definition rfind (c : N) (s : pystr) : Z := rfind_from c s 0%Z (-1)%Z.

Definition suffix (p : Path) : pystr :=
  let i := rfind 46 (name p) in
  if ((0 <? i) && (i <? Z.of_nat (length (name p)) - 1))%Z
  then drop (Z.to_nat i) (name p) else [].

Definition stem (p : Path) : pystr :=
  let i := rfind 46 (name p) in
  if ((0 <? i) && (i <? Z.of_nat (length (name p)) - 1))%Z
  then take (Z.to_nat i) (name p) else name p.

(** [p.with_name(nm)]; [None] is the ValueError of a path without a name or
    of an invalid new name. *)
Definition with_name (p : Path) (nm : pystr) : option Path :=
  if negb (truthy (name p)) then None
  else
    let q := make_path nm in
    if negb (truthy nm) || endswith 47 nm || truthy (fst q)
       || negb (length (snd q) =? 1)%nat
    then None
    else Some (fst p, removelast (snd p) ++ [nm]).

(** [p.with_suffix(sfx)]; [None] is the ValueError. *)
Definition with_suffix (p : Path) (sfx : pystr) : option Path :=
  if existsb (N.eqb 47) sfx then None
  else if (truthy sfx && negb (startswith 46 sfx)) || str_eqb sfx (py ".") then None
  else if negb (truthy (name p)) then None
  else
    let old_suffix := suffix p in
    let nm := if negb (truthy old_suffix) then name p ++ sfx
              else take (length (name p) - length old_suffix) (name p) ++ sfx in
    Some (fst p, removelast (snd p) ++ [nm]).

(** *** The file system, the remote service and what a run does *)

(** What is at a path.  [File w] is the file [csv.writer] leaves for the
    records [w], written as UTF-8, and any file that reads as it does;
    [Marked s r] is any other file, given by the records [csv.reader] yields
    when the file is decoded as utf-8-sig ([s]) and as utf-8 ([r]): the two
    differ when the file starts with a byte order mark. *)
Inductive entry : Type :=
| File (records : list (list pystr))
| Marked (as_utf8_sig as_utf8 : list (list pystr))
| Dir.

(** A cell holding one of these is written between quotes. *)
Definition csv_special (c : N) : bool :=
  (c =? 44) || (c =? 34) || (c =? 13) || (c =? 10).

(** [File w] decoded as utf-8 reads as [w].  Decoded as utf-8-sig it reads
    as [w] too, unless it starts with U+FEFF, which is then dropped as a
    byte order mark: the first cell of the first record starts with it and
    is written without quotes.  A line left empty is a record without
    cells. *)
Definition read_utf8 (e : entry) : option (list (list pystr)) :=
  match e with
  | File w => Some w
  | Marked _ r => Some r
  | Dir => None
  end.

Definition read_utf8_sig (e : entry) : option (list (list pystr)) :=
  match e with
  | File (((m :: t) :: cells) :: rest) =>
    if (m =? 0xFEFF) && negb (existsb csv_special t)
    then Some (match t, cells with
               | [], [] => []
               | _, _ => t :: cells
               end :: rest)
    else Some (((m :: t) :: cells) :: rest)
  | File w => Some w
  | Marked s _ => Some s
  | Dir => None
  end.

Inductive exn : Type :=
| ValueError
| IsADirectoryError
| UnicodeEncodeError.

Inductive event : Type :=
| EvNotFound (infile : pystr)
| EvEmpty
| EvFoundExisting (out_path : Path)
| EvOpenRead (p : Path)
| EvOpenWrite (p : Path)
| EvLookup (mal_id : pystr)
| EvSleep
| EvSaved (rows_processed : nat)
| EvReplace (src dst : Path)
| EvAllDone (out_path : Path).

Definition truthy_opt (o : option pystr) : bool :=
  match o with Some s => truthy s | None => false end.

Definition or_empty (o : option pystr) : pystr :=
  match o with Some s => s | None => [] end.

(** [row.get(key)] on a [DictReader] row: [None] for a missing key as for a
    cell the record does not have. *)
Definition row_get (row : gmap pystr (option pystr)) (key : pystr) : option pystr :=
  match row !! key with
  | Some v => v
  | None => None
  end.

Fixpoint index_of (x : pystr) (l : list pystr) : nat :=
  match l with
  | [] => 0
  | y :: t => if str_eqb y x then 0 else S (index_of x t)
  end.

Definition insert_column_after (headers : list pystr) (after_col new_col : pystr)
  : list pystr :=
  if negb (existsb (str_eqb after_col) headers) then new_col :: headers
  else
    let idx := index_of after_col headers in
    take (idx + 1) headers ++ [new_col] ++ drop (idx + 1) headers.

(** [already_done]: the raw [MAL_ID] cell of each row of the existing output
    to its [image] cell, a later row of the same id winning. *)
Definition load_already_done (rows : list (gmap pystr (option pystr)))
  : gmap pystr (option pystr) :=
  fold_left (fun m row =>
               match row_get row (py "MAL_ID") with
               | Some mid => if truthy mid then <[mid := row_get row (py "image")]> m else m
               | None => m
               end) rows ∅.

(** [already_done] for the records of the existing output, the first being
    its header. *)
Definition resume_map (existing : list (list pystr)) : gmap pystr (option pystr) :=
  match existing with
  | h :: recs => load_already_done (Importer.DictReader_rows h recs)
  | [] => ∅
  end.

(** A record can be written to the UTF-8 output: no cell holds a lone
    surrogate. *)
Definition encodable (record : list pystr) : bool :=
  negb (existsb (existsb Importer.is_surrogate) record).

Section Run.

(** The remote lookup: what the request for an id gives when it is the
    [n]-th request of the run; [None] is any failure (transport error,
    status other than 200, missing data) and any answer that counts as
    false. *)
Variable remote : nat -> pystr -> option pystr.

Record loop_state : Type := {
  requests : nat;
  rows_processed : nat;
  written : list (list pystr);
  events : list event
}.

(** [fetch_image_url(mal_id, session)] in a state that has made [n]
    requests: nothing is requested for an empty id. *)
Definition fetch_image_url (n : nat) (mal_id : pystr) : option pystr * list event * nat :=
  if negb (truthy mal_id) then (None, [], n)
  else (remote n mal_id, [EvLookup mal_id], S n).

(** [str(row.get("MAL_ID", "")).strip()] *)
Definition row_mal_id (row : gmap pystr (option pystr)) : pystr :=
  str_strip (match row !! py "MAL_ID" with
             | Some (Some v) => v
             | Some None => py "None"
             | None => []
             end).

(** The body of the loop over the input rows; [false] is the
    UnicodeEncodeError of [writer.writerow], which nothing catches. *)
Definition enrich_row (out_headers : list pystr) (already_done : gmap pystr (option pystr))
           (st : loop_state) (row : gmap pystr (option pystr)) : loop_state * bool :=
  let n := S (rows_processed st) in
  let mal_id := row_mal_id row in
  let image_url := match already_done !! mal_id with
                   | Some v => v
                   | None => None
                   end in
  let '(image_url, evs, reqs) :=
    if truthy_opt image_url then (image_url, [], requests st)
    else let '(u, evs, reqs) := fetch_image_url (requests st) mal_id in
         (u, evs ++ [EvSleep], reqs) in
  let new_row := List.map (fun col => if str_eqb col (py "image") then or_empty image_url
                                      else or_empty (row_get row col)) out_headers in
  if encodable new_row then
    ({| requests := reqs;
        rows_processed := n;
        written := written st ++ [new_row];
        events := events st ++ evs ++ (if (n mod 50 =? 0)%nat then [EvSaved n] else []) |},
     true)
  else
    ({| requests := reqs;
        rows_processed := n;
        written := written st;
        events := events st ++ evs |},
     false).

(** [for row in list(reader)]: the loop ends at the first row that cannot be
    written. *)
Fixpoint enrich_rows (out_headers : list pystr) (already_done : gmap pystr (option pystr))
         (rows : list (gmap pystr (option pystr))) (st : loop_state) : loop_state * bool :=
  match rows with
  | [] => (st, true)
  | row :: rest =>
    let (st', ok) := enrich_row out_headers already_done st row in
    if ok then enrich_rows out_headers already_done rest st' else (st', false)
  end.

Record run : Type := {
  outcome : option exn;
  fs_after : gmap Path entry;
  trace : list event
}.

(** The second half of [main]: the rows are written to the temporary file,
    which takes the place of the output when all are written.  A row that
    cannot be written ends the run; the temporary file keeps what was
    written before it. *)
Definition write_output (fs : gmap Path entry) (in_path out_path : Path)
           (headers : list pystr) (records : list (list pystr))
           (already_done : gmap pystr (option pystr)) (t2 : list event) : run :=
  let out_headers := insert_column_after headers (py "MAL_ID") (py "image") in
  match with_suffix out_path (suffix out_path ++ py ".tmp") with
  | None => {| outcome := Some ValueError; fs_after := fs; trace := t2 |}
  | Some temp_path =>
    let t3 := t2 ++ [EvOpenRead in_path] in
    match fs !! temp_path with
    | Some Dir => {| outcome := Some IsADirectoryError; fs_after := fs; trace := t3 |}
    | _ =>
      let t4 := t3 ++ [EvOpenWrite temp_path] in
      if encodable out_headers then
        let (st, ok) := enrich_rows out_headers already_done
                                    (Importer.DictReader_rows headers records)
                                    {| requests := 0; rows_processed := 0;
                                       written := [out_headers]; events := t4 |} in
        if ok then
          {| outcome := None;
             fs_after := <[out_path := File (written st)]> (delete temp_path fs);
             trace := events st ++ [EvReplace temp_path out_path; EvAllDone out_path] |}
        else
          {| outcome := Some UnicodeEncodeError;
             fs_after := <[temp_path := File (written st)]> fs;
             trace := events st |}
      else
        {| outcome := Some UnicodeEncodeError;
           fs_after := <[temp_path := File []]> fs;
           trace := t4 |}
    end
  end.

(** [main(infile)]: the input is read as utf-8-sig, the existing output as
    utf-8. *)
Definition main (fs : gmap Path entry) (infile : pystr) : run :=
  let in_path := make_path infile in
  match fs !! in_path with
  | None => {| outcome := None; fs_after := fs; trace := [EvNotFound infile] |}
  | Some in_entry =>
    match with_name in_path (stem in_path ++ suffix in_path) with
    | None => {| outcome := Some ValueError; fs_after := fs; trace := [] |}
    | Some out_path =>
      match read_utf8_sig in_entry with
      | None => {| outcome := Some IsADirectoryError; fs_after := fs; trace := [] |}
      | Some [] => {| outcome := None; fs_after := fs; trace := [EvOpenRead in_path; EvEmpty] |}
      | Some (headers :: records) =>
        let t1 := [EvOpenRead in_path] in
        match fs !! out_path with
        | None => write_output fs in_path out_path headers records ∅ t1
        | Some out_entry =>
          match read_utf8 out_entry with
          | None => {| outcome := Some IsADirectoryError; fs_after := fs;
                       trace := t1 ++ [EvFoundExisting out_path] |}
          | Some existing =>
            write_output fs in_path out_path headers records (resume_map existing)
                         (t1 ++ [EvFoundExisting out_path; EvOpenRead out_path])
          end
        end
      end
    end
  end.

End Run.

(** *** Predicates on runs *)

(** The only file an event reads, finds as existing output, replaces or
    reports as the output is [in_path]. *)
Definition touches_only (in_path : Path) (ev : event) : Prop :=
  match ev with
  | EvOpenRead p => p = in_path
  | EvFoundExisting p => p = in_path
  | EvReplace _ dst => dst = in_path
  | EvAllDone p => p = in_path
  | _ => True
  end.

(** Every lookup in a trace is directly followed by the pause. *)
Fixpoint paced (tr : list event) : bool :=
  match tr with
  | [] => true
  | EvLookup _ :: rest =>
    match rest with
    | EvSleep :: rest' => paced rest'
    | _ => false
    end
  | _ :: rest => paced rest
  end.

(** The lookups of a trace, in order. *)
Fixpoint lookups (tr : list event) : list pystr :=
  match tr with
  | [] => []
  | EvLookup m :: rest => m :: lookups rest
  | _ :: rest => lookups rest
  end.

(** The output record of an input row whose image is [v]. *)
Definition row_with_image (out_headers : list pystr) (row : gmap pystr (option pystr))
           (v : pystr) : list pystr :=
  List.map (fun col => if str_eqb col (py "image") then v else or_empty (row_get row col))
           out_headers.

End Enricher.

(** ** [src/utils/import.py]: the command line *)

Module ImporterMain.
Import Py.

Fixpoint join_sep (parts : list pystr) : pystr :=
  match parts with
  | [] => []
  | [x] => x
  | x :: rest => x ++ [47] ++ join_sep rest
  end.

(** [str(path)] *)
Definition path_str (p : Enricher.Path) : pystr :=
  match fst p ++ join_sep (snd p) with
  | [] => py "."
  | s => s
  end.

(** What [sqlite3] finds at a path.  A path that holds nothing is a
    database that [sqlite3.connect] creates. *)
Inductive target : Type :=
| Database (d : Importer.db)
| Unopenable
| Unusable (e : Importer.exn).

(** A path that can only be a directory: one without a name (the current
    directory or a root), or one that ends in two dots. *)
Definition names_directory (p : Enricher.Path) : bool :=
  match snd p with
  | [] => true
  | parts => str_eqb (List.last parts []) (py "..")
  end.

Inductive main_result : Type :=
| Usage
| NoName
| Refused (db_path : Enricher.Path) (e : Importer.exn) (printed : list Importer.output)
| RanInMemory (r : Importer.run)
| Ran (db_path : Enricher.Path) (r : Importer.run).

Section Main.

Variable repr_value : Json.json -> pystr.

(** [main(argv)].  [files] is what each path gives when it is opened as the
    CSV, at the time the importer opens it; [dbs] is what [sqlite3] finds at
    each path.
    - [NoName] is the ValueError of deriving the default target from a CSV
      path without a name.
    - The target whose text is [:memory:] is a private database in memory:
      no file is touched, and what was imported is gone with the process.
    - [Refused]: [import_csv_to_db] has printed the two paths, and either
      [sqlite3.connect] raises OperationalError (the target is a directory,
      or [Unopenable]: it cannot be opened or created), or the schema script
      raises (the target is [Unusable]: a file that is not a database, or
      that cannot be written).  Nothing is changed.
    - [Ran]: the import runs on the database of the target, which holds its
      committed content afterwards. *)
Definition main (argv : list pystr) (files : Enricher.Path -> Importer.csv_source)
           (dbs : gmap Enricher.Path target)
  : main_result * gmap Enricher.Path target :=
  match argv with
  | [] => (Usage, dbs)
  | [_] => (Usage, dbs)
  | _ :: arg1 :: rest =>
    let csv_path := Enricher.make_path arg1 in
    let db_path := match rest with
                   | arg2 :: _ => Some (Enricher.make_path arg2)
                   | [] => Enricher.with_name csv_path (py "anime.db")
                   end in
    match db_path with
    | None => (NoName, dbs)
    | Some db_path =>
      let import_into store0 :=
        Importer.import_csv_to_db repr_value (path_str csv_path) (path_str db_path)
                                  (files csv_path) store0 in
      let shown := [Importer.OutCsv (path_str csv_path); Importer.OutDb (path_str db_path)] in
      if str_eqb (path_str db_path) (py ":memory:") then
        (RanInMemory (import_into Importer.empty_db), dbs)
      else if names_directory db_path then
        (Refused db_path Importer.OperationalError shown, dbs)
      else
        match dbs !! db_path with
        | Some Unopenable => (Refused db_path Importer.OperationalError shown, dbs)
        | Some (Unusable e) => (Refused db_path e shown, dbs)
        | Some (Database d) =>
          let r := import_into d in
          (Ran db_path r, <[db_path := Database (Importer.store r)]> dbs)
        | None =>
          let r := import_into Importer.empty_db in
          (Ran db_path r, <[db_path := Database (Importer.store r)]> dbs)
        end
    end
  end.

End Main.

End ImporterMain.

(** ** Concrete inputs used below *)

Module Scenarios.
Import Py PyNum Json.

(** A rendering of the decoded values whose [str()] is not modelled; no
    scenario below decodes one. *)
Definition repr_unused (x : json) : pystr := [].

(** A target database left by an earlier import. *)
Definition store_with_data : Importer.db :=
  {| Importer.Anime :=
       [ {| Importer.id := 1; Importer.mal_id := 20; Importer.image := [];
            Importer.title := py "Naruto"; Importer.release_date := [];
            Importer.synopsis := []; Importer.score := None;
            Importer.episodes := Some 220%Z; Importer.studio := [];
            Importer.theme := [] |} ];
     Importer.Anime_seq := 1;
     Importer.Genres := [(1%Z, py "Action")];
     Importer.Genres_seq := 1;
     Importer.AnimeGenres := [(1%Z, 1%Z)] |}.

(** Two records that both list Action. *)
Definition csv_two_action : Importer.csv_source :=
  Importer.Opened
    [ [py "mal_id"; py "genres"];
      [py "1"; py "['Action']"];
      [py "2"; py "['Action', 'Drama']"] ] None.

(** A record without an external id between two good ones. *)
Definition csv_blank_id : Importer.csv_source :=
  Importer.Opened
    [ [py "mal_id"; py "title"; py "genres"];
      [py ""; py "Nameless"; py "['Comedy']"];
      [py "n/a"; py "Unnumbered"; py "['Comedy']"];
      [py "3"; py "Numbered"; py "['Drama']"] ] None.

(** A record whose genre cell decodes to Action and to a lone surrogate,
    which SQLite cannot take, followed by a good record. *)
Definition csv_bad_genre : Importer.csv_source :=
  Importer.Opened
    [ [py "mal_id"; py "title"; py "genres"];
      [py "1"; py "Naruto"; py "['Action', '\ud800']"];
      [py "2"; py "Bleach"; py "['Action']"] ] None.

(** A store with one record and one genre, not linked yet. *)
Definition store_unlinked : Importer.db :=
  {| Importer.Anime := Importer.Anime store_with_data;
     Importer.Anime_seq := 1;
     Importer.Genres := [(1%Z, py "Action")];
     Importer.Genres_seq := 1;
     Importer.AnimeGenres := [] |}.

(** The same store once the record is linked to the genre. *)
Definition store_linked : Importer.db :=
  {| Importer.Anime := Importer.Anime store_with_data;
     Importer.Anime_seq := 1;
     Importer.Genres := [(1%Z, py "Action")];
     Importer.Genres_seq := 1;
     Importer.AnimeGenres := [(1%Z, 1%Z)] |}.

(** A remote service that answers every request with the same address. *)
Definition remote_new (n : nat) (mal_id : pystr) : option pystr :=
  Some (py "http://x/new.jpg").

(** A remote service that is down. *)
Definition remote_down (n : nat) (mal_id : pystr) : option pystr := None.

(** A remote service whose answer holds a lone surrogate. *)
Definition remote_surrogate (n : nat) (mal_id : pystr) : option pystr :=
  Some [0xD800].

(** The output of an earlier run in which the identifier 5 occurs twice: the
    lookup succeeded for the first row and failed for the second. *)
Definition fs_duplicate_id : gmap Enricher.Path Enricher.entry :=
  {[ Enricher.make_path (py "anime.csv") :=
       Enricher.File [ [py "MAL_ID"; py "image"; py "title"];
                       [py "5"; py "http://x/5.jpg"; py "First"];
                       [py "5"; py ""; py "Second"] ] ]}.

(** The output of an earlier run in which the identifier 5 has its image. *)
Definition fs_resumable : gmap Enricher.Path Enricher.entry :=
  {[ Enricher.make_path (py "anime.csv") :=
       Enricher.File [ [py "MAL_ID"; py "image"; py "title"];
                       [py "5"; py "http://x/5.jpg"; py "First"];
                       [py "6"; py ""; py "Second"] ] ]}.

(** A row with two genres, and the state before and after its import. *)
Definition header_id_genres : list pystr := [py "mal_id"; py "genres"].

Definition row_two_genres : gmap pystr (option pystr) :=
  Importer.DictReader_row header_id_genres [py "1"; py "['Action', 'Drama']"].

Definition state_fresh : Importer.state :=
  {| Importer.cn := Importer.connect Importer.empty_db;
     Importer.inserted := 0; Importer.out := [] |}.

Definition state_after_row : Importer.state :=
  {| Importer.cn :=
       {| Importer.persisted := Importer.empty_db;
          Importer.working :=
            {| Importer.Anime :=
                 [ {| Importer.id := 1; Importer.mal_id := 1; Importer.image := [];
                      Importer.title := []; Importer.release_date := [];
                      Importer.synopsis := []; Importer.score := None;
                      Importer.episodes := None; Importer.studio := [];
                      Importer.theme := [] |} ];
               Importer.Anime_seq := 1;
               Importer.Genres := [(1%Z, py "Action"); (2%Z, py "Drama")];
               Importer.Genres_seq := 2;
               Importer.AnimeGenres := [(1%Z, 1%Z); (1%Z, 2%Z)] |} |};
     Importer.inserted := 1; Importer.out := [] |}.

End Scenarios.

(** * Properties *)

Import Py PyNum Re Json.

(** ** Text *)

Section Strip.

Variable p : N -> bool.

Lemma lstrip_by_idem (s : pystr) : lstrip_by p (lstrip_by p s) = lstrip_by p s.
Proof.
  induction s as [|c t IH]; simpl; [reflexivity|].
  destruct (p c) eqn:E; [exact IH|].
  simpl. rewrite E. reflexivity.
Qed.

Lemma lstrip_by_snoc (l : pystr) (c : N) :
  p c = false -> lstrip_by p (l ++ [c]) = lstrip_by p l ++ [c].
Proof.
  intros Hc. induction l as [|x t IH]; simpl.
  - rewrite Hc. reflexivity.
  - destruct (p x); [exact IH | reflexivity].
Qed.

Lemma rstrip_by_cons (c : N) (t : pystr) :
  p c = false -> rstrip_by p (c :: t) = c :: rstrip_by p t.
Proof.
  intros Hc. unfold rstrip_by. simpl rev.
  rewrite lstrip_by_snoc by exact Hc.
  rewrite rev_app_distr. reflexivity.
Qed.

Lemma rstrip_by_idem (s : pystr) : rstrip_by p (rstrip_by p s) = rstrip_by p s.
Proof.
  unfold rstrip_by. rewrite rev_involutive, lstrip_by_idem. reflexivity.
Qed.

Lemma lstrip_rstrip_lstrip (s : pystr) :
  lstrip_by p (rstrip_by p (lstrip_by p s)) = rstrip_by p (lstrip_by p s).
Proof.
  induction s as [|c t IH]; [reflexivity|].
  simpl. destruct (p c) eqn:E; [exact IH|].
  rewrite rstrip_by_cons by exact E. simpl. rewrite E. reflexivity.
Qed.

End Strip.

Lemma str_strip_idem (s : pystr) : str_strip (str_strip s) = str_strip s.
Proof.
  unfold str_strip. rewrite lstrip_rstrip_lstrip. apply rstrip_by_idem.
Qed.

Lemma truthy_true (s : pystr) : truthy s = true <-> s <> [].
Proof. destruct s; simpl; split; congruence. Qed.

Lemma str_eqb_eq (a b : pystr) : str_eqb a b = true <-> a = b.
Proof. unfold str_eqb. apply bool_decide_eq_true. Qed.

Lemma str_eqb_refl (a : pystr) : str_eqb a a = true.
Proof. apply str_eqb_eq. reflexivity. Qed.

Lemma str_eqb_neq (a b : pystr) : str_eqb a b = false <-> a <> b.
Proof. unfold str_eqb. apply bool_decide_eq_false. Qed.

Lemma stripped_filter_clean (l : list pystr) :
  Forall (fun x => x <> [] /\ str_strip x = x) (List.filter truthy (List.map str_strip l)).
Proof.
  apply List.Forall_forall. intros x Hx.
  apply List.filter_In in Hx. destruct Hx as [Hin Ht].
  apply List.in_map_iff in Hin. destruct Hin as [y [Hy _]]. subst x.
  split; [apply truthy_true; exact Ht | apply str_strip_idem].
Qed.

(** ** The genre list parser *)

(** C6: the cell ['Action', 'Comedy'] gives Action and Comedy; the unquoted
    cell Action, Comedy gives the same two names through the fallback; the
    empty cell and the cell [] give the empty sequence. *)
Theorem parse_genres_examples (repr_value : json -> pystr) :
  Importer.parse_genres repr_value (py "['Action', 'Comedy']") = [py "Action"; py "Comedy"]
  /\ Importer.parse_genres repr_value (py "Action, Comedy") = [py "Action"; py "Comedy"]
  /\ json_loads (py "Action, Comedy") = None
  /\ Importer.parse_genres repr_value (py "") = []
  /\ Importer.parse_genres repr_value (py "[]") = [].
Proof. repeat split; vm_compute; reflexivity. Qed.

(** C10: for every input, every element the genre list parser returns is a
    non-empty text equal to its own stripped form, whichever branch (decoded
    list or pattern fallback) produced it. *)
Theorem parse_genres_elements_clean (repr_value : json -> pystr) (raw : pystr) :
  Forall (fun x => x <> [] /\ str_strip x = x) (Importer.parse_genres repr_value raw).
Proof.
  unfold Importer.parse_genres.
  destruct (negb (truthy raw)); [constructor|].
  destruct (negb (truthy (str_strip (str_replace 10 32 raw)))
            || str_eqb (str_strip (str_replace 10 32 raw)) (py "[]")); [constructor|].
  destruct (json_loads _) as [[ | | | | | val | ]|];
    try apply stripped_filter_clean.
  rewrite <- (List.map_map (Importer.py_str repr_value) str_strip).
  apply stripped_filter_clean.
Qed.

(** ** The episode count *)


(** ** The store *)

Lemma pair_eqb_eq (x y : Z * Z) : Importer.pair_eqb x y = true <-> x = y.
Proof.
  destruct x as [a b], y as [c d]. unfold Importer.pair_eqb. simpl.
  rewrite andb_true_iff, !Z.eqb_eq. split; [intros [-> ->]; reflexivity | intros [= -> ->]; auto].
Qed.

Lemma filter_none (x : Z * Z) (l : list (Z * Z)) :
  existsb (Importer.pair_eqb x) l = false -> List.filter (Importer.pair_eqb x) l = [].
Proof.
  induction l as [|y t IH]; simpl; [reflexivity|].
  destruct (Importer.pair_eqb x y); simpl; [discriminate | exact IH].
Qed.

Lemma filter_one (x : Z * Z) (l : list (Z * Z)) :
  NoDup l -> existsb (Importer.pair_eqb x) l = true ->
  length (List.filter (Importer.pair_eqb x) l) = 1%nat.
Proof.
  induction l as [|y t IH]; simpl; [discriminate|].
  intros Hnd Hex. apply NoDup_cons in Hnd as [Hnotin Hnd].
  destruct (Importer.pair_eqb x y) eqn:E; simpl.
  - apply pair_eqb_eq in E. subst y.
    rewrite filter_none; [reflexivity|].
    destruct (existsb (Importer.pair_eqb x) t) eqn:Ex; [|reflexivity].
    exfalso. apply Hnotin. apply List.existsb_exists in Ex.
    destruct Ex as [z [Hz Hxz]]. apply pair_eqb_eq in Hxz. subst z.
    apply list_elem_of_In. exact Hz.
  - apply IH; assumption.
Qed.

(** C7: linking is idempotent.  In a table that honours its primary key, once
    the link of a pair has been inserted, inserting the same pair again
    succeeds, changes nothing, and the table holds exactly one row for the
    pair. *)
Theorem insert_link_idempotent (d d' : Importer.db) (anime_id genre_id : Z) :
  NoDup (Importer.AnimeGenres d) ->
  Importer.insert_link d anime_id genre_id = Importer.Ok d' ->
  Importer.insert_link d' anime_id genre_id = Importer.Ok d'
  /\ length (List.filter (Importer.pair_eqb (anime_id, genre_id)) (Importer.AnimeGenres d')) = 1%nat
  /\ NoDup (Importer.AnimeGenres d').
Proof.
  intros Hnd. unfold Importer.insert_link.
  destruct (Importer.bind_parameters _) eqn:Hb; [discriminate|].
  destruct (existsb (Importer.pair_eqb (anime_id, genre_id)) (Importer.AnimeGenres d)) eqn:Hex.
  - intros [= <-]. rewrite Hex. repeat split; [|exact Hnd]. apply filter_one; assumption.
  - destruct (_ && _); [|discriminate].
    intros [= <-]. simpl.
    rewrite List.existsb_app. simpl.
    assert (Importer.pair_eqb (anime_id, genre_id) (anime_id, genre_id) = true) as Hrefl
        by (apply pair_eqb_eq; reflexivity).
    rewrite Hrefl, orb_true_r. simpl.
    repeat split.
    + rewrite List.filter_app, filter_none by exact Hex. simpl. rewrite Hrefl. reflexivity.
    + apply NoDup_app. repeat split; [exact Hnd | | apply NoDup_singleton].
      intros x Hx Hx'. apply list_elem_of_In in Hx'. simpl in Hx'.
      destruct Hx' as [<-|[]].
      assert (existsb (Importer.pair_eqb (anime_id, genre_id)) (Importer.AnimeGenres d) = true).
      { apply List.existsb_exists. exists (anime_id, genre_id).
        split; [apply list_elem_of_In; exact Hx | exact Hrefl]. }
      congruence.
Qed.

Lemma insert_link_idempotent_witness :
  NoDup (Importer.AnimeGenres Scenarios.store_unlinked)
  /\ Importer.insert_link Scenarios.store_unlinked 1 1 = Importer.Ok Scenarios.store_linked
  /\ Importer.insert_link Scenarios.store_linked 1 1 = Importer.Ok Scenarios.store_linked
  /\ length (List.filter (Importer.pair_eqb (1%Z, 1%Z))
                         (Importer.AnimeGenres Scenarios.store_linked)) = 1%nat
  /\ NoDup (Importer.AnimeGenres Scenarios.store_linked).
Proof.
  split; [apply NoDup_nil_2|]. split; [reflexivity|].
  apply (insert_link_idempotent Scenarios.store_unlinked Scenarios.store_linked 1 1).
  - apply NoDup_nil_2.
  - reflexivity.
Defined.

(** ** The import *)



(** What a row with an identifier does never escapes the row: the handler of
    its [try] prints and returns. *)
Lemma import_row_never_raises (repr_value : json -> pystr) (field_map : gmap pystr pystr)
      (i : nat) (row : gmap pystr (option pystr)) (st : Importer.state) :
  snd (Importer.import_row repr_value field_map i row st) = Importer.Ok tt.
Proof.
  unfold Importer.import_row.
  destruct (negb (truthy _)); [reflexivity|].
  destruct (int_float _); [|reflexivity].
  unfold Importer.try_except.
  destruct (Importer.import_row_body _ _ _ _ _) as [st' [[]|e]]; reflexivity.
Qed.

(** A row whose body raises is printed as skipped under its 1-based index,
    and keeps the state the body had reached. *)
Lemma import_row_logs_exception (repr_value : json -> pystr) (field_map : gmap pystr pystr)
      (i : nat) (row : gmap pystr (option pystr)) (st st' : Importer.state)
      (mal_id : Z) (e : Importer.exn) :
  str_strip (Importer.g field_map row [py "mal_id"; py "mal id"; py "id"]) <> [] ->
  int_float (str_strip (Importer.g field_map row [py "mal_id"; py "mal id"; py "id"]))
  = Some mal_id ->
  Importer.import_row_body repr_value field_map row mal_id st = (st', Importer.Raise e) ->
  Importer.import_row repr_value field_map i row st
  = ({| Importer.cn := Importer.cn st'; Importer.inserted := Importer.inserted st';
        Importer.out := Importer.out st' ++ [Importer.OutRowSkipped i e] |}, Importer.Ok tt).
Proof.
  intros Hne Hid Hbody. unfold Importer.import_row.
  apply truthy_true in Hne. rewrite Hne, Hid. cbn [negb].
  unfold Importer.try_except. rewrite Hbody. reflexivity.
Qed.

(** C4, as the code has it: a row whose external-id cell is empty once
    stripped, or is not a number that [int(float(...))] accepts, changes
    nothing: no table row, no count, no printed line; and the loop goes on
    with the next row. *)
Theorem row_without_id_is_passed_over
        (repr_value : json -> pystr) (field_map : gmap pystr pystr) (i : nat)
        (row : gmap pystr (option pystr)) (rest : list (gmap pystr (option pystr)))
        (st : Importer.state) :
  str_strip (Importer.g field_map row [py "mal_id"; py "mal id"; py "id"]) = []
  \/ int_float (str_strip (Importer.g field_map row [py "mal_id"; py "mal id"; py "id"])) = None ->
  Importer.import_row repr_value field_map i row st = (st, Importer.Ok tt)
  /\ Importer.import_rows repr_value field_map i (row :: rest) st
     = Importer.import_rows repr_value field_map (S i) rest st.
Proof.
  intros H.
  assert (Importer.import_row repr_value field_map i row st = (st, Importer.Ok tt)) as Hrow.
  { unfold Importer.import_row. destruct H as [H|H].
    - rewrite H. reflexivity.
    - rewrite H. destruct (negb (truthy _)); reflexivity. }
  split; [exact Hrow|].
  cbn [Importer.import_rows]. unfold Importer.bind at 1. rewrite Hrow. reflexivity.
Qed.

Lemma row_without_id_is_passed_over_witness :
  (str_strip (Importer.g (Importer.field_map_of [py "mal_id"; py "title"])
                         (Importer.DictReader_row [py "mal_id"; py "title"] [py " "; py "Nameless"])
                         [py "mal_id"; py "mal id"; py "id"]) = []
   \/ int_float (str_strip (Importer.g (Importer.field_map_of [py "mal_id"; py "title"])
                         (Importer.DictReader_row [py "mal_id"; py "title"] [py " "; py "Nameless"])
                         [py "mal_id"; py "mal id"; py "id"])) = None)
  /\ Importer.import_row Scenarios.repr_unused (Importer.field_map_of [py "mal_id"; py "title"]) 1
       (Importer.DictReader_row [py "mal_id"; py "title"] [py " "; py "Nameless"])
       (Importer.Build_state (Importer.connect Importer.empty_db) 0 [])
     = (Importer.Build_state (Importer.connect Importer.empty_db) 0 [], Importer.Ok tt)
  /\ Importer.import_rows Scenarios.repr_unused (Importer.field_map_of [py "mal_id"; py "title"]) 1
       [Importer.DictReader_row [py "mal_id"; py "title"] [py " "; py "Nameless"]]
       (Importer.Build_state (Importer.connect Importer.empty_db) 0 [])
     = Importer.import_rows Scenarios.repr_unused (Importer.field_map_of [py "mal_id"; py "title"]) 2
         [] (Importer.Build_state (Importer.connect Importer.empty_db) 0 []).
Proof.
  split; [left; vm_compute; reflexivity|].
  apply (row_without_id_is_passed_over Scenarios.repr_unused
           (Importer.field_map_of [py "mal_id"; py "title"]) 1
           (Importer.DictReader_row [py "mal_id"; py "title"] [py " "; py "Nameless"]) []
           (Importer.Build_state (Importer.connect Importer.empty_db) 0 [])).
  left. vm_compute. reflexivity.
Defined.

(** C4 as stated fails: the rows without a usable identifier leave no record
    and no link, but nothing is printed for them either; the only lines of
    the run are the paths, the detected columns and the final count. *)
Lemma unnumbered_rows_are_not_logged :
  let r := Importer.import_csv_to_db Scenarios.repr_unused (py "anime.csv") (py "anime.db")
             Scenarios.csv_blank_id Importer.empty_db in
  Importer.printed r
  = [Importer.OutCsv (py "anime.csv"); Importer.OutDb (py "anime.db"); Importer.OutDetected;
     Importer.OutColumn (py "mal_id"); Importer.OutColumn (py "title");
     Importer.OutColumn (py "genres"); Importer.OutComplete; Importer.OutRows 1]
  /\ List.map Importer.mal_id (Importer.Anime (Importer.store r)) = [3%Z]
  /\ ~ (exists e, In (Importer.OutRowSkipped 1 e) (Importer.printed r))
  /\ ~ (exists e, In (Importer.OutRowSkipped 2 e) (Importer.printed r)).
Proof.
  assert (Importer.printed
            (Importer.import_csv_to_db Scenarios.repr_unused (py "anime.csv") (py "anime.db")
               Scenarios.csv_blank_id Importer.empty_db)
          = [Importer.OutCsv (py "anime.csv"); Importer.OutDb (py "anime.db");
             Importer.OutDetected; Importer.OutColumn (py "mal_id");
             Importer.OutColumn (py "title"); Importer.OutColumn (py "genres");
             Importer.OutComplete; Importer.OutRows 1]) as Hp
      by (vm_compute; reflexivity).
  cbv zeta. rewrite Hp.
  split; [reflexivity|]. split; [vm_compute; reflexivity|].
  split; intros [e He]; simpl in He;
    repeat (destruct He as [He|He]; [discriminate|]); exact He.
Qed.

(** C2, what the code does at the failing input: the first record's genre
    cell decodes to Action and to a lone surrogate.  The record, the genre
    Action and their link are inserted before the surrogate fails to bind;
    the handler prints the row as skipped, nothing is undone, the next
    record is imported, and the final commit persists the half-imported
    record with its link. *)
Theorem failed_row_keeps_partial_record :
  let r := Importer.import_csv_to_db Scenarios.repr_unused (py "anime.csv") (py "anime.db")
             Scenarios.csv_bad_genre Importer.empty_db in
  Importer.outcome r = Importer.Ok tt
  /\ Importer.parse_genres Scenarios.repr_unused (py "['Action', '\ud800']")
     = [py "Action"; [0xD800]]
  /\ In (Importer.OutRowSkipped 1 Importer.UnicodeEncodeError) (Importer.printed r)
  /\ List.map (fun a => (Importer.id a, Importer.mal_id a, Importer.title a))
              (Importer.Anime (Importer.store r))
     = [(1%Z, 1%Z, py "Naruto"); (2%Z, 2%Z, py "Bleach")]
  /\ Importer.Genres (Importer.store r) = [(1%Z, py "Action")]
  /\ Importer.AnimeGenres (Importer.store r) = [(1%Z, 1%Z); (2%Z, 1%Z)]
  /\ Importer.OutRows 2 = List.last (Importer.printed r) Importer.OutComplete.
Proof.
  cbv zeta.
  split; [vm_compute; reflexivity|].
  split; [vm_compute; reflexivity|].
  split; [vm_compute; auto 20|].
  split; [vm_compute; reflexivity|].
  split; [vm_compute; reflexivity|].
  split; vm_compute; reflexivity.
Qed.

(** ** Invariants of the store along a run *)

Section Preservation.

(** A property of the store's content that every statement of the import
    keeps. *)
Variable I : Importer.db -> Prop.

Local Abbreviation state_ok := (Importer.state_ok I).
Local Abbreviation preserves := (Importer.preserves I).

Lemma preserves_ret {A : Type} (a : A) : preserves (Importer.ret a).
Proof. intros st H. exact H. Qed.

Lemma preserves_bind {A B : Type} (m : Importer.M A) (k : A -> Importer.M B) :
  preserves m -> (forall a, preserves (k a)) -> preserves (Importer.bind m k).
Proof.
  intros Hm Hk st H. unfold Importer.bind.
  specialize (Hm st H). destruct (m st) as [st' [a|e]]; simpl in *.
  - apply Hk. exact Hm.
  - exact Hm.
Qed.

Lemma preserves_try_except (body : Importer.M unit) (handler : Importer.exn -> Importer.M unit) :
  preserves body -> (forall e, preserves (handler e)) ->
  preserves (Importer.try_except body handler).
Proof.
  intros Hb Hh st H. unfold Importer.try_except.
  specialize (Hb st H). destruct (body st) as [st' [[]|e]]; simpl in *.
  - exact Hb.
  - apply Hh. exact Hb.
Qed.

Lemma preserves_for_each {A : Type} (l : list A) (body : A -> Importer.M unit) :
  (forall x, preserves (body x)) -> preserves (Importer.for_each l body).
Proof.
  intros Hb. induction l as [|x t IH]; simpl.
  - apply preserves_ret.
  - apply preserves_bind; [apply Hb | intros _; exact IH].
Qed.

Lemma preserves_print (o : Importer.output) : preserves (Importer.print o).
Proof. intros st H. exact H. Qed.

Lemma preserves_of_result {A : Type} (r : Importer.result A) :
  preserves (Importer.of_result r).
Proof. intros st H. exact H. Qed.

Lemma preserves_incr_inserted : preserves Importer.incr_inserted.
Proof. intros st H. exact H. Qed.

Lemma preserves_conn_commit : preserves Importer.conn_commit.
Proof. intros st [Hw _]. split; exact Hw. Qed.

Lemma preserves_execute {A : Type} (stmt : Importer.db -> Importer.result (Importer.db * A)) :
  (forall d d' a, I d -> stmt d = Importer.Ok (d', a) -> I d') ->
  preserves (Importer.execute stmt).
Proof.
  intros Hs st [Hw Hp]. unfold Importer.execute.
  destruct (stmt _) as [[d a]|e] eqn:E; simpl.
  - split; [exact (Hs _ _ _ Hw E) | exact Hp].
  - split; assumption.
Qed.

Lemma preserves_query {A : Type} (q : Importer.db -> Importer.result A) :
  preserves (Importer.query q).
Proof.
  apply preserves_execute. intros d d' a Hd. cbv beta.
  destruct (q d); [intros [= <- _]; exact Hd | discriminate].
Qed.

Hypothesis I_insert_anime :
  forall d d' mal_id image title release_date synopsis score episodes studio theme rid,
    I d ->
    Importer.insert_anime d mal_id image title release_date synopsis score episodes studio theme
    = Importer.Ok (d', rid) -> I d'.
Hypothesis I_insert_genre :
  forall d d' name, I d -> Importer.insert_genre d name = Importer.Ok d' -> I d'.
Hypothesis I_insert_link :
  forall d d' a g, I d -> Importer.insert_link d a g = Importer.Ok d' -> I d'.

Variable repr_value : json -> pystr.

Lemma preserves_link_genre (anime_id : Z) (genre : pystr) :
  preserves (Importer.link_genre anime_id genre).
Proof.
  unfold Importer.link_genre.
  apply preserves_bind.
  - apply preserves_execute. intros d d' [] Hd.
    unfold Importer.with_unit. destruct (Importer.insert_genre d genre) eqn:E; [|discriminate].
    intros [= <-]. eapply I_insert_genre; eassumption.
  - intros _. apply preserves_bind; [apply preserves_query|].
    intros [gid|]; [|apply preserves_ret].
    apply preserves_execute. intros d d' [] Hd.
    unfold Importer.with_unit. destruct (Importer.insert_link d anime_id gid) eqn:E; [|discriminate].
    intros [= <-]. eapply I_insert_link; eassumption.
Qed.

Lemma preserves_import_row (field_map : gmap pystr pystr) (i : nat)
      (row : gmap pystr (option pystr)) :
  preserves (Importer.import_row repr_value field_map i row).
Proof.
  unfold Importer.import_row.
  destruct (negb (truthy _)); [apply preserves_ret|].
  destruct (int_float _) as [mal_id|]; [|apply preserves_ret].
  apply preserves_try_except; [|intros e; apply preserves_print].
  unfold Importer.import_row_body.
  apply preserves_bind; [apply preserves_of_result|]. intros episodes.
  apply preserves_bind.
  - apply preserves_execute. intros d d' rid Hd E. eapply I_insert_anime; eassumption.
  - intros anime_id. apply preserves_bind.
    + apply preserves_for_each. intros genre. apply preserves_link_genre.
    + intros _. apply preserves_bind; [apply preserves_incr_inserted|].
      intros n. destruct (n mod 500 =? 0)%Z; [|apply preserves_ret].
      apply preserves_bind; [apply preserves_conn_commit | intros _; apply preserves_print].
Qed.

Lemma preserves_import_rows (field_map : gmap pystr pystr)
      (rows : list (gmap pystr (option pystr))) (i : nat) :
  preserves (Importer.import_rows repr_value field_map i rows).
Proof.
  revert i. induction rows as [|row rest IH]; intros i; simpl.
  - apply preserves_ret.
  - apply preserves_bind; [apply preserves_import_row | intros _; apply IH].
Qed.

Hypothesis I_empty : I Importer.empty_db.

(** Whatever the input and the earlier content of the target, the store a
    run leaves has the property. *)
Lemma import_establishes (csv_path db_path : pystr) (csv : Importer.csv_source)
      (store0 : Importer.db) :
  I (Importer.store (Importer.import_csv_to_db repr_value csv_path db_path csv store0)).
Proof.
  unfold Importer.import_csv_to_db.
  match goal with
  | |- context [let (st, r) := ?script ?st0 in _] =>
    assert (preserves script /\ state_ok st0) as [Hs H0];
      [|specialize (Hs st0 H0); destruct (script st0) as [st r]; simpl in *; apply Hs]
  end.
  split; [|split; exact I_empty].
  destruct csv as [e|[|fieldnames records] fault].
  - apply preserves_of_result.
  - destruct fault; apply preserves_of_result.
  - apply preserves_bind; [apply preserves_print|]. intros _.
    apply preserves_bind; [apply preserves_for_each; intros k; apply preserves_print|]. intros _.
    apply preserves_bind; [apply preserves_import_rows|]. intros _.
    apply preserves_bind; [destruct fault; [apply preserves_of_result | apply preserves_ret]|].
    intros _.
    apply preserves_bind; [apply preserves_conn_commit|]. intros _.
    apply preserves_bind; [apply preserves_query|]. intros n.
    apply preserves_bind; [apply preserves_print | intros _; apply preserves_print].
Qed.

End Preservation.

(** ** Genres *)

Lemma insert_genre_names_unique (d d' : Importer.db) (name : pystr) :
  Importer.names_unique d -> Importer.insert_genre d name = Importer.Ok d' ->
  Importer.names_unique d'.
Proof.
  unfold Importer.names_unique, Importer.insert_genre.
  intros Hd. destruct (Importer.bind_parameters _); [discriminate|].
  intros [= <-]. simpl.
  destruct (existsb _ (Importer.Genres d)) eqn:E; [exact Hd|].
  rewrite List.map_app. simpl.
  apply NoDup_app. repeat split; [exact Hd | | apply NoDup_singleton].
  intros x Hx Hx'. apply list_elem_of_In in Hx'. simpl in Hx'. destruct Hx' as [<-|[]].
  apply list_elem_of_In, List.in_map_iff in Hx. destruct Hx as [r [Hr Hin]].
  assert (existsb (fun r => str_eqb (snd r) name) (Importer.Genres d) = true).
  { apply List.existsb_exists. exists r. split; [exact Hin | apply str_eqb_eq; exact Hr]. }
  congruence.
Qed.

(** C5: genre names are unique, case-sensitively, across the whole import.
    After any run, whatever the input and whatever the target held before,
    no two Genre rows have the same name; and for the two records that both
    list Action there is exactly one Genre row named Action (beside Drama),
    referenced by the links of both records. *)
Theorem genre_names_unique_after_import :
  (forall (repr_value : json -> pystr) (csv_path db_path : pystr)
          (csv : Importer.csv_source) (store0 : Importer.db),
      NoDup (List.map snd (Importer.Genres
              (Importer.store (Importer.import_csv_to_db repr_value csv_path db_path csv store0)))))
  /\ (let r := Importer.import_csv_to_db Scenarios.repr_unused (py "anime.csv") (py "anime.db")
                 Scenarios.csv_two_action Importer.empty_db in
      Importer.Genres (Importer.store r) = [(1%Z, py "Action"); (3%Z, py "Drama")]
      /\ Importer.AnimeGenres (Importer.store r) = [(1%Z, 1%Z); (2%Z, 1%Z); (2%Z, 3%Z)]
      /\ List.map Importer.id (Importer.Anime (Importer.store r)) = [1%Z; 2%Z]).
Proof.
  split.
  - intros. apply (import_establishes Importer.names_unique).
    + intros d d' ? ? ? ? ? ? ? ? ? rid Hd. unfold Importer.insert_anime.
      destruct (Importer.bind_parameters _); [discriminate|]. intros [= <- _]. exact Hd.
    + exact insert_genre_names_unique.
    + intros d d' a g Hd. unfold Importer.insert_link.
      destruct (Importer.bind_parameters _); [discriminate|].
      destruct (existsb _ _); [intros [= <-]; exact Hd|].
      destruct (_ && _); [intros [= <-]; exact Hd | discriminate].
    + apply NoDup_nil_2.
  - cbv zeta. split; [vm_compute; reflexivity|]. split; vm_compute; reflexivity.
Qed.

(** ** Links *)

Lemma insert_link_keeps_unique (d d' : Importer.db) (a g : Z) :
  Importer.links_unique d -> Importer.insert_link d a g = Importer.Ok d' ->
  Importer.links_unique d'.
Proof.
  unfold Importer.links_unique, Importer.insert_link. intros Hd.
  destruct (Importer.bind_parameters _); [discriminate|].
  destruct (existsb (Importer.pair_eqb (a, g)) (Importer.AnimeGenres d)) eqn:Hex;
    [intros [= <-]; exact Hd|].
  destruct (_ && _); [|discriminate]. intros [= <-]. cbn [Importer.AnimeGenres].
  apply NoDup_app. repeat split; [exact Hd | | apply NoDup_singleton].
  intros x Hx Hx'. apply list_elem_of_In in Hx'. destruct Hx' as [<-|[]].
  assert (existsb (Importer.pair_eqb (a, g)) (Importer.AnimeGenres d) = true).
  { apply List.existsb_exists. exists (a, g).
    split; [apply list_elem_of_In; exact Hx | apply pair_eqb_eq; reflexivity]. }
  congruence.
Qed.

(** The link table of every store a run leaves honours its primary key, also
    when a record lists a genre twice. *)
Lemma links_unique_after_import (repr_value : json -> pystr) (csv_path db_path : pystr)
      (csv : Importer.csv_source) (store0 : Importer.db) :
  NoDup (Importer.AnimeGenres
           (Importer.store (Importer.import_csv_to_db repr_value csv_path db_path csv store0))).
Proof.
  apply (import_establishes Importer.links_unique).
  - intros d d' ? ? ? ? ? ? ? ? ? rid Hd. unfold Importer.insert_anime.
    destruct (Importer.bind_parameters _); [discriminate|]. intros [= <- _]. exact Hd.
  - intros d d' name Hd. unfold Importer.insert_genre.
    destruct (Importer.bind_parameters _); [discriminate|]. intros [= <-]. exact Hd.
  - exact insert_link_keeps_unique.
  - apply NoDup_nil_2.
Qed.

(** ** Paths *)

Lemma existsb_sep_rev (s : pystr) :
  existsb (N.eqb 47) (rev s) = existsb (N.eqb 47) s.
Proof.
  induction s as [|c t IH]; [reflexivity|].
  cbn [rev existsb]. rewrite List.existsb_app, IH. cbn [existsb].
  rewrite orb_false_r. apply orb_comm.
Qed.

Lemma split_sep_no_sep (s cur : pystr) :
  existsb (N.eqb 47) s = false -> Enricher.split_sep cur s = [rev cur ++ s].
Proof.
  revert cur. induction s as [|c t IH]; intros cur H; cbn [existsb Enricher.split_sep] in *.
  - rewrite app_nil_r. reflexivity.
  - apply orb_false_iff in H as [Hc Ht].
    rewrite N.eqb_sym, Hc. rewrite IH by exact Ht.
    cbn [rev]. rewrite <- app_assoc. reflexivity.
Qed.

Lemma split_sep_parts_no_sep (s cur x : pystr) :
  existsb (N.eqb 47) cur = false -> In x (Enricher.split_sep cur s) ->
  existsb (N.eqb 47) x = false.
Proof.
  revert cur. induction s as [|c t IH]; intros cur Hcur Hx; cbn [Enricher.split_sep] in Hx.
  - destruct Hx as [<-|[]]. rewrite existsb_sep_rev. exact Hcur.
  - destruct (c =? 47) eqn:E.
    + destruct Hx as [<-|Hx]; [rewrite existsb_sep_rev; exact Hcur|].
      apply (IH []); [reflexivity | exact Hx].
    + apply (IH (c :: cur)); [|exact Hx].
      cbn [existsb]. rewrite N.eqb_sym, E. exact Hcur.
Qed.

Lemma no_sep_endswith (s : pystr) :
  existsb (N.eqb 47) s = false -> endswith 47 s = false.
Proof.
  intros H. unfold endswith, startswith.
  rewrite <- existsb_sep_rev in H.
  destruct (rev s) as [|x t]; [reflexivity|].
  cbn [existsb] in H. apply orb_false_iff in H as [H _]. rewrite N.eqb_sym. exact H.
Qed.

Lemma make_path_component (nm : pystr) :
  nm <> [] -> str_eqb nm (py ".") = false -> existsb (N.eqb 47) nm = false ->
  Enricher.make_path nm = ([], [nm]).
Proof.
  intros Hne Hdot Hsep. unfold Enricher.make_path, Enricher.splitroot.
  destruct nm as [|c t]; [congruence|].
  assert (startswith 47 (c :: t) = false) as ->.
  { cbn [existsb startswith] in *. apply orb_false_iff in Hsep as [H _].
    rewrite N.eqb_sym. exact H. }
  rewrite split_sep_no_sep by exact Hsep. cbn [rev app].
  cbn [List.filter truthy andb]. rewrite Hdot. reflexivity.
Qed.

Lemma stem_suffix_name (p : Enricher.Path) :
  Enricher.stem p ++ Enricher.suffix p = Enricher.name p.
Proof.
  unfold Enricher.stem, Enricher.suffix.
  destruct (_ && _); [apply take_drop | apply app_nil_r].
Qed.

Lemma last_in (l : list pystr) (d : pystr) : l <> [] -> In (List.last l d) l.
Proof.
  induction l as [|x t IH]; [congruence|]. intros _.
  destruct t as [|y t']; [left; reflexivity|].
  right. apply IH. discriminate.
Qed.

(** The derived name is the name: [with_name] gives the path back, for every
    path [Path] builds that has a name. *)
Lemma with_name_same (infile : pystr) :
  let in_path := Enricher.make_path infile in
  Enricher.with_name in_path (Enricher.stem in_path ++ Enricher.suffix in_path)
  = if truthy (Enricher.name in_path) then Some in_path else None.
Proof.
  cbv zeta. rewrite stem_suffix_name.
  unfold Enricher.with_name.
  destruct (truthy (Enricher.name (Enricher.make_path infile))) eqn:Hn; [|reflexivity].
  cbn [negb]. apply truthy_true in Hn.
  assert (snd (Enricher.make_path infile) <> []) as Hparts.
  { intros E. unfold Enricher.name in Hn. rewrite E in Hn. apply Hn. reflexivity. }
  pose proof (last_in _ [] Hparts) as Hin. fold (Enricher.name (Enricher.make_path infile)) in Hin.
  pose proof (List.app_removelast_last [] Hparts) as Hsplit.
  fold (Enricher.name (Enricher.make_path infile)) in Hsplit.
  unfold Enricher.make_path in Hin at 2.
  destruct (Enricher.splitroot infile) as [rt rel].
  cbn [snd] in Hin. apply List.filter_In in Hin as [Hin Hok].
  apply andb_true_iff in Hok as [_ Hdot]. apply negb_true_iff in Hdot.
  apply split_sep_parts_no_sep in Hin; [|reflexivity].
  rewrite (make_path_component _ Hn Hdot Hin).
  rewrite (no_sep_endswith _ Hin).
  cbn [negb orb fst snd length Nat.eqb truthy]. rewrite <- Hsplit.
  destruct (Enricher.make_path infile); reflexivity.
Qed.

Lemma rfind_from_spec (c : N) (s : pystr) (k best r : Z) :
  Enricher.rfind_from c s k best = r ->
  r = best
  \/ ((k <= r < k + Z.of_nat (length s))%Z
      /\ exists t, drop (Z.to_nat (r - k)) s = c :: t).
Proof.
  revert k best. induction s as [|x t IH]; intros k best H; cbn [Enricher.rfind_from] in H.
  - left. symmetry. exact H.
  - destruct (IH _ _ H) as [Hr | [Hrange [t' Ht']]].
    + destruct (x =? c) eqn:E; [|left; exact Hr].
      right. apply N.eqb_eq in E. subst x. rewrite Hr.
      split; [cbn [length]; lia|]. exists t. rewrite Z.sub_diag. reflexivity.
    + right. split; [cbn [length]; lia|]. exists t'.
      replace (Z.to_nat (r - k)) with (S (Z.to_nat (r - (k + 1)))) by lia.
      exact Ht'.
Qed.

Lemma existsb_drop (f : N -> bool) (n : nat) (l : pystr) :
  existsb f l = false -> existsb f (drop n l) = false.
Proof.
  revert n. induction l as [|x t IH]; intros n H; [destruct n; reflexivity|].
  destruct n as [|n]; [exact H|].
  cbn [existsb] in H. apply orb_false_iff in H as [_ Ht]. cbn [drop]. apply IH. exact Ht.
Qed.

Lemma name_no_sep (infile : pystr) :
  truthy (Enricher.name (Enricher.make_path infile)) = true ->
  existsb (N.eqb 47) (Enricher.name (Enricher.make_path infile)) = false.
Proof.
  intros Hn. apply truthy_true in Hn.
  assert (snd (Enricher.make_path infile) <> []) as Hparts.
  { intros E. unfold Enricher.name in Hn. rewrite E in Hn. apply Hn. reflexivity. }
  pose proof (last_in _ [] Hparts) as Hin. fold (Enricher.name (Enricher.make_path infile)) in Hin.
  unfold Enricher.make_path in Hin at 2.
  destruct (Enricher.splitroot infile) as [rt rel].
  cbn [snd] in Hin. apply List.filter_In in Hin as [Hin _].
  exact (split_sep_parts_no_sep rel [] _ eq_refl Hin).
Qed.

(** The temporary file is the input's sibling: for every input path that has
    a name, the path of the temporary file is the input path with [.tmp]
    appended to its last component. *)
Lemma temp_path_is_sibling (infile : pystr) :
  let in_path := Enricher.make_path infile in
  truthy (Enricher.name in_path) = true ->
  Enricher.with_suffix in_path (Enricher.suffix in_path ++ py ".tmp")
  = Some (fst in_path, removelast (snd in_path) ++ [Enricher.name in_path ++ py ".tmp"]).
Proof.
  cbv zeta. intros Hn. pose proof (name_no_sep infile Hn) as Hsep.
  set (p := Enricher.make_path infile) in *.
  assert (Enricher.suffix p = []
          \/ exists i t, (i < length (Enricher.name p))%nat
                         /\ Enricher.suffix p = drop i (Enricher.name p)
                         /\ drop i (Enricher.name p) = 46 :: t) as Hsuf.
  { unfold Enricher.suffix.
    destruct (_ && _)%Z eqn:E; [|left; reflexivity].
    apply andb_true_iff in E as [E1 E2]. apply Z.ltb_lt in E1. apply Z.ltb_lt in E2.
    destruct (rfind_from_spec 46 (Enricher.name p) 0 (-1) _ eq_refl) as [Hr | [Hrange [t Ht]]].
    - unfold Enricher.rfind in E1. lia.
    - right. fold (Enricher.rfind 46 (Enricher.name p)) in *.
      exists (Z.to_nat (Enricher.rfind 46 (Enricher.name p))), t.
      rewrite Z.sub_0_r in Ht. repeat split; [lia | exact Ht]. }
  unfold Enricher.with_suffix.
  assert (existsb (N.eqb 47) (Enricher.suffix p ++ py ".tmp") = false) as ->.
  { rewrite List.existsb_app. apply orb_false_iff. split; [|reflexivity].
    destruct Hsuf as [-> | [i [t [_ [-> _]]]]]; [reflexivity|].
    apply existsb_drop. exact Hsep. }
  assert (startswith 46 (Enricher.suffix p ++ py ".tmp") = true) as Hstart.
  { destruct Hsuf as [-> | [i [t [_ [-> ->]]]]]; reflexivity. }
  assert (truthy (Enricher.suffix p ++ py ".tmp") = true) as Htr.
  { destruct (Enricher.suffix p); reflexivity. }
  assert (str_eqb (Enricher.suffix p ++ py ".tmp") (py ".") = false) as Hdot.
  { apply str_eqb_neq. intros E. apply (f_equal (@length N)) in E.
    rewrite List.length_app in E. cbn in E. lia. }
  rewrite Hstart, Htr, Hdot, Hn. cbn [negb andb orb].
  f_equal. f_equal. f_equal. f_equal.
  destruct Hsuf as [E | [i [t [Hi [E Ht]]]]].
  - rewrite E. reflexivity.
  - rewrite E. assert (truthy (drop i (Enricher.name p)) = true) as -> by (rewrite Ht; reflexivity).
    cbn [negb]. rewrite List.length_skipn.
    replace (length (Enricher.name p) - (length (Enricher.name p) - i))%nat with i by lia.
    rewrite app_assoc, take_drop. reflexivity.
Qed.

(** The temporary file is never the input file. *)
Lemma temp_path_differs (p : Enricher.Path) :
  (fst p, removelast (snd p) ++ [Enricher.name p ++ py ".tmp"]) <> p.
Proof.
  intros E. apply (f_equal snd) in E. cbn [snd] in E.
  apply (f_equal (fun l => List.last l [])) in E. rewrite List.last_last in E.
  fold (Enricher.name p) in E.
  apply (f_equal (@length N)) in E. rewrite List.length_app in E. cbn in E. lia.
Qed.


(** ** Traces *)

Lemma paced_app_bounded (b : list Enricher.event) (n : nat) (a : list Enricher.event) :
  (length a <= n)%nat -> Enricher.paced a = true -> Enricher.paced b = true ->
  Enricher.paced (a ++ b) = true.
Proof.
  revert a. induction n as [|n IH]; intros a Hlen Ha Hb.
  - destruct a; [exact Hb | cbn [length] in Hlen; lia].
  - destruct a as [|x a']; [exact Hb|]. cbn [length] in Hlen.
    destruct x; cbn [app Enricher.paced] in *; try (apply IH; [lia | exact Ha | exact Hb]).
    destruct a' as [|y a'']; [discriminate Ha|].
    destruct y; try discriminate Ha.
    cbn [app]. apply IH; [cbn [length] in Hlen; lia | exact Ha | exact Hb].
Qed.

Lemma paced_app (a b : list Enricher.event) :
  Enricher.paced a = true -> Enricher.paced b = true -> Enricher.paced (a ++ b) = true.
Proof. apply (paced_app_bounded b (length a) a). lia. Qed.

Lemma lookups_app (a b : list Enricher.event) :
  Enricher.lookups (a ++ b) = Enricher.lookups a ++ Enricher.lookups b.
Proof.
  induction a as [|x t IH]; [reflexivity|].
  destruct x; cbn [app Enricher.lookups]; rewrite IH; reflexivity.
Qed.

(** ** The enricher's loop *)

Section Loop.

Variable remote : nat -> pystr -> option pystr.
Variable out_headers : list pystr.
Variable already_done : gmap pystr (option pystr).

Local Abbreviation recorded m :=
  (match already_done !! m with Some v => v | None => None end).

Local Abbreviation step := (Enricher.enrich_row remote out_headers already_done).
Local Abbreviation loop := (Enricher.enrich_rows remote out_headers already_done).

Lemma enrich_rows_cons (row : gmap pystr (option pystr))
      (rest : list (gmap pystr (option pystr))) (st : Enricher.loop_state) :
  loop (row :: rest) st
  = if snd (step st row) then loop rest (fst (step st row)) else (fst (step st row), false).
Proof.
  cbn [Enricher.enrich_rows]. destruct (step st row) as [st' [|]]; reflexivity.
Qed.

Section Events.

Variable P : Enricher.event -> Prop.
Hypothesis P_sleep : P Enricher.EvSleep.
Hypothesis P_saved : forall n, P (Enricher.EvSaved n).
Hypothesis P_lookup : forall m, Enricher.truthy_opt (recorded m) = false -> P (Enricher.EvLookup m).

Lemma enrich_row_events (st : Enricher.loop_state) (row : gmap pystr (option pystr)) :
  Forall P (Enricher.events st) -> Forall P (Enricher.events (fst (step st row))).
Proof.
  intros H. unfold Enricher.enrich_row.
  destruct (Enricher.truthy_opt (recorded (Enricher.row_mal_id row))) eqn:E.
  - destruct (Enricher.encodable _); cbn [fst Enricher.events];
      apply Forall_app; (split; [exact H|]); cbn [app]; [|constructor].
    destruct (_ =? _)%nat; [|constructor].
    constructor; [apply P_saved | constructor].
  - unfold Enricher.fetch_image_url.
    destruct (negb (truthy (Enricher.row_mal_id row)));
      destruct (Enricher.encodable _); cbn [fst Enricher.events];
      apply Forall_app; (split; [exact H|]);
      repeat (apply Forall_app; split);
      try (destruct (_ =? _)%nat);
      repeat constructor; try apply P_sleep; try apply P_saved; apply P_lookup; exact E.
Qed.

Lemma enrich_rows_events (rows : list (gmap pystr (option pystr))) (st : Enricher.loop_state) :
  Forall P (Enricher.events st) -> Forall P (Enricher.events (fst (loop rows st))).
Proof.
  revert st. induction rows as [|row rest IH]; intros st H; [exact H|].
  rewrite enrich_rows_cons. pose proof (enrich_row_events st row H) as H1.
  destruct (snd (step st row)); [apply IH; exact H1 | exact H1].
Qed.

End Events.

(** A row that is written is written as the input row with one value for its
    image cells; the value is the recorded one when there is one. *)
Lemma enrich_row_written (st : Enricher.loop_state) (row : gmap pystr (option pystr)) :
  exists v,
    Enricher.written (fst (step st row))
    = (if snd (step st row)
       then Enricher.written st ++ [Enricher.row_with_image out_headers row v]
       else Enricher.written st)
    /\ (Enricher.truthy_opt (recorded (Enricher.row_mal_id row)) = true ->
        v = Enricher.or_empty (recorded (Enricher.row_mal_id row))).
Proof.
  unfold Enricher.enrich_row.
  destruct (Enricher.truthy_opt (recorded (Enricher.row_mal_id row))) eqn:E.
  - exists (Enricher.or_empty (recorded (Enricher.row_mal_id row))).
    split; [|reflexivity].
    destruct (Enricher.encodable _); reflexivity.
  - destruct (Enricher.fetch_image_url remote _ _) as [[u evs] reqs].
    exists (Enricher.or_empty u). split; [|discriminate].
    destruct (Enricher.encodable _); reflexivity.
Qed.

Lemma enrich_rows_written (rows : list (gmap pystr (option pystr))) (st : Enricher.loop_state) :
  snd (loop rows st) = true ->
  exists body,
    Enricher.written (fst (loop rows st)) = Enricher.written st ++ body
    /\ Forall2 (fun row rec =>
                  exists v, rec = Enricher.row_with_image out_headers row v
                            /\ (Enricher.truthy_opt (recorded (Enricher.row_mal_id row)) = true ->
                                v = Enricher.or_empty (recorded (Enricher.row_mal_id row))))
               rows body.
Proof.
  revert st. induction rows as [|row rest IH]; intros st.
  - intros _. exists []. split; [symmetry; apply app_nil_r | constructor].
  - rewrite enrich_rows_cons.
    destruct (enrich_row_written st row) as [v [Hw Hv]].
    destruct (snd (step st row)); [|discriminate].
    intros Hok. destruct (IH _ Hok) as [body [Hb HF]].
    exists (Enricher.row_with_image out_headers row v :: body). split.
    + rewrite Hb.
      change (Enricher.written st ++ Enricher.row_with_image out_headers row v :: body)
        with (Enricher.written st ++ [Enricher.row_with_image out_headers row v] ++ body).
      rewrite app_assoc. f_equal. exact Hw.
    + constructor; [exists v; split; [reflexivity | exact Hv] | exact HF].
Qed.

(** Whether or not the loop ends early, what has been written starts with
    what was written before. *)
Lemma enrich_rows_written_prefix (rows : list (gmap pystr (option pystr)))
      (st : Enricher.loop_state) :
  exists body, Enricher.written (fst (loop rows st)) = Enricher.written st ++ body.
Proof.
  revert st. induction rows as [|row rest IH]; intros st.
  - exists []. symmetry. apply app_nil_r.
  - rewrite enrich_rows_cons.
    destruct (enrich_row_written st row) as [v [Hw _]].
    destruct (snd (step st row)).
    + destruct (IH (fst (step st row))) as [body Hb].
      exists ([Enricher.row_with_image out_headers row v] ++ body).
      rewrite Hb, app_assoc. f_equal. exact Hw.
    + exists []. cbn [fst]. rewrite Hw. symmetry. apply app_nil_r.
Qed.

(** What a row adds to the trace: at most one lookup, for an id that is not
    empty, directly followed by the pause. *)
Lemma enrich_row_chunk (st : Enricher.loop_state) (row : gmap pystr (option pystr)) :
  exists chunk,
    Enricher.events (fst (step st row)) = Enricher.events st ++ chunk
    /\ Enricher.paced chunk = true
    /\ Forall (fun m => m <> []) (Enricher.lookups chunk)
    /\ (length (Enricher.lookups chunk) <= 1)%nat.
Proof.
  unfold Enricher.enrich_row.
  destruct (Enricher.truthy_opt _).
  - destruct (Enricher.encodable _); cbn [fst Enricher.events]; eexists;
      (split; [reflexivity|]);
      try destruct (_ =? _)%nat; cbn; repeat split; try constructor; lia.
  - unfold Enricher.fetch_image_url.
    destruct (truthy (Enricher.row_mal_id row)) eqn:E; cbn [negb].
    + apply truthy_true in E.
      destruct (Enricher.encodable _); cbn [fst Enricher.events]; eexists;
        (split; [reflexivity|]);
        try destruct (_ =? _)%nat; cbn; repeat split;
        try (constructor; [exact E | constructor]); lia.
    + destruct (Enricher.encodable _); cbn [fst Enricher.events]; eexists;
        (split; [reflexivity|]);
        try destruct (_ =? _)%nat; cbn; repeat split; try constructor; lia.
Qed.

Lemma enrich_rows_chunk (rows : list (gmap pystr (option pystr))) (st : Enricher.loop_state) :
  exists chunk,
    Enricher.events (fst (loop rows st)) = Enricher.events st ++ chunk
    /\ Enricher.paced chunk = true
    /\ Forall (fun m => m <> []) (Enricher.lookups chunk)
    /\ (length (Enricher.lookups chunk) <= length rows)%nat.
Proof.
  revert st. induction rows as [|row rest IH]; intros st.
  - exists []. repeat split; [symmetry; apply app_nil_r | constructor | cbn; lia].
  - rewrite enrich_rows_cons.
    destruct (enrich_row_chunk st row) as (c1 & H1 & P1 & F1 & L1).
    destruct (snd (step st row)).
    + destruct (IH (fst (step st row))) as (c2 & H2 & P2 & F2 & L2).
      exists (c1 ++ c2). repeat split.
      * rewrite H2, H1, <- app_assoc. reflexivity.
      * apply paced_app; assumption.
      * rewrite lookups_app. apply Forall_app. split; assumption.
      * rewrite lookups_app, List.length_app. cbn [length]. lia.
    + exists c1. cbn [fst]. repeat split; try assumption. cbn [length]. lia.
Qed.

End Loop.

Lemma load_already_done_keeps (post : list (gmap pystr (option pystr)))
      (acc : gmap pystr (option pystr)) (m : pystr) :
  Forall (fun r => Enricher.row_get r (py "MAL_ID") <> Some m) post ->
  fold_left (fun M row =>
               match Enricher.row_get row (py "MAL_ID") with
               | Some mid => if truthy mid then <[mid := Enricher.row_get row (py "image")]> M
                             else M
               | None => M
               end) post acc !! m = acc !! m.
Proof.
  revert acc. induction post as [|r rest IH]; intros acc H; [reflexivity|].
  apply Forall_cons in H as [Hr Hrest].
  cbn [fold_left]. rewrite IH by exact Hrest.
  destruct (Enricher.row_get r (py "MAL_ID")) as [mid|]; [|reflexivity].
  destruct (truthy mid); [|reflexivity].
  apply lookup_insert_ne. congruence.
Qed.

(** The map of recorded images gives, for an id, the image cell of the last
    row whose [MAL_ID] cell is that id. *)
Lemma load_already_done_last (pre post : list (gmap pystr (option pystr)))
      (row : gmap pystr (option pystr)) (m : pystr) :
  Enricher.row_get row (py "MAL_ID") = Some m -> m <> [] ->
  Forall (fun r => Enricher.row_get r (py "MAL_ID") <> Some m) post ->
  Enricher.load_already_done (pre ++ row :: post) !! m
  = Some (Enricher.row_get row (py "image")).
Proof.
  intros Hm Hne Hpost. unfold Enricher.load_already_done.
  rewrite fold_left_app. cbn [fold_left].
  rewrite load_already_done_keeps by exact Hpost.
  rewrite Hm. apply truthy_true in Hne. rewrite Hne.
  apply lookup_insert_eq.
Qed.

(** ** The enricher's run *)

(** Whatever can be read as utf-8-sig can be read as utf-8. *)
Lemma read_utf8_some (e : Enricher.entry) (s : list (list pystr)) :
  Enricher.read_utf8_sig e = Some s -> exists r, Enricher.read_utf8 e = Some r.
Proof. destruct e; [eexists; reflexivity | eexists; reflexivity | discriminate]. Qed.

(** The run, once the output path is known to be the input path: the input
    file is read for its header, as the existing output to resume from, and
    as the input proper. *)
Lemma main_on_csv (remote : nat -> pystr -> option pystr)
      (fs : gmap Enricher.Path Enricher.entry) (infile : pystr) (e : Enricher.entry)
      (headers : list pystr) (records existing : list (list pystr)) :
  let in_path := Enricher.make_path infile in
  fs !! in_path = Some e ->
  Enricher.read_utf8_sig e = Some (headers :: records) ->
  Enricher.read_utf8 e = Some existing ->
  truthy (Enricher.name in_path) = true ->
  Enricher.main remote fs infile
  = Enricher.write_output remote fs in_path in_path headers records
      (Enricher.resume_map existing)
      [Enricher.EvOpenRead in_path; Enricher.EvFoundExisting in_path;
       Enricher.EvOpenRead in_path].
Proof.
  cbv zeta. intros Hin Hs Hr Hname. unfold Enricher.main.
  rewrite Hin, with_name_same, Hname, Hs, Hin, Hr. reflexivity.
Qed.

(** A run that does not reach the second half of [main] changes nothing and
    looks nothing up. *)
Lemma main_cases (remote : nat -> pystr -> option pystr)
      (fs : gmap Enricher.Path Enricher.entry) (infile : pystr) :
  let in_path := Enricher.make_path infile in
  let r := Enricher.main remote fs infile in
  (Enricher.fs_after r = fs
   /\ (Enricher.trace r = [Enricher.EvNotFound infile] \/ Enricher.trace r = []
       \/ Enricher.trace r = [Enricher.EvOpenRead in_path; Enricher.EvEmpty])
   /\ (Enricher.outcome r = None ->
       forall e headers records,
         fs !! in_path = Some e -> Enricher.read_utf8_sig e <> Some (headers :: records)))
  \/ exists e headers records existing,
      fs !! in_path = Some e
      /\ Enricher.read_utf8_sig e = Some (headers :: records)
      /\ Enricher.read_utf8 e = Some existing
      /\ truthy (Enricher.name in_path) = true
      /\ r = Enricher.write_output remote fs in_path in_path headers records
               (Enricher.resume_map existing)
               [Enricher.EvOpenRead in_path; Enricher.EvFoundExisting in_path;
                Enricher.EvOpenRead in_path].
Proof.
  cbv zeta.
  destruct (fs !! Enricher.make_path infile) as [e|] eqn:Hin.
  2: { left. unfold Enricher.main. rewrite Hin. cbn.
       split; [reflexivity|]. split; [left; reflexivity|]. intros _ e h r H. discriminate H. }
  destruct (truthy (Enricher.name (Enricher.make_path infile))) eqn:Hname.
  2: { left. unfold Enricher.main. rewrite Hin, with_name_same, Hname. cbn.
       split; [reflexivity|]. split; [right; left; reflexivity|]. discriminate. }
  destruct (Enricher.read_utf8_sig e) as [[|headers records]|] eqn:Hs.
  - left. unfold Enricher.main. rewrite Hin, with_name_same, Hname, Hs. cbn.
    split; [reflexivity|]. split; [right; right; reflexivity|].
    intros _ e' h r [= <-]. rewrite Hs. discriminate.
  - right. destruct (read_utf8_some e _ Hs) as [existing Hr].
    exists e, headers, records, existing.
    repeat split; try assumption.
    exact (main_on_csv remote fs infile e headers records existing Hin Hs Hr Hname).
  - left. unfold Enricher.main. rewrite Hin, with_name_same, Hname, Hs. cbn.
    split; [reflexivity|]. split; [right; left; reflexivity|]. discriminate.
Qed.

(** The second half of [main], case by case. *)
Lemma write_output_cases (remote : nat -> pystr -> option pystr)
      (fs : gmap Enricher.Path Enricher.entry) (in_path out_path : Enricher.Path)
      (headers : list pystr) (records : list (list pystr))
      (already_done : gmap pystr (option pystr)) (t2 : list Enricher.event) :
  let out_headers := Enricher.insert_column_after headers (py "MAL_ID") (py "image") in
  let r := Enricher.write_output remote fs in_path out_path headers records already_done t2 in
  (Enricher.fs_after r = fs
   /\ (Enricher.trace r = t2 \/ Enricher.trace r = t2 ++ [Enricher.EvOpenRead in_path])
   /\ Enricher.outcome r <> None)
  \/ exists temp_path,
      Enricher.with_suffix out_path (Enricher.suffix out_path ++ py ".tmp") = Some temp_path
      /\ ((Enricher.fs_after r = <[temp_path := Enricher.File []]> fs
           /\ Enricher.trace r
              = (t2 ++ [Enricher.EvOpenRead in_path]) ++ [Enricher.EvOpenWrite temp_path]
           /\ Enricher.outcome r = Some Enricher.UnicodeEncodeError)
          \/ exists st ok,
              Enricher.enrich_rows remote out_headers already_done
                (Importer.DictReader_rows headers records)
                {| Enricher.requests := 0; Enricher.rows_processed := 0;
                   Enricher.written := [out_headers];
                   Enricher.events := (t2 ++ [Enricher.EvOpenRead in_path])
                                      ++ [Enricher.EvOpenWrite temp_path] |}
              = (st, ok)
              /\ r = if ok
                     then {| Enricher.outcome := None;
                             Enricher.fs_after :=
                               <[out_path := Enricher.File (Enricher.written st)]>
                                 (delete temp_path fs);
                             Enricher.trace :=
                               Enricher.events st
                               ++ [Enricher.EvReplace temp_path out_path;
                                   Enricher.EvAllDone out_path] |}
                     else {| Enricher.outcome := Some Enricher.UnicodeEncodeError;
                             Enricher.fs_after :=
                               <[temp_path := Enricher.File (Enricher.written st)]> fs;
                             Enricher.trace := Enricher.events st |}).
Proof.
  cbv zeta. unfold Enricher.write_output.
  destruct (Enricher.with_suffix _ _) as [temp_path|];
    [|left; cbn; split; [reflexivity|]; split; [left; reflexivity | discriminate]].
  destruct (fs !! temp_path) as [[w|s r|]|];
    try (left; cbn; split; [reflexivity|]; split; [right; reflexivity | discriminate]);
    (right; exists temp_path; split; [reflexivity|];
     destruct (Enricher.encodable _);
     [right; destruct (Enricher.enrich_rows _ _ _ _ _) as [st ok];
      exists st, ok; split; [reflexivity|]; destruct ok; reflexivity
     |left; cbn; repeat split]).
Qed.

(** A run that completes went through the loop, all rows written. *)
Lemma write_output_completed (remote : nat -> pystr -> option pystr)
      (fs : gmap Enricher.Path Enricher.entry) (in_path out_path : Enricher.Path)
      (headers : list pystr) (records : list (list pystr))
      (already_done : gmap pystr (option pystr)) (t2 : list Enricher.event) :
  let out_headers := Enricher.insert_column_after headers (py "MAL_ID") (py "image") in
  let r := Enricher.write_output remote fs in_path out_path headers records already_done t2 in
  Enricher.outcome r = None ->
  exists temp_path st,
    Enricher.with_suffix out_path (Enricher.suffix out_path ++ py ".tmp") = Some temp_path
    /\ Enricher.enrich_rows remote out_headers already_done
         (Importer.DictReader_rows headers records)
         {| Enricher.requests := 0; Enricher.rows_processed := 0;
            Enricher.written := [out_headers];
            Enricher.events := (t2 ++ [Enricher.EvOpenRead in_path])
                               ++ [Enricher.EvOpenWrite temp_path] |}
       = (st, true)
    /\ Enricher.fs_after r
       = <[out_path := Enricher.File (Enricher.written st)]> (delete temp_path fs)
    /\ Enricher.trace r
       = Enricher.events st
         ++ [Enricher.EvReplace temp_path out_path; Enricher.EvAllDone out_path].
Proof.
  cbv zeta. intros Hout.
  destruct (write_output_cases remote fs in_path out_path headers records already_done t2)
    as [(_ & _ & Hne) | (temp_path & Hsuf & [(_ & _ & He) | (st & ok & Hloop & Hr)])].
  - contradiction.
  - rewrite He in Hout. discriminate Hout.
  - rewrite Hr in *. destruct ok; [|discriminate Hout].
    exists temp_path, st. repeat split; assumption.
Qed.

(** What the loop leaves when every row was written: the header, then one
    record per row, each with the recorded image when there is one. *)
Lemma completed_loop (remote : nat -> pystr -> option pystr) (out_headers : list pystr)
      (already_done : gmap pystr (option pystr)) (rows : list (gmap pystr (option pystr)))
      (t4 : list Enricher.event) (st : Enricher.loop_state) :
  Enricher.enrich_rows remote out_headers already_done rows
    {| Enricher.requests := 0; Enricher.rows_processed := 0;
       Enricher.written := [out_headers]; Enricher.events := t4 |} = (st, true) ->
  exists body chunk,
    Enricher.written st = out_headers :: body
    /\ Forall2 (fun row rec =>
                  exists v, rec = Enricher.row_with_image out_headers row v
                            /\ (Enricher.truthy_opt
                                  (match already_done !! Enricher.row_mal_id row with
                                   | Some x => x
                                   | None => None
                                   end) = true ->
                                v = Enricher.or_empty
                                      (match already_done !! Enricher.row_mal_id row with
                                       | Some x => x
                                       | None => None
                                       end)))
               rows body
    /\ Enricher.events st = t4 ++ chunk
    /\ Enricher.paced chunk = true
    /\ Forall (fun m => m <> []) (Enricher.lookups chunk)
    /\ (length (Enricher.lookups chunk) <= length rows)%nat.
Proof.
  intros Hloop.
  set (st0 := {| Enricher.requests := 0; Enricher.rows_processed := 0;
                 Enricher.written := [out_headers]; Enricher.events := t4 |}) in *.
  destruct (enrich_rows_written remote out_headers already_done rows st0) as [body [Hb HF]];
    [rewrite Hloop; reflexivity|].
  destruct (enrich_rows_chunk remote out_headers already_done rows st0)
    as (chunk & Hc & Pc & Fc & Lc).
  rewrite Hloop in Hb, Hc. cbn [fst] in Hb, Hc.
  exists body, chunk. repeat split; assumption.
Qed.

Lemma completed_run_has_name (remote : nat -> pystr -> option pystr)
      (fs : gmap Enricher.Path Enricher.entry) (infile : pystr) (e : Enricher.entry) :
  fs !! Enricher.make_path infile = Some e ->
  Enricher.outcome (Enricher.main remote fs infile) = None ->
  truthy (Enricher.name (Enricher.make_path infile)) = true.
Proof.
  intros Hin Hout.
  destruct (truthy (Enricher.name (Enricher.make_path infile))) eqn:E; [reflexivity|].
  unfold Enricher.main in Hout. rewrite Hin, with_name_same, E in Hout. discriminate Hout.
Qed.

(** A run that completes on a CSV with a header, in full: the temporary file
    is the input's sibling, the loop wrote every row, and what it wrote
    stands in place of the input. *)
Lemma main_completed (remote : nat -> pystr -> option pystr)
      (fs : gmap Enricher.Path Enricher.entry) (infile : pystr) (e : Enricher.entry)
      (headers : list pystr) (records existing : list (list pystr)) :
  let in_path := Enricher.make_path infile in
  let temp_path := (fst in_path,
                    removelast (snd in_path) ++ [Enricher.name in_path ++ py ".tmp"]) in
  let out_headers := Enricher.insert_column_after headers (py "MAL_ID") (py "image") in
  let r := Enricher.main remote fs infile in
  fs !! in_path = Some e ->
  Enricher.read_utf8_sig e = Some (headers :: records) ->
  Enricher.read_utf8 e = Some existing ->
  Enricher.outcome r = None ->
  exists st,
    Enricher.enrich_rows remote out_headers (Enricher.resume_map existing)
      (Importer.DictReader_rows headers records)
      {| Enricher.requests := 0; Enricher.rows_processed := 0;
         Enricher.written := [out_headers];
         Enricher.events := ([Enricher.EvOpenRead in_path; Enricher.EvFoundExisting in_path;
                              Enricher.EvOpenRead in_path] ++ [Enricher.EvOpenRead in_path])
                            ++ [Enricher.EvOpenWrite temp_path] |}
    = (st, true)
    /\ Enricher.fs_after r
       = <[in_path := Enricher.File (Enricher.written st)]> (delete temp_path fs)
    /\ Enricher.trace r
       = Enricher.events st
         ++ [Enricher.EvReplace temp_path in_path; Enricher.EvAllDone in_path].
Proof.
  cbv zeta. intros Hin Hs Hr Hout.
  pose proof (completed_run_has_name remote fs infile e Hin Hout) as Hname.
  rewrite (main_on_csv remote fs infile e headers records existing Hin Hs Hr Hname) in *.
  destruct (write_output_completed _ _ _ _ _ _ _ _ Hout)
    as (temp_path & st & Hsuf & Hloop & Hfs & Htr).
  rewrite (temp_path_is_sibling infile Hname) in Hsuf. injection Hsuf as <-.
  exists st. repeat split; assumption.
Qed.

(** C3: the output path the enricher derives is its input path.  For every
    input name, [with_name] of the stem plus the suffix gives the input path
    back (or raises, for a path without a name), and every file a run
    reads, finds as existing output to resume from, replaces or reports is
    the input file.  On a run that completes on a CSV with a header, the
    file found as existing output is the input file; the temporary file,
    another path, is renamed onto the input path, which then holds the new
    header and one record per input row while the temporary path holds
    nothing; and the images reused are those the input file itself records:
    a row whose id has a non-empty recorded image there is written with
    it. *)
Theorem enricher_output_is_input
        (remote : nat -> pystr -> option pystr)
        (fs : gmap Enricher.Path Enricher.entry) (infile : pystr) :
  let in_path := Enricher.make_path infile in
  let r := Enricher.main remote fs infile in
  Enricher.with_name in_path (Enricher.stem in_path ++ Enricher.suffix in_path)
  = (if truthy (Enricher.name in_path) then Some in_path else None)
  /\ Forall (Enricher.touches_only in_path) (Enricher.trace r)
  /\ forall (e : Enricher.entry) (headers : list pystr)
            (records existing : list (list pystr)),
      fs !! in_path = Some e ->
      Enricher.read_utf8_sig e = Some (headers :: records) ->
      Enricher.read_utf8 e = Some existing ->
      Enricher.outcome r = None ->
      let out_headers := Enricher.insert_column_after headers (py "MAL_ID") (py "image") in
      let rows := Importer.DictReader_rows headers records in
      exists (temp_path : Enricher.Path) (body : list (list pystr)),
        temp_path <> in_path
        /\ In (Enricher.EvFoundExisting in_path) (Enricher.trace r)
        /\ In (Enricher.EvReplace temp_path in_path) (Enricher.trace r)
        /\ Enricher.fs_after r
           = <[in_path := Enricher.File (out_headers :: body)]> (delete temp_path fs)
        /\ length body = length rows
        /\ forall (k : nat) (row : gmap pystr (option pystr)) (v : pystr),
            rows !! k = Some row ->
            Enricher.resume_map existing !! Enricher.row_mal_id row = Some (Some v) ->
            v <> [] ->
            body !! k = Some (Enricher.row_with_image out_headers row v).
Proof.
  cbv zeta. split; [apply with_name_same|]. split.
  - destruct (main_cases remote fs infile)
      as [(_ & Htr & _) | (e & headers & records & existing & Hin & Hs & Hr & Hname & ->)].
    + destruct Htr as [-> | [-> | ->]]; repeat constructor.
    + destruct (write_output_cases remote fs (Enricher.make_path infile)
                  (Enricher.make_path infile) headers records
                  (Enricher.resume_map existing)
                  [Enricher.EvOpenRead (Enricher.make_path infile);
                   Enricher.EvFoundExisting (Enricher.make_path infile);
                   Enricher.EvOpenRead (Enricher.make_path infile)])
        as [(_ & Htr & _) | (temp_path & _ & [(_ & Htr & _) | (st & ok & Hloop & ->)])].
      * destruct Htr as [-> | ->]; repeat constructor.
      * rewrite Htr. repeat constructor.
      * assert (Forall (Enricher.touches_only (Enricher.make_path infile))
                       (Enricher.events st)) as Hev.
        { pose proof (enrich_rows_events remote
                        (Enricher.insert_column_after headers (py "MAL_ID") (py "image"))
                        (Enricher.resume_map existing)
                        (Enricher.touches_only (Enricher.make_path infile))
                        I (fun _ => I) (fun _ _ => I)
                        (Importer.DictReader_rows headers records)) as HE.
          match type of Hloop with
          | Enricher.enrich_rows _ _ _ _ ?st0 = _ =>
            specialize (HE st0 ltac:(cbn [Enricher.events]; repeat constructor))
          end.
          rewrite Hloop in HE. exact HE. }
        destruct ok; cbn [Enricher.trace]; [|exact Hev].
        apply Forall_app. split; [exact Hev | repeat constructor].
  - intros e headers records existing Hin Hs Hr Hout.
    destruct (main_completed remote fs infile e headers records existing Hin Hs Hr Hout)
      as (st & Hloop & Hfs & Htr).
    destruct (completed_loop _ _ _ _ _ _ Hloop) as (body & chunk & Hw & HF & Hev & _).
    eexists. exists body. split; [apply temp_path_differs|].
    rewrite Htr, Hfs, Hw, Hev. repeat split.
    + apply List.in_or_app. left. apply List.in_or_app. left. cbn. auto.
    + apply List.in_or_app. right. left. reflexivity.
    + symmetry. exact (Forall2_length _ _ _ HF).
    + intros k row v Hk Hrec Hv.
      destruct (Forall2_lookup_l _ _ _ _ _ HF Hk) as (rec & Hrec' & v' & -> & Hv').
      rewrite Hrec'. rewrite Hrec in Hv'.
      cbn [Enricher.truthy_opt Enricher.or_empty] in Hv'.
      rewrite Hv' by (apply truthy_true; exact Hv). reflexivity.
Qed.

Lemma enricher_output_is_input_witness :
  let in_path := Enricher.make_path (py "anime.csv") in
  let e := Enricher.File [ [py "MAL_ID"; py "image"; py "title"];
                           [py "5"; py "http://x/5.jpg"; py "First"];
                           [py "6"; py ""; py "Second"] ] in
  let headers := [py "MAL_ID"; py "image"; py "title"] in
  let records := [[py "5"; py "http://x/5.jpg"; py "First"]; [py "6"; py ""; py "Second"]] in
  let r := Enricher.main Scenarios.remote_new Scenarios.fs_resumable (py "anime.csv") in
  Scenarios.fs_resumable !! in_path = Some e
  /\ Enricher.read_utf8_sig e = Some (headers :: records)
  /\ Enricher.read_utf8 e = Some (headers :: records)
  /\ Enricher.outcome r = None
  /\ exists (temp_path : Enricher.Path) (body : list (list pystr)),
      temp_path <> in_path
      /\ In (Enricher.EvFoundExisting in_path) (Enricher.trace r)
      /\ In (Enricher.EvReplace temp_path in_path) (Enricher.trace r)
      /\ Enricher.fs_after r
         = <[in_path := Enricher.File
                          (Enricher.insert_column_after headers (py "MAL_ID") (py "image")
                             :: body)]> (delete temp_path Scenarios.fs_resumable)
      /\ length body = length (Importer.DictReader_rows headers records)
      /\ forall (k : nat) (row : gmap pystr (option pystr)) (v : pystr),
          Importer.DictReader_rows headers records !! k = Some row ->
          Enricher.resume_map (headers :: records) !! Enricher.row_mal_id row = Some (Some v) ->
          v <> [] ->
          body !! k
          = Some (Enricher.row_with_image
                    (Enricher.insert_column_after headers (py "MAL_ID") (py "image")) row v).
Proof.
  cbv zeta.
  assert (Scenarios.fs_resumable !! Enricher.make_path (py "anime.csv")
          = Some (Enricher.File [ [py "MAL_ID"; py "image"; py "title"];
                                  [py "5"; py "http://x/5.jpg"; py "First"];
                                  [py "6"; py ""; py "Second"] ])) as H1
      by (vm_compute; reflexivity).
  assert (Enricher.outcome (Enricher.main Scenarios.remote_new Scenarios.fs_resumable
                                          (py "anime.csv")) = None) as H2
      by (vm_compute; reflexivity).
  split; [exact H1|]. split; [reflexivity|]. split; [reflexivity|]. split; [exact H2|].
  exact (proj2 (proj2 (enricher_output_is_input Scenarios.remote_new Scenarios.fs_resumable
                         (py "anime.csv")))
               _ _ _ _ H1 eq_refl eq_refl H2).
Defined.

(** C9, as the code has it: on a run that completes, if the last row of the
    existing output file whose MAL_ID cell is the id [m] records a non-empty
    image [v], then no remote lookup is issued for [m] during the run, and
    every input row whose stripped id is [m] is written with [v] as its
    image.  (The existing output is the input file read as utf-8, the input
    rows are the same file read as utf-8-sig.) *)
Theorem recorded_image_is_reused
        (remote : nat -> pystr -> option pystr)
        (fs : gmap Enricher.Path Enricher.entry) (infile : pystr) (e : Enricher.entry)
        (headers : list pystr) (records : list (list pystr))
        (xheaders : list pystr) (xrecords : list (list pystr))
        (pre post : list (gmap pystr (option pystr))) (row : gmap pystr (option pystr))
        (m v : pystr) :
  fs !! Enricher.make_path infile = Some e ->
  Enricher.read_utf8_sig e = Some (headers :: records) ->
  Enricher.read_utf8 e = Some (xheaders :: xrecords) ->
  Enricher.outcome (Enricher.main remote fs infile) = None ->
  Importer.DictReader_rows xheaders xrecords = pre ++ row :: post ->
  Enricher.row_get row (py "MAL_ID") = Some m ->
  m <> [] ->
  Enricher.row_get row (py "image") = Some v ->
  v <> [] ->
  Forall (fun r => Enricher.row_get r (py "MAL_ID") <> Some m) post ->
  ~ In (Enricher.EvLookup m) (Enricher.trace (Enricher.main remote fs infile))
  /\ exists recs,
      Enricher.fs_after (Enricher.main remote fs infile) !! Enricher.make_path infile
      = Some (Enricher.File recs)
      /\ forall (k : nat) (row' : gmap pystr (option pystr)),
          Importer.DictReader_rows headers records !! k = Some row' ->
          Enricher.row_mal_id row' = m ->
          recs !! S k
          = Some (Enricher.row_with_image
                    (Enricher.insert_column_after headers (py "MAL_ID") (py "image")) row' v).
Proof.
  intros Hin Hs Hr Hout Hrows Hm Hmne Hv Hvne Hpost.
  assert (Enricher.resume_map (xheaders :: xrecords) !! m = Some (Some v)) as Hrec.
  { cbn [Enricher.resume_map].
    rewrite Hrows, (load_already_done_last pre post row m Hm Hmne Hpost), Hv. reflexivity. }
  destruct (main_completed remote fs infile e headers records _ Hin Hs Hr Hout)
    as (st & Hloop & Hfs & Htr).
  destruct (completed_loop _ _ _ _ _ _ Hloop) as (body & chunk & Hw & HF & Hev & _).
  split.
  - rewrite Htr. intros Hl. apply List.in_app_or in Hl as [Hl|Hl].
    + pose proof (enrich_rows_events remote
                    (Enricher.insert_column_after headers (py "MAL_ID") (py "image"))
                    (Enricher.resume_map (xheaders :: xrecords))
                    (fun ev => ev <> Enricher.EvLookup m)) as HF'.
      specialize (HF' ltac:(discriminate) ltac:(discriminate)).
      assert (forall m0, Enricher.truthy_opt
                           (match Enricher.resume_map (xheaders :: xrecords) !! m0 with
                            | Some v0 => v0
                            | None => None
                            end) = false ->
                         Enricher.EvLookup m0 <> Enricher.EvLookup m) as Hlk.
      { intros m0 Hf [= ->]. rewrite Hrec in Hf. cbn in Hf.
        apply truthy_true in Hvne. congruence. }
      match type of Hloop with
      | Enricher.enrich_rows _ _ _ ?rows ?st0 = _ =>
        specialize (HF' Hlk rows st0
                        ltac:(cbn [Enricher.events]; repeat constructor; discriminate))
      end.
      rewrite Hloop in HF'. cbn [fst] in HF'.
      rewrite List.Forall_forall in HF'. exact (HF' _ Hl eq_refl).
    + destruct Hl as [Hl|[Hl|[]]]; discriminate Hl.
  - exists (Enricher.written st). split; [rewrite Hfs; apply lookup_insert_eq|].
    intros k row' Hk Hid. rewrite Hw.
    destruct (Forall2_lookup_l _ _ _ _ _ HF Hk) as (rec & Hrec' & v' & -> & Hv').
    rewrite Hid, Hrec in Hv'. cbn [Enricher.truthy_opt Enricher.or_empty] in Hv'.
    rewrite Hv' in Hrec' by (apply truthy_true; exact Hvne). exact Hrec'.
Qed.

Lemma recorded_image_is_reused_witness :
  let infile := py "anime.csv" in
  let headers := [py "MAL_ID"; py "image"; py "title"] in
  let records := [[py "5"; py "http://x/5.jpg"; py "First"]; [py "6"; py ""; py "Second"]] in
  let e := Enricher.File (headers :: records) in
  let row := Importer.DictReader_row headers [py "5"; py "http://x/5.jpg"; py "First"] in
  let post := [Importer.DictReader_row headers [py "6"; py ""; py "Second"]] in
  let r := Enricher.main Scenarios.remote_new Scenarios.fs_resumable infile in
  Scenarios.fs_resumable !! Enricher.make_path infile = Some e
  /\ Enricher.read_utf8_sig e = Some (headers :: records)
  /\ Enricher.read_utf8 e = Some (headers :: records)
  /\ Enricher.outcome r = None
  /\ Importer.DictReader_rows headers records = [] ++ row :: post
  /\ Enricher.row_get row (py "MAL_ID") = Some (py "5")
  /\ py "5" <> []
  /\ Enricher.row_get row (py "image") = Some (py "http://x/5.jpg")
  /\ py "http://x/5.jpg" <> []
  /\ Forall (fun r => Enricher.row_get r (py "MAL_ID") <> Some (py "5")) post
  /\ ~ In (Enricher.EvLookup (py "5")) (Enricher.trace r)
  /\ exists recs,
      Enricher.fs_after r !! Enricher.make_path infile = Some (Enricher.File recs)
      /\ forall (k : nat) (row' : gmap pystr (option pystr)),
          Importer.DictReader_rows headers records !! k = Some row' ->
          Enricher.row_mal_id row' = py "5" ->
          recs !! S k
          = Some (Enricher.row_with_image
                    (Enricher.insert_column_after headers (py "MAL_ID") (py "image"))
                    row' (py "http://x/5.jpg")).
Proof.
  cbv zeta.
  assert (Scenarios.fs_resumable !! Enricher.make_path (py "anime.csv")
          = Some (Enricher.File
                    ([py "MAL_ID"; py "image"; py "title"]
                       :: [[py "5"; py "http://x/5.jpg"; py "First"];
                           [py "6"; py ""; py "Second"]]))) as H1
      by (vm_compute; reflexivity).
  assert (Enricher.outcome (Enricher.main Scenarios.remote_new Scenarios.fs_resumable
                                          (py "anime.csv")) = None) as H2
      by (vm_compute; reflexivity).
  assert (Enricher.row_get
            (Importer.DictReader_row [py "MAL_ID"; py "image"; py "title"]
                                     [py "5"; py "http://x/5.jpg"; py "First"]) (py "MAL_ID")
          = Some (py "5")) as H4 by (vm_compute; reflexivity).
  assert (Enricher.row_get
            (Importer.DictReader_row [py "MAL_ID"; py "image"; py "title"]
                                     [py "5"; py "http://x/5.jpg"; py "First"]) (py "image")
          = Some (py "http://x/5.jpg")) as H6 by (vm_compute; reflexivity).
  assert (Forall (fun r => Enricher.row_get r (py "MAL_ID") <> Some (py "5"))
                 [Importer.DictReader_row [py "MAL_ID"; py "image"; py "title"]
                                          [py "6"; py ""; py "Second"]]) as H8.
  { constructor; [|constructor]. intros H. vm_compute in H. discriminate H. }
  split; [exact H1|]. split; [reflexivity|]. split; [reflexivity|].
  split; [exact H2|]. split; [reflexivity|].
  split; [exact H4|]. split; [discriminate|]. split; [exact H6|].
  split; [discriminate|]. split; [exact H8|].
  apply (recorded_image_is_reused Scenarios.remote_new Scenarios.fs_resumable (py "anime.csv")
           (Enricher.File
              ([py "MAL_ID"; py "image"; py "title"]
                 :: [[py "5"; py "http://x/5.jpg"; py "First"];
                     [py "6"; py ""; py "Second"]]))
           [py "MAL_ID"; py "image"; py "title"]
           [[py "5"; py "http://x/5.jpg"; py "First"]; [py "6"; py ""; py "Second"]]
           [py "MAL_ID"; py "image"; py "title"]
           [[py "5"; py "http://x/5.jpg"; py "First"]; [py "6"; py ""; py "Second"]]
           [] [Importer.DictReader_row [py "MAL_ID"; py "image"; py "title"]
                                       [py "6"; py ""; py "Second"]]
           (Importer.DictReader_row [py "MAL_ID"; py "image"; py "title"]
                                    [py "5"; py "http://x/5.jpg"; py "First"])
           (py "5") (py "http://x/5.jpg") H1 eq_refl eq_refl H2 eq_refl H4
           ltac:(discriminate) H6 ltac:(discriminate) H8).
Defined.

(** C9 as stated fails: the existing output records the image of id 5 in its
    first row, but a later row of the same id has none, so the re-run looks
    the id up again (twice) and writes the new address over the recorded
    one. *)
Lemma duplicate_id_is_looked_up_again :
  let r := Enricher.main Scenarios.remote_new Scenarios.fs_duplicate_id (py "anime.csv") in
  Scenarios.fs_duplicate_id !! Enricher.make_path (py "anime.csv")
  = Some (Enricher.File [ [py "MAL_ID"; py "image"; py "title"];
                          [py "5"; py "http://x/5.jpg"; py "First"];
                          [py "5"; py ""; py "Second"] ])
  /\ Enricher.outcome r = None
  /\ In (Enricher.EvLookup (py "5")) (Enricher.trace r)
  /\ Enricher.fs_after r !! Enricher.make_path (py "anime.csv")
     = Some (Enricher.File
               [ [py "MAL_ID"; py "image"; py "image"; py "title"];
                 [py "5"; py "http://x/new.jpg"; py "http://x/new.jpg"; py "First"];
                 [py "5"; py "http://x/new.jpg"; py "http://x/new.jpg"; py "Second"] ]).
Proof.
  cbv zeta.
  split; [vm_compute; reflexivity|].
  split; [vm_compute; reflexivity|].
  split; [vm_compute; auto 20|].
  vm_compute; reflexivity.
Qed.

(** * Further properties of the importer *)

(** ** The run as a whole *)

Lemma for_each_print_ok {A : Type} (l : list A) (f : A -> Importer.output)
      (st : Importer.state) :
  exists st', Importer.for_each l (fun x => Importer.print (f x)) st = (st', Importer.Ok tt)
              /\ Importer.cn st' = Importer.cn st
              /\ Importer.inserted st' = Importer.inserted st
              /\ exists extra, Importer.out st' = Importer.out st ++ extra
                               /\ ((forall x, f x <> Importer.OutComplete) ->
                                   Forall (fun o => o <> Importer.OutComplete) extra).
Proof.
  revert st. induction l as [|x t IH]; intros st.
  - exists st. repeat split. exists []. split; [symmetry; apply app_nil_r | constructor].
  - cbn [Importer.for_each]. unfold Importer.bind, Importer.print at 1.
    destruct (IH {| Importer.cn := Importer.cn st; Importer.inserted := Importer.inserted st;
                    Importer.out := Importer.out st ++ [f x] |})
      as (st' & H1 & H2 & H3 & extra & H4 & H5).
    exists st'. split; [exact H1|]. split; [exact H2|]. split; [exact H3|].
    exists (f x :: extra). cbn [Importer.out] in H4.
    split; [rewrite H4, <- app_assoc; reflexivity|].
    intros Hf. constructor; [apply Hf | exact (H5 Hf)].
Qed.

Lemma import_rows_never_raises (repr_value : json -> pystr) (field_map : gmap pystr pystr)
      (rows : list (gmap pystr (option pystr))) (i : nat) (st : Importer.state) :
  snd (Importer.import_rows repr_value field_map i rows st) = Importer.Ok tt.
Proof.
  revert i st. induction rows as [|row rest IH]; intros i st; [reflexivity|].
  cbn [Importer.import_rows]. unfold Importer.bind.
  pose proof (import_row_never_raises repr_value field_map i row st) as H.
  destruct (Importer.import_row repr_value field_map i row st) as [st' r].
  cbn [snd] in H. subst r. apply IH.
Qed.

Lemma bind_ok {A B : Type} (m : Importer.M A) (k : A -> Importer.M B)
      (st st' : Importer.state) (a : A) :
  m st = (st', Importer.Ok a) -> Importer.bind m k st = k a st'.
Proof. intros H. unfold Importer.bind. rewrite H. reflexivity. Qed.

Lemma import_tail (st : Importer.state) :
  Importer.bind Importer.conn_commit
    (fun _ => Importer.bind (Importer.query (fun d => Importer.Ok (Importer.count_anime d)))
       (fun n => Importer.bind (Importer.print Importer.OutComplete)
          (fun _ => Importer.print (Importer.OutRows n)))) st
  = ({| Importer.cn := Importer.commit (Importer.cn st);
        Importer.inserted := Importer.inserted st;
        Importer.out := (Importer.out st ++ [Importer.OutComplete])
                        ++ [Importer.OutRows (Importer.count_anime
                                                (Importer.working (Importer.cn st)))] |},
     Importer.Ok tt).
Proof. reflexivity. Qed.

(** ** What every store left by a run satisfies *)

Lemma insert_anime_inv (d d' : Importer.db) (mal_id : Z)
      (image title release_date synopsis : pystr) (score : option pyfloat)
      (episodes : option Z) (studio theme : pystr) (rid : Z) :
  Importer.insert_anime d mal_id image title release_date synopsis score episodes studio theme
  = Importer.Ok (d', rid) ->
  Importer.bind_parameters
    [Importer.VInt mal_id; Importer.VText image; Importer.VText title;
     Importer.VText release_date; Importer.VText synopsis;
     Importer.opt_val Importer.VReal score; Importer.opt_val Importer.VInt episodes;
     Importer.VText studio; Importer.VText theme] = None
  /\ rid = Importer.next_rowid (Importer.Anime_seq d) (List.map Importer.id (Importer.Anime d))
  /\ Importer.Anime d'
     = Importer.Anime d
       ++ [ {| Importer.id := rid; Importer.mal_id := mal_id; Importer.image := image;
               Importer.title := title; Importer.release_date := release_date;
               Importer.synopsis := synopsis;
               Importer.score := match score with
                                 | Some FNan => None
                                 | _ => score
                                 end;
               Importer.episodes := episodes; Importer.studio := studio;
               Importer.theme := theme |} ]
  /\ Importer.Anime_seq d' = rid
  /\ Importer.Genres d' = Importer.Genres d
  /\ Importer.Genres_seq d' = Importer.Genres_seq d
  /\ Importer.AnimeGenres d' = Importer.AnimeGenres d.
Proof.
  unfold Importer.insert_anime.
  destruct (Importer.bind_parameters _) eqn:Hb; [discriminate|].
  intros [= <- <-]. repeat split; reflexivity.
Qed.

Lemma insert_genre_inv (d d' : Importer.db) (name : pystr) :
  Importer.insert_genre d name = Importer.Ok d' ->
  existsb Importer.is_surrogate name = false
  /\ Importer.Anime d' = Importer.Anime d
  /\ Importer.Anime_seq d' = Importer.Anime_seq d
  /\ Importer.AnimeGenres d' = Importer.AnimeGenres d
  /\ (Importer.Genres d' = Importer.Genres d
      \/ exists rid, Importer.Genres d' = Importer.Genres d ++ [(rid, name)]).
Proof.
  unfold Importer.insert_genre, Importer.bind_parameters, Importer.bind_value.
  destruct (existsb Importer.is_surrogate name) eqn:Hs; [discriminate|].
  intros [= <-]. cbn [Importer.Anime Importer.Anime_seq Importer.AnimeGenres Importer.Genres].
  repeat split.
  destruct (existsb _ (Importer.Genres d)); [left; reflexivity | right; eexists; reflexivity].
Qed.

Lemma insert_link_inv (d d' : Importer.db) (a g : Z) :
  Importer.insert_link d a g = Importer.Ok d' ->
  Importer.Anime d' = Importer.Anime d
  /\ Importer.Anime_seq d' = Importer.Anime_seq d
  /\ Importer.Genres d' = Importer.Genres d
  /\ Importer.Genres_seq d' = Importer.Genres_seq d
  /\ (Importer.AnimeGenres d' = Importer.AnimeGenres d /\ In (a, g) (Importer.AnimeGenres d)
      \/ Importer.AnimeGenres d' = Importer.AnimeGenres d ++ [(a, g)]
         /\ In a (List.map Importer.id (Importer.Anime d))
         /\ In g (List.map fst (Importer.Genres d))).
Proof.
  unfold Importer.insert_link.
  destruct (Importer.bind_parameters _); [discriminate|].
  destruct (existsb (Importer.pair_eqb (a, g)) (Importer.AnimeGenres d)) eqn:Hex.
  - intros [= <-]. repeat split. left. split; [reflexivity|].
    apply List.existsb_exists in Hex as [x [Hx Heq]]. apply pair_eqb_eq in Heq. subst x. exact Hx.
  - destruct (existsb (Z.eqb a) _ && existsb (Z.eqb g) _) eqn:Hfk; [|discriminate].
    intros [= <-]. repeat split. right. split; [reflexivity|].
    apply andb_true_iff in Hfk as [Ha Hg].
    apply List.existsb_exists in Ha as [x [Hx Hax]]. apply Z.eqb_eq in Hax. subst x.
    apply List.existsb_exists in Hg as [y [Hy Hgy]]. apply Z.eqb_eq in Hgy. subst y.
    split; assumption.
Qed.



(** Referential integrity: in every store a run leaves, each link references
    an [Anime] row and a [Genres] row that are in the store. *)
Theorem links_reference_existing_rows
        (repr_value : json -> pystr) (csv_path db_path : pystr)
        (csv : Importer.csv_source) (store0 : Importer.db) :
  let d := Importer.store (Importer.import_csv_to_db repr_value csv_path db_path csv store0) in
  Forall (fun l => In (fst l) (List.map Importer.id (Importer.Anime d))
                   /\ In (snd l) (List.map fst (Importer.Genres d)))
         (Importer.AnimeGenres d).
Proof.
  cbv zeta.
  apply (import_establishes Importer.refs_ok).
  - intros d d' ? ? ? ? ? ? ? ? ? rid Hd H.
    apply insert_anime_inv in H as (_ & _ & Ha & _ & Hg & _ & Hl).
    unfold Importer.refs_ok in *. rewrite Ha, Hg, Hl.
    eapply List.Forall_impl; [|exact Hd]. intros l [H1 H2]. split; [|exact H2].
    rewrite List.map_app. apply List.in_or_app. left. exact H1.
  - intros d d' name Hd H.
    apply insert_genre_inv in H as (_ & Ha & _ & Hl & Hg).
    unfold Importer.refs_ok in *. rewrite Ha, Hl.
    eapply List.Forall_impl; [|exact Hd]. intros l [H1 H2]. split; [exact H1|].
    destruct Hg as [-> | [rid ->]]; [exact H2|].
    rewrite List.map_app. apply List.in_or_app. left. exact H2.
  - intros d d' a g Hd H.
    apply insert_link_inv in H as (Ha & _ & Hg & _ & Hl).
    unfold Importer.refs_ok in *. rewrite Ha, Hg.
    destruct Hl as [[-> _] | [-> [H1 H2]]]; [exact Hd|].
    apply Forall_app. split; [exact Hd|]. constructor; [|constructor]. split; assumption.
  - constructor.
Qed.

Lemma bind_int_in_range (z : Z) :
  Importer.bind_value (Importer.VInt z) = None -> Importer.in_int64 z.
Proof.
  unfold Importer.bind_value, Importer.in_int64.
  destruct (_ && _)%Z eqn:E; [|discriminate]. intros _.
  apply andb_true_iff in E as [H1 H2].
  apply Z.leb_le in H1. apply Z.ltb_lt in H2. split; assumption.
Qed.

(** What is stored was bindable: in every store a run leaves, the external
    id of each record is a signed 64-bit integer (a larger id makes the row
    fail and be skipped), and so is its episode count when it has one. *)
Theorem stored_integers_fit_int64
        (repr_value : json -> pystr) (csv_path db_path : pystr)
        (csv : Importer.csv_source) (store0 : Importer.db) :
  let d := Importer.store (Importer.import_csv_to_db repr_value csv_path db_path csv store0) in
  Forall (fun a => Importer.in_int64 (Importer.mal_id a)
                   /\ match Importer.episodes a with
                      | Some n => Importer.in_int64 n
                      | None => True
                      end) (Importer.Anime d).
Proof.
  cbv zeta.
  apply (import_establishes Importer.anime_bindable).
  - intros d d' mid ? ? ? ? sc ep ? ? rid Hd H.
    apply insert_anime_inv in H as (Hb & _ & Ha & _).
    unfold Importer.anime_bindable in *. rewrite Ha.
    apply Forall_app. split; [exact Hd|]. constructor; [|constructor].
    cbn [Importer.mal_id Importer.episodes].
    cbn [Importer.bind_parameters] in Hb.
    destruct (Importer.bind_value (Importer.VInt mid)) eqn:E1; [discriminate|].
    split; [apply bind_int_in_range; exact E1|].
    unfold Importer.bind_value at 1 2 3 4 in Hb.
    destruct (existsb Importer.is_surrogate _); [discriminate|].
    destruct (existsb Importer.is_surrogate _); [discriminate|].
    destruct (existsb Importer.is_surrogate _); [discriminate|].
    destruct (existsb Importer.is_surrogate _); [discriminate|].
    destruct sc; cbn [Importer.opt_val Importer.bind_value] in Hb;
      (destruct ep as [n|]; [|exact I]);
      cbn [Importer.opt_val] in Hb;
      (destruct (Importer.bind_value (Importer.VInt n)) eqn:E2; [discriminate|]);
      apply bind_int_in_range; exact E2.
  - intros d d' name Hd H.
    apply insert_genre_inv in H as (_ & Ha & _).
    unfold Importer.anime_bindable in *. rewrite Ha. exact Hd.
  - intros d d' a g Hd H.
    apply insert_link_inv in H as (Ha & _).
    unfold Importer.anime_bindable in *. rewrite Ha. exact Hd.
  - constructor.
Qed.

(** ** Genre names *)

Lemma parse_genres_clean (repr_value : json -> pystr) (raw : pystr) :
  Forall (fun x => x <> [] /\ str_strip x = x) (Importer.parse_genres repr_value raw).
Proof.
  unfold Importer.parse_genres.
  destruct (negb (truthy raw)); [constructor|].
  destruct (_ || _); [constructor|].
  destruct (json_loads _) as [[ | | | | | val | ]|];
    try apply stripped_filter_clean.
  rewrite <- (List.map_map (Importer.py_str repr_value) str_strip).
  apply stripped_filter_clean.
Qed.

Section PreservationOn.

(** A property of the store kept by the statements of the import when the
    genre names inserted are those the parser can return. *)
Variable I : Importer.db -> Prop.
Variable Q : pystr -> Prop.

Hypothesis I_insert_anime :
  forall d d' mal_id image title release_date synopsis score episodes studio theme rid,
    I d ->
    Importer.insert_anime d mal_id image title release_date synopsis score episodes studio theme
    = Importer.Ok (d', rid) -> I d'.
Hypothesis I_insert_genre :
  forall d d' name, Q name -> I d -> Importer.insert_genre d name = Importer.Ok d' -> I d'.
Hypothesis I_insert_link :
  forall d d' a g, I d -> Importer.insert_link d a g = Importer.Ok d' -> I d'.
Hypothesis I_empty : I Importer.empty_db.

Variable repr_value : json -> pystr.
Hypothesis parse_Q : forall raw, Forall Q (Importer.parse_genres repr_value raw).

Lemma preserves_for_each_on {A : Type} (l : list A) (body : A -> Importer.M unit) :
  Forall (fun x => Importer.preserves I (body x)) l ->
  Importer.preserves I (Importer.for_each l body).
Proof.
  induction l as [|x t IH]; intros H; cbn [Importer.for_each].
  - apply preserves_ret.
  - apply Forall_cons in H as [Hx Ht].
    apply preserves_bind; [exact Hx | intros _; apply IH; exact Ht].
Qed.

Lemma preserves_link_genre_on (anime_id : Z) (genre : pystr) :
  Q genre -> Importer.preserves I (Importer.link_genre anime_id genre).
Proof.
  intros HQ. unfold Importer.link_genre.
  apply preserves_bind.
  - apply preserves_execute. intros d d' [] Hd.
    unfold Importer.with_unit. destruct (Importer.insert_genre d genre) eqn:E; [|discriminate].
    intros [= <-]. exact (I_insert_genre _ _ _ HQ Hd E).
  - intros _. apply preserves_bind; [apply preserves_query|].
    intros [gid|]; [|apply preserves_ret].
    apply preserves_execute. intros d d' [] Hd.
    unfold Importer.with_unit. destruct (Importer.insert_link d anime_id gid) eqn:E; [|discriminate].
    intros [= <-]. exact (I_insert_link _ _ _ _ Hd E).
Qed.

Lemma preserves_import_rows_on (field_map : gmap pystr pystr)
      (rows : list (gmap pystr (option pystr))) (i : nat) :
  Importer.preserves I (Importer.import_rows repr_value field_map i rows).
Proof.
  revert i. induction rows as [|row rest IH]; intros i; cbn [Importer.import_rows].
  - apply preserves_ret.
  - apply preserves_bind; [|intros _; apply IH].
    unfold Importer.import_row.
    destruct (negb (truthy _)); [apply preserves_ret|].
    destruct (int_float _) as [mal_id|]; [|apply preserves_ret].
    apply preserves_try_except; [|intros e; apply preserves_print].
    unfold Importer.import_row_body.
    apply preserves_bind; [apply preserves_of_result|]. intros episodes.
    apply preserves_bind.
    + apply preserves_execute. intros d d' rid Hd E. exact (I_insert_anime _ _ _ _ _ _ _ _ _ _ _ _ Hd E).
    + intros anime_id. apply preserves_bind.
      * apply preserves_for_each_on.
        eapply List.Forall_impl; [|apply parse_Q].
        intros genre HQ. apply preserves_link_genre_on. exact HQ.
      * intros _. apply preserves_bind; [apply preserves_incr_inserted|].
        intros n. destruct (n mod 500 =? 0)%Z; [|apply preserves_ret].
        apply preserves_bind; [apply preserves_conn_commit | intros _; apply preserves_print].
Qed.

Lemma import_establishes_on (csv_path db_path : pystr) (csv : Importer.csv_source)
      (store0 : Importer.db) :
  I (Importer.store (Importer.import_csv_to_db repr_value csv_path db_path csv store0)).
Proof.
  unfold Importer.import_csv_to_db.
  match goal with
  | |- context [let (st, r) := ?script ?st0 in _] =>
    assert (Importer.preserves I script /\ Importer.state_ok I st0) as [Hs H0];
      [|specialize (Hs st0 H0); destruct (script st0) as [st r]; simpl in *; apply Hs]
  end.
  split; [|split; exact I_empty].
  destruct csv as [e|[|fieldnames records] fault].
  - apply preserves_of_result.
  - destruct fault; apply preserves_of_result.
  - apply preserves_bind; [apply preserves_print|]. intros _.
    apply preserves_bind; [apply preserves_for_each; intros k; apply preserves_print|]. intros _.
    apply preserves_bind; [apply preserves_import_rows_on|]. intros _.
    apply preserves_bind; [destruct fault; [apply preserves_of_result | apply preserves_ret]|].
    intros _.
    apply preserves_bind; [apply preserves_conn_commit|]. intros _.
    apply preserves_bind; [apply preserves_query|]. intros n.
    apply preserves_bind; [apply preserves_print | intros _; apply preserves_print].
Qed.

End PreservationOn.

(** No empty or padded genre: in every store a run leaves, each genre name is
    non-empty, equal to its stripped form, and free of surrogate code
    points. *)
Theorem genre_names_are_clean
        (repr_value : json -> pystr) (csv_path db_path : pystr)
        (csv : Importer.csv_source) (store0 : Importer.db) :
  let d := Importer.store (Importer.import_csv_to_db repr_value csv_path db_path csv store0) in
  Forall (fun r => snd r <> [] /\ str_strip (snd r) = snd r
                   /\ existsb Importer.is_surrogate (snd r) = false) (Importer.Genres d).
Proof.
  cbv zeta.
  apply (import_establishes_on Importer.genre_names_clean
           (fun x => x <> [] /\ str_strip x = x)).
  - intros d d' ? ? ? ? ? ? ? ? ? rid Hd H.
    apply insert_anime_inv in H as (_ & _ & _ & _ & Hg & _).
    unfold Importer.genre_names_clean in *. rewrite Hg. exact Hd.
  - intros d d' name [Hne Hstrip] Hd H.
    apply insert_genre_inv in H as (Hs & _ & _ & _ & Hg).
    unfold Importer.genre_names_clean in *.
    destruct Hg as [-> | [rid ->]]; [exact Hd|].
    apply Forall_app. split; [exact Hd|]. constructor; [|constructor].
    cbn [snd]. repeat split; assumption.
  - intros d d' a g Hd H.
    apply insert_link_inv in H as (_ & _ & Hg & _).
    unfold Importer.genre_names_clean in *. rewrite Hg. exact Hd.
  - constructor.
  - apply parse_genres_clean.
Qed.

(** ** Insert-if-absent and lookup *)

Lemma find_name_some (l : list (Z * pystr)) (name : pystr) :
  existsb (fun r => str_eqb (snd r) name) l = true ->
  exists gid, List.find (fun r => str_eqb (snd r) name) l = Some (gid, name)
              /\ In (gid, name) l.
Proof.
  induction l as [|[i n] t IH]; cbn [existsb List.find snd]; [discriminate|].
  destruct (str_eqb n name) eqn:E.
  - intros _. apply str_eqb_eq in E. subst n. exists i. split; [reflexivity | left; reflexivity].
  - cbn [orb]. intros H. destruct (IH H) as [gid [Hf Hin]].
    exists gid. split; [exact Hf | right; exact Hin].
Qed.

Lemma find_name_app_new (l : list (Z * pystr)) (name : pystr) (rid : Z) :
  existsb (fun r => str_eqb (snd r) name) l = false ->
  List.find (fun r => str_eqb (snd r) name) (l ++ [(rid, name)]) = Some (rid, name).
Proof.
  induction l as [|[i n] t IH]; cbn [existsb List.find snd app].
  - intros _. rewrite str_eqb_refl. reflexivity.
  - destruct (str_eqb n name); [discriminate|]. cbn [orb]. exact IH.
Qed.

(** Insert-if-absent then lookup: after the genre insert has run, the lookup
    by name finds a row of that name; and if the name was in the table
    before, it finds the same id as before (the ignored insert has not
    replaced the row). *)
Theorem insert_genre_then_select (d d' : Importer.db) (name : pystr) :
  Importer.insert_genre d name = Importer.Ok d' ->
  exists gid,
    Importer.select_genre d' name = Importer.Ok (Some gid)
    /\ In (gid, name) (Importer.Genres d')
    /\ forall gid0, Importer.select_genre d name = Importer.Ok (Some gid0) -> gid0 = gid.
Proof.
  unfold Importer.insert_genre, Importer.select_genre.
  destruct (Importer.bind_parameters _); [discriminate|].
  intros [= <-]. cbn [Importer.Genres].
  destruct (existsb (fun r => str_eqb (snd r) name) (Importer.Genres d)) eqn:E.
  - destruct (find_name_some _ _ E) as [gid [Hf Hin]].
    exists gid. rewrite Hf. repeat split; [exact Hin|]. intros gid0 [= <-]. reflexivity.
  - rewrite (find_name_app_new _ _ _ E). eexists. repeat split.
    + apply List.in_or_app. right. left. reflexivity.
    + intros gid0. destruct (List.find _ (Importer.Genres d)) as [r|] eqn:Hf; [|discriminate].
      apply List.find_some in Hf as [Hin Hr].
      assert (existsb (fun r => str_eqb (snd r) name) (Importer.Genres d) = true)
        by (apply List.existsb_exists; exists r; split; assumption).
      congruence.
Qed.

Lemma insert_genre_then_select_witness :
  Importer.insert_genre Scenarios.store_unlinked (py "Action")
  = Importer.Ok (Importer.Build_db (Importer.Anime Scenarios.store_unlinked) 1
                                   [(1%Z, py "Action")] 2 [])
  /\ exists gid,
      Importer.select_genre (Importer.Build_db (Importer.Anime Scenarios.store_unlinked) 1
                                               [(1%Z, py "Action")] 2 []) (py "Action")
      = Importer.Ok (Some gid)
      /\ In (gid, py "Action")
            (Importer.Genres (Importer.Build_db (Importer.Anime Scenarios.store_unlinked) 1
                                                [(1%Z, py "Action")] 2 []))
      /\ forall gid0, Importer.select_genre Scenarios.store_unlinked (py "Action")
                      = Importer.Ok (Some gid0) -> gid0 = gid.
Proof.
  split; [reflexivity|].
  apply (insert_genre_then_select Scenarios.store_unlinked
           (Importer.Build_db (Importer.Anime Scenarios.store_unlinked) 1
                              [(1%Z, py "Action")] 2 []) (py "Action")).
  reflexivity.
Defined.

(** ** A record and its genres *)

Lemma grows_refl (d : Importer.db) : Importer.grows d d.
Proof. repeat split; exists []; symmetry; apply app_nil_r. Qed.

Lemma grows_trans (d1 d2 d3 : Importer.db) :
  Importer.grows d1 d2 -> Importer.grows d2 d3 -> Importer.grows d1 d3.
Proof.
  intros ([a1 Ha1] & [g1 Hg1] & [l1 Hl1]) ([a2 Ha2] & [g2 Hg2] & [l2 Hl2]).
  repeat split.
  - exists (a1 ++ a2). rewrite Ha2, Ha1, app_assoc. reflexivity.
  - exists (g1 ++ g2). rewrite Hg2, Hg1, app_assoc. reflexivity.
  - exists (l1 ++ l2). rewrite Hl2, Hl1, app_assoc. reflexivity.
Qed.

Lemma insert_genre_grows (d d' : Importer.db) (name : pystr) :
  Importer.insert_genre d name = Importer.Ok d' -> Importer.grows d d'.
Proof.
  intros H. apply insert_genre_inv in H as (_ & Ha & _ & Hl & Hg).
  repeat split.
  - exists []. rewrite Ha, app_nil_r. reflexivity.
  - destruct Hg as [-> | [rid ->]]; [exists []; symmetry; apply app_nil_r | eexists; reflexivity].
  - exists []. rewrite Hl, app_nil_r. reflexivity.
Qed.

Lemma insert_link_grows (d d' : Importer.db) (a g : Z) :
  Importer.insert_link d a g = Importer.Ok d' ->
  Importer.grows d d' /\ In (a, g) (Importer.AnimeGenres d').
Proof.
  intros H. apply insert_link_inv in H as (Ha & _ & Hg & _ & Hl).
  split; [repeat split|].
  - exists []. rewrite Ha, app_nil_r. reflexivity.
  - exists []. rewrite Hg, app_nil_r. reflexivity.
  - destruct Hl as [[-> _] | [-> _]]; [exists []; symmetry; apply app_nil_r | eexists; reflexivity].
  - destruct Hl as [[-> Hin] | [-> _]]; [exact Hin|].
    apply List.in_or_app. right. left. reflexivity.
Qed.

Lemma insert_genre_found (d d' : Importer.db) (name : pystr) :
  Importer.insert_genre d name = Importer.Ok d' ->
  exists gid, Importer.select_genre d' name = Importer.Ok (Some gid)
              /\ In (gid, name) (Importer.Genres d').
Proof.
  unfold Importer.insert_genre, Importer.select_genre.
  destruct (Importer.bind_parameters _); [discriminate|].
  intros [= <-]. cbn [Importer.Genres].
  destruct (existsb (fun r => str_eqb (snd r) name) (Importer.Genres d)) eqn:E.
  - destruct (find_name_some _ _ E) as [gid [Hf Hin]].
    exists gid. rewrite Hf. split; [reflexivity | exact Hin].
  - rewrite (find_name_app_new _ _ _ E). eexists. split; [reflexivity|].
    apply List.in_or_app. right. left. reflexivity.
Qed.

Lemma linked_in_grows (d d' : Importer.db) (anime_id : Z) (name : pystr) :
  Importer.grows d d' -> Importer.linked_in d anime_id name -> Importer.linked_in d' anime_id name.
Proof.
  intros (_ & [g Hg] & [l Hl]) [gid [H1 H2]]. exists gid.
  rewrite Hg, Hl. split; apply List.in_or_app; left; assumption.
Qed.

Lemma link_genre_post (anime_id : Z) (name : pystr) (st st' : Importer.state)
      (r : Importer.result unit) :
  Importer.link_genre anime_id name st = (st', r) ->
  Importer.grows (Importer.working (Importer.cn st)) (Importer.working (Importer.cn st'))
  /\ (r = Importer.Ok tt -> Importer.linked_in (Importer.working (Importer.cn st')) anime_id name).
Proof.
  unfold Importer.link_genre, Importer.bind, Importer.execute, Importer.query,
    Importer.execute, Importer.with_unit.
  destruct (Importer.insert_genre (Importer.working (Importer.cn st)) name) as [d1|e] eqn:E1.
  2: { intros [= <- <-]. split; [apply grows_refl | discriminate]. }
  cbn [Importer.cn Importer.working].
  destruct (insert_genre_found _ _ _ E1) as [gid [Hsel Hin]].
  rewrite Hsel.
  cbn [Importer.cn Importer.working Importer.persisted Importer.inserted Importer.out].
  destruct (Importer.insert_link d1 anime_id gid) as [d2|e] eqn:E2; cbv beta iota.
  - intros [= <- <-]. cbn [Importer.cn Importer.working].
    destruct (insert_link_grows _ _ _ _ E2) as [Hg2 Hl].
    split; [exact (grows_trans _ _ _ (insert_genre_grows _ _ _ E1) Hg2)|].
    intros _. exists gid. split; [|exact Hl].
    apply insert_link_inv in E2 as (_ & _ & -> & _). exact Hin.
  - intros [= <- <-]. cbn [Importer.cn Importer.working].
    split; [exact (insert_genre_grows _ _ _ E1) | discriminate].
Qed.

Lemma for_each_link_post (anime_id : Z) (names : list pystr) (st st' : Importer.state)
      (r : Importer.result unit) :
  Importer.for_each names (Importer.link_genre anime_id) st = (st', r) ->
  Importer.grows (Importer.working (Importer.cn st)) (Importer.working (Importer.cn st'))
  /\ (r = Importer.Ok tt ->
      Forall (Importer.linked_in (Importer.working (Importer.cn st')) anime_id) names).
Proof.
  revert st. induction names as [|name rest IH]; intros st; cbn [Importer.for_each].
  - intros [= <- <-]. split; [apply grows_refl | intros _; constructor].
  - unfold Importer.bind.
    destruct (Importer.link_genre anime_id name st) as [st1 [[]|e]] eqn:E1;
      destruct (link_genre_post _ _ _ _ _ E1) as [Hg1 Hl1].
    + intros H. destruct (IH _ H) as [Hg Hl].
      split; [exact (grows_trans _ _ _ Hg1 Hg)|].
      intros Hr. constructor; [|exact (Hl Hr)].
      apply (linked_in_grows _ _ _ _ Hg). apply Hl1. reflexivity.
    + intros [= <- <-]. split; [exact Hg1 | discriminate].
Qed.

(** A record imported in full is linked to all its genres: when the body of
    a row runs to its end, the store the transaction sees holds an [Anime]
    row with the row's external id, and for every name the genre parser gave
    for the row, a [Genres] row of that name and the link between the two. *)
Theorem imported_record_is_linked
        (repr_value : json -> pystr) (field_map : gmap pystr pystr)
        (row : gmap pystr (option pystr)) (mal_id : Z) (st st' : Importer.state) :
  Importer.import_row_body repr_value field_map row mal_id st = (st', Importer.Ok tt) ->
  exists a,
    In a (Importer.Anime (Importer.working (Importer.cn st')))
    /\ Importer.mal_id a = mal_id
    /\ Forall (fun name =>
                 exists gid,
                   In (gid, name) (Importer.Genres (Importer.working (Importer.cn st')))
                   /\ In (Importer.id a, gid)
                         (Importer.AnimeGenres (Importer.working (Importer.cn st'))))
              (Importer.parse_genres repr_value
                 (Importer.g field_map row [py "genre"; py "genres"])).
Proof.
  unfold Importer.import_row_body. unfold Importer.bind at 1. unfold Importer.of_result at 1.
  destruct (Importer.parse_episodes _) as [episodes|e0]; [|discriminate].
  unfold Importer.bind at 1. unfold Importer.execute at 1.
  destruct (Importer.insert_anime _ _ _ _ _ _ _ _ _ _) as [[d1 rid]|e] eqn:E1; [|discriminate].
  apply insert_anime_inv in E1 as (_ & _ & Ha & _).
  unfold Importer.bind at 1.
  match goal with
  | |- context [Importer.for_each ?l ?b ?s] =>
    destruct (Importer.for_each l b s) as [st2 [[]|e]] eqn:E2; [|discriminate]
  end.
  apply for_each_link_post in E2 as [Hg Hl]. cbn [Importer.cn Importer.working] in Hg.
  specialize (Hl eq_refl).
  intros H.
  assert (Importer.working (Importer.cn st') = Importer.working (Importer.cn st2)) as Hw.
  { unfold Importer.bind, Importer.incr_inserted in H.
    destruct (_ =? _)%Z; [unfold Importer.conn_commit, Importer.print in H|unfold Importer.ret in H];
      injection H as <-; reflexivity. }
  rewrite Hw.
  match type of Ha with _ = _ ++ [?x] => exists x end.
  split; [|split; [reflexivity | exact Hl]].
  destruct Hg as ([a Hga] & _). rewrite Hga, Ha.
  apply List.in_or_app. left. apply List.in_or_app. right. left. reflexivity.
Qed.

Lemma imported_record_is_linked_witness :
  Importer.import_row_body Scenarios.repr_unused
    (Importer.field_map_of Scenarios.header_id_genres) Scenarios.row_two_genres 1
    Scenarios.state_fresh
  = (Scenarios.state_after_row, Importer.Ok tt)
  /\ exists a,
      In a (Importer.Anime (Importer.working (Importer.cn Scenarios.state_after_row)))
      /\ Importer.mal_id a = 1%Z
      /\ Forall (fun name =>
                   exists gid,
                     In (gid, name)
                        (Importer.Genres (Importer.working (Importer.cn Scenarios.state_after_row)))
                     /\ In (Importer.id a, gid)
                           (Importer.AnimeGenres
                              (Importer.working (Importer.cn Scenarios.state_after_row))))
                (Importer.parse_genres Scenarios.repr_unused
                   (Importer.g (Importer.field_map_of Scenarios.header_id_genres)
                               Scenarios.row_two_genres [py "genre"; py "genres"])).
Proof.
  assert (Importer.import_row_body Scenarios.repr_unused
            (Importer.field_map_of Scenarios.header_id_genres) Scenarios.row_two_genres 1
            Scenarios.state_fresh
          = (Scenarios.state_after_row, Importer.Ok tt)) as H by (vm_compute; reflexivity).
  split; [exact H|].
  exact (imported_record_is_linked Scenarios.repr_unused
           (Importer.field_map_of Scenarios.header_id_genres) Scenarios.row_two_genres 1
           Scenarios.state_fresh Scenarios.state_after_row H).
Defined.

(** * Further properties of the parsing helpers *)

Lemma search_plus_none (cls : N -> bool) (s : pystr) :
  search_plus cls s = None <-> existsb cls s = false.
Proof.
  induction s as [|c t IH]; [split; reflexivity|].
  cbn [search_plus existsb]. unfold match_plus. cbn [span].
  destruct (cls c) eqn:E; cbn [orb].
  - destruct (span cls t). split; discriminate.
  - exact IH.
Qed.

Lemma int_of_digits_nonneg (s : pystr) : (0 <= int_of_digits s)%Z.
Proof.
  unfold int_of_digits.
  assert (forall acc, (0 <= acc)%Z ->
            (0 <= fold_left (fun acc c => match Py_UNICODE_TODECIMAL c with
                                          | Some d => 10 * acc + Z.of_N d
                                          | None => acc
                                          end) s acc)%Z) as H.
  { induction s as [|c t IH]; intros acc Hacc; [exact Hacc|].
    cbn [fold_left]. apply IH. destruct (Py_UNICODE_TODECIMAL c); lia. }
  apply H. lia.
Qed.

(** The episode count is absent exactly when the text is not a number that
    [int(float(...))] accepts and holds no decimal digit at all. *)
Theorem parse_episodes_absent_iff (raw : pystr) :
  Importer.parse_episodes raw = Importer.Ok None
  <-> int_float raw = None /\ existsb Py_UNICODE_ISDECIMAL raw = false.
Proof.
  unfold Importer.parse_episodes.
  destruct raw as [|c t]; [split; [intros _; split; reflexivity | reflexivity]|].
  cbn [truthy negb].
  destruct (int_float (c :: t)) as [n|].
  - split; [discriminate | intros [H _]; discriminate H].
  - destruct (search_plus cls_digit (c :: t)) as [m|] eqn:E.
    + split; [destruct (py_int m); discriminate|]. intros [_ H].
      apply (search_plus_none cls_digit) in H. congruence.
    + apply (search_plus_none cls_digit) in E. split; [intros _; split; [reflexivity | exact E] | reflexivity].
Qed.

(** When the text is not a number that [int(float(...))] accepts, the count
    comes from the first run of digits and is never negative: a sign before
    the digits is dropped. *)
Theorem parse_episodes_fallback_nonneg (raw : pystr) (n : Z) :
  int_float raw = None -> Importer.parse_episodes raw = Importer.Ok (Some n) -> (0 <= n)%Z.
Proof.
  intros Hf. unfold Importer.parse_episodes, py_int.
  destruct (negb (truthy raw)); [discriminate|]. rewrite Hf.
  destruct (search_plus cls_digit raw); [|discriminate].
  destruct (_ <? _)%Z; [discriminate|].
  intros [= <-]. apply int_of_digits_nonneg.
Qed.

Lemma parse_episodes_fallback_nonneg_witness :
  int_float (py "-5 eps") = None
  /\ Importer.parse_episodes (py "-5 eps") = Importer.Ok (Some 5%Z)
  /\ (0 <= 5)%Z.
Proof.
  split; [vm_compute; reflexivity|]. split; [vm_compute; reflexivity|].
  apply (parse_episodes_fallback_nonneg (py "-5 eps") 5); vm_compute; reflexivity.
Defined.

Section StripMore.

Variable p : N -> bool.

Lemma lstrip_by_app_ws (a l : pystr) :
  forallb p a = true -> lstrip_by p (a ++ l) = lstrip_by p l.
Proof.
  induction a as [|c t IH]; intros H; [reflexivity|].
  cbn [forallb] in H. apply andb_true_iff in H as [Hc Ht].
  cbn [app lstrip_by]. rewrite Hc. apply IH. exact Ht.
Qed.

Lemma forallb_rev (l : pystr) : forallb p (rev l) = forallb p l.
Proof.
  induction l as [|c t IH]; [reflexivity|].
  cbn [rev forallb]. rewrite List.forallb_app, IH. cbn [forallb].
  rewrite andb_true_r. apply andb_comm.
Qed.

Lemma rstrip_by_app_ws (l b : pystr) :
  forallb p b = true -> rstrip_by p (l ++ b) = rstrip_by p l.
Proof.
  intros H. unfold rstrip_by. rewrite rev_app_distr, lstrip_by_app_ws; [reflexivity|].
  rewrite forallb_rev. exact H.
Qed.

Lemma lstrip_by_split (s : pystr) :
  exists a, forallb p a = true /\ s = a ++ lstrip_by p s.
Proof.
  induction s as [|c t [a [Ha Hs]]]; [exists []; split; reflexivity|].
  cbn [lstrip_by]. destruct (p c) eqn:E.
  - exists (c :: a). cbn [forallb app]. rewrite E, Ha. split; [reflexivity | f_equal; exact Hs].
  - exists []. split; reflexivity.
Qed.

Lemma rstrip_by_split (s : pystr) :
  exists b, forallb p b = true /\ s = rstrip_by p s ++ b.
Proof.
  destruct (lstrip_by_split (rev s)) as [a [Ha Hs]].
  exists (rev a). split; [rewrite forallb_rev; exact Ha|].
  unfold rstrip_by. rewrite <- rev_app_distr, <- Hs, rev_involutive. reflexivity.
Qed.

Lemma strip_by_app_ws_r (x b : pystr) :
  forallb p b = true ->
  rstrip_by p (lstrip_by p (x ++ b)) = rstrip_by p (lstrip_by p x).
Proof.
  intros H. induction x as [|c t IH].
  - cbn [app]. destruct (lstrip_by_split b) as [a [Ha Hb]].
    assert (lstrip_by p b = []) as ->; [|reflexivity].
    clear a Ha Hb. induction b as [|c t IH]; [reflexivity|].
    cbn [forallb] in H. apply andb_true_iff in H as [Hc Ht].
    cbn [lstrip_by]. rewrite Hc. apply IH. exact Ht.
  - cbn [app lstrip_by]. destruct (p c); [exact IH|].
    apply (rstrip_by_app_ws (c :: t) b H).
Qed.

End StripMore.

Lemma str_strip_split (s : pystr) :
  exists a b, forallb Py_UNICODE_ISSPACE a = true /\ forallb Py_UNICODE_ISSPACE b = true
              /\ s = a ++ str_strip s ++ b.
Proof.
  destruct (lstrip_by_split Py_UNICODE_ISSPACE s) as [a [Ha Hs]].
  destruct (rstrip_by_split Py_UNICODE_ISSPACE (lstrip_by Py_UNICODE_ISSPACE s)) as [b [Hb Hl]].
  exists a, b. repeat split; [exact Ha | exact Hb|].
  unfold str_strip. rewrite <- Hl. exact Hs.
Qed.

Lemma str_strip_app_ws (a x b : pystr) :
  forallb Py_UNICODE_ISSPACE a = true -> forallb Py_UNICODE_ISSPACE b = true ->
  str_strip (a ++ x ++ b) = str_strip x.
Proof.
  intros Ha Hb. unfold str_strip.
  rewrite lstrip_by_app_ws by exact Ha. apply strip_by_app_ws_r. exact Hb.
Qed.

Lemma replace_newline_ws (a : pystr) :
  forallb Py_UNICODE_ISSPACE a = true ->
  forallb Py_UNICODE_ISSPACE (str_replace 10 32 a) = true.
Proof.
  induction a as [|c t IH]; intros H; [reflexivity|].
  cbn [forallb] in H. apply andb_true_iff in H as [Hc Ht].
  unfold str_replace. cbn [List.map forallb]. fold (str_replace 10 32 t).
  rewrite (IH Ht), andb_true_r.
  destruct (c =? 10); [reflexivity | exact Hc].
Qed.

Lemma strip_replace_strip (raw : pystr) :
  str_strip (str_replace 10 32 (str_strip raw)) = str_strip (str_replace 10 32 raw).
Proof.
  destruct (str_strip_split raw) as [a [b [Ha [Hb Hs]]]].
  rewrite Hs at 2. unfold str_replace at 2. rewrite !List.map_app.
  fold (str_replace 10 32 a) (str_replace 10 32 (str_strip raw)) (str_replace 10 32 b).
  symmetry. apply str_strip_app_ws; apply replace_newline_ws; assumption.
Qed.

Lemma replace_newline_idem (s : pystr) :
  str_replace 10 32 (str_replace 10 32 s) = str_replace 10 32 s.
Proof.
  unfold str_replace. rewrite List.map_map. apply List.map_ext.
  intros c. destruct (c =? 10) eqn:E; [reflexivity | rewrite E; reflexivity].
Qed.

(** The genre list parser does not see the white space around a cell nor the
    difference between a line break and a blank: stripping the cell first, or
    replacing its line breaks by blanks first, gives the same list. *)
Theorem parse_genres_ignores_padding (repr_value : json -> pystr) (raw : pystr) :
  Importer.parse_genres repr_value (str_strip raw) = Importer.parse_genres repr_value raw
  /\ Importer.parse_genres repr_value (str_replace 10 32 raw)
     = Importer.parse_genres repr_value raw.
Proof.
  split.
  - unfold Importer.parse_genres.
    destruct raw as [|c t]; [reflexivity|].
    cbn [truthy negb]. rewrite <- (strip_replace_strip (c :: t)).
    destruct (str_strip (c :: t)) as [|c' t'] eqn:E; [reflexivity|].
    reflexivity.
  - unfold Importer.parse_genres.
    destruct raw as [|c t]; [reflexivity|].
    rewrite replace_newline_idem. reflexivity.
Qed.

(** * Further properties of the header resolution *)

Lemma field_map_fold_none (hs : list pystr) (acc : gmap pystr pystr) (k : pystr) :
  Forall (fun h => h = [] \/ str_lower (str_strip h) <> k) hs ->
  fold_left (fun m h => if truthy h then <[str_lower (str_strip h) := h]> m else m) hs acc !! k
  = acc !! k.
Proof.
  revert acc. induction hs as [|h t IH]; intros acc H; [reflexivity|].
  apply Forall_cons in H as [Hh Ht]. cbn [fold_left]. rewrite IH by exact Ht.
  destruct Hh as [-> | Hne]; [reflexivity|].
  destruct (truthy h); [|reflexivity]. apply lookup_insert_ne. exact Hne.
Qed.

Lemma field_map_of_none (fieldnames : list pystr) (k : pystr) :
  Forall (fun h => h = [] \/ str_lower (str_strip h) <> k) fieldnames ->
  Importer.field_map_of fieldnames !! k = None.
Proof.
  intros H. unfold Importer.field_map_of. rewrite field_map_fold_none by exact H.
  apply lookup_empty.
Qed.

Lemma field_map_of_last (pre post : list pystr) (h : pystr) :
  h <> [] ->
  Forall (fun h' => h' = [] \/ str_lower (str_strip h') <> str_lower (str_strip h)) post ->
  Importer.field_map_of (pre ++ h :: post) !! str_lower (str_strip h) = Some h.
Proof.
  intros Hne Hpost. unfold Importer.field_map_of.
  rewrite fold_left_app. cbn [fold_left].
  rewrite field_map_fold_none by exact Hpost.
  apply truthy_true in Hne. rewrite Hne. apply lookup_insert_eq.
Qed.

Lemma g_skips_absent (field_map : gmap pystr pystr) (row : gmap pystr (option pystr))
      (earlier rest : list pystr) :
  Forall (fun k => field_map !! str_lower k = None) earlier ->
  Importer.g field_map row (earlier ++ rest) = Importer.g field_map row rest.
Proof.
  induction earlier as [|k t IH]; intros H; [reflexivity|].
  apply Forall_cons in H as [Hk Ht]. cbn [app Importer.g]. rewrite Hk. apply IH. exact Ht.
Qed.

(** A column that is not there reads as the empty text: when no non-empty
    header, once stripped and lower-cased, is the lower-cased form of one of
    the synonyms asked for, [g] gives the empty text for every row. *)
Theorem g_without_column_is_empty
        (fieldnames : list pystr) (row : gmap pystr (option pystr)) (keys : list pystr) :
  Forall (fun h => h = [] \/ ~ In (str_lower (str_strip h)) (List.map str_lower keys))
         fieldnames ->
  Importer.g (Importer.field_map_of fieldnames) row keys = [].
Proof.
  intros H.
  rewrite <- (app_nil_r keys). rewrite g_skips_absent; [reflexivity|].
  apply List.Forall_forall. intros k Hk. apply field_map_of_none.
  eapply List.Forall_impl; [|exact H]. intros h [-> | Hn]; [left; reflexivity|].
  right. intros E. apply Hn. rewrite E. apply List.in_map. exact Hk.
Qed.

Lemma g_without_column_is_empty_witness :
  Forall (fun h => h = [] \/ ~ In (str_lower (str_strip h))
                                  (List.map str_lower [py "score"; py "rating"]))
         [py "mal_id"; py "Title"]
  /\ Importer.g (Importer.field_map_of [py "mal_id"; py "Title"])
                (Importer.DictReader_row [py "mal_id"; py "Title"] [py "1"; py "Naruto"])
                [py "score"; py "rating"] = [].
Proof.
  assert (Forall (fun h => h = [] \/ ~ In (str_lower (str_strip h))
                                          (List.map str_lower [py "score"; py "rating"]))
                 [py "mal_id"; py "Title"]) as H.
  { repeat (constructor;
              [right; intros Hin; vm_compute in Hin;
               repeat (destruct Hin as [Hin|Hin]; [discriminate Hin|]); exact Hin|]).
    constructor. }
  split; [exact H|].
  exact (g_without_column_is_empty [py "mal_id"; py "Title"]
           (Importer.DictReader_row [py "mal_id"; py "Title"] [py "1"; py "Naruto"])
           [py "score"; py "rating"] H).
Defined.

(** Header matching is blind to case and padding, and the first synonym that
    is a header wins: if [h] is the last non-empty header whose stripped,
    lower-cased form is the lower-cased synonym [key], and no header matches
    a synonym listed before [key], then [g] gives the row's cell under [h]
    (the empty text when that cell is empty or missing), whatever the columns
    of the synonyms listed after [key] hold. *)
Theorem g_reads_first_matching_column
        (pre post : list pystr) (h : pystr) (row : gmap pystr (option pystr))
        (earlier rest : list pystr) (key : pystr) :
  h <> [] ->
  str_lower (str_strip h) = str_lower key ->
  Forall (fun h' => h' = [] \/ str_lower (str_strip h') <> str_lower key) post ->
  Forall (fun h' => h' = [] \/ ~ In (str_lower (str_strip h')) (List.map str_lower earlier))
         (pre ++ h :: post) ->
  Importer.g (Importer.field_map_of (pre ++ h :: post)) row (earlier ++ key :: rest)
  = match row !! h with
    | Some (Some v) => v
    | _ => []
    end.
Proof.
  intros Hne Hkey Hpost Hearlier.
  rewrite g_skips_absent.
  - cbn [Importer.g]. rewrite <- Hkey.
    rewrite field_map_of_last; [|exact Hne | rewrite Hkey; exact Hpost].
    apply truthy_true in Hne. rewrite Hne. reflexivity.
  - apply List.Forall_forall. intros k Hk. apply field_map_of_none.
    eapply List.Forall_impl; [|exact Hearlier]. intros h' [-> | Hn]; [left; reflexivity|].
    right. intros E. apply Hn. rewrite E. apply List.in_map. exact Hk.
Qed.

Lemma g_reads_first_matching_column_witness :
  py " Name " <> []
  /\ str_lower (str_strip (py " Name ")) = str_lower (py "name")
  /\ Forall (fun h' => h' = [] \/ str_lower (str_strip h') <> str_lower (py "name")) []
  /\ Forall (fun h' => h' = [] \/ ~ In (str_lower (str_strip h'))
                                      (List.map str_lower [py "title"]))
            ([py "mal_id"] ++ py " Name " :: [])
  /\ Importer.g (Importer.field_map_of ([py "mal_id"] ++ py " Name " :: []))
                (Importer.DictReader_row [py "mal_id"; py " Name "] [py "1"; py "Naruto"])
                ([py "title"] ++ py "name" :: [])
     = match Importer.DictReader_row [py "mal_id"; py " Name "] [py "1"; py "Naruto"]
             !! py " Name " with
       | Some (Some v) => v
       | _ => []
       end.
Proof.
  assert (Forall (fun h' => h' = [] \/ ~ In (str_lower (str_strip h'))
                                           (List.map str_lower [py "title"]))
                 ([py "mal_id"] ++ py " Name " :: [])) as H.
  { repeat (constructor;
              [right; intros Hin; vm_compute in Hin;
               repeat (destruct Hin as [Hin|Hin]; [discriminate Hin|]); exact Hin|]).
    constructor. }
  split; [discriminate|]. split; [vm_compute; reflexivity|].
  split; [constructor|]. split; [exact H|].
  exact (g_reads_first_matching_column [py "mal_id"] [] (py " Name ")
           (Importer.DictReader_row [py "mal_id"; py " Name "] [py "1"; py "Naruto"])
           [py "title"] [] (py "name")
           ltac:(discriminate) ltac:(vm_compute; reflexivity) ltac:(constructor) H).
Defined.

(** * Further properties of the enricher *)

(** ** The inserted column *)

Lemma index_of_split (a : pystr) (headers : list pystr) :
  existsb (str_eqb a) headers = true ->
  exists pre post, headers = pre ++ a :: post /\ ~ In a pre
                   /\ Enricher.index_of a headers = length pre.
Proof.
  induction headers as [|h t IH]; cbn [existsb]; [discriminate|].
  cbn [Enricher.index_of].
  destruct (str_eqb h a) eqn:E.
  - intros _. apply str_eqb_eq in E. subst h. exists [], t. repeat split. intros [].
  - assert (str_eqb a h = false) as ->.
    { apply str_eqb_neq. apply str_eqb_neq in E. congruence. }
    cbn [orb]. intros H. destruct (IH H) as [pre [post [Ht [Hn Hi]]]].
    exists (h :: pre), post. repeat split.
    + rewrite Ht. reflexivity.
    + intros [Hh | Hin]; [|exact (Hn Hin)]. apply str_eqb_neq in E. congruence.
    + cbn [length]. rewrite Hi. reflexivity.
Qed.

(** Where the new column goes: the headers are kept in their order, and the
    new column stands directly after the first occurrence of the column it
    follows, or in front of all headers when that column is not there. *)
Theorem insert_column_after_position (headers : list pystr) (after_col new_col : pystr) :
  exists pre post,
    headers = pre ++ post
    /\ Enricher.insert_column_after headers after_col new_col = pre ++ new_col :: post
    /\ (pre = [] /\ ~ In after_col headers
        \/ exists pre', pre = pre' ++ [after_col] /\ ~ In after_col pre').
Proof.
  unfold Enricher.insert_column_after.
  destruct (existsb (str_eqb after_col) headers) eqn:E; cbn [negb].
  - destruct (index_of_split _ _ E) as [pre [post [Hh [Hn Hi]]]].
    exists (pre ++ [after_col]), post. rewrite Hi, Hh.
    repeat split.
    + rewrite <- app_assoc. reflexivity.
    + replace (pre ++ after_col :: post) with ((pre ++ [after_col]) ++ post)
        by (rewrite <- app_assoc; reflexivity).
      replace (length pre + 1)%nat with (length (pre ++ [after_col]))
        by (rewrite List.length_app; reflexivity).
      rewrite take_app_length, drop_app_length. reflexivity.
    + right. exists pre. split; [reflexivity | exact Hn].
  - exists [], headers. repeat split. left. split; [reflexivity|].
    intros Hin.
    assert (existsb (str_eqb after_col) headers = true); [|congruence].
    apply List.existsb_exists. exists after_col. split; [exact Hin | apply str_eqb_refl].
Qed.

(** ** What a run writes *)

(** The shape of the output: a run that completes on a CSV with a header
    leaves, in place of the input, the header with the image column inserted
    and then exactly one record per non-blank input record, in the input's
    order; each record has one cell per output header, the image cells
    holding one value and every other cell the input row's cell under that
    header (the empty text when the row has none). *)
Theorem enricher_output_shape
        (remote : nat -> pystr -> option pystr)
        (fs : gmap Enricher.Path Enricher.entry) (infile : pystr) (e : Enricher.entry)
        (headers : list pystr) (records : list (list pystr)) :
  fs !! Enricher.make_path infile = Some e ->
  Enricher.read_utf8_sig e = Some (headers :: records) ->
  Enricher.outcome (Enricher.main remote fs infile) = None ->
  let out_headers := Enricher.insert_column_after headers (py "MAL_ID") (py "image") in
  exists body,
    Enricher.fs_after (Enricher.main remote fs infile) !! Enricher.make_path infile
    = Some (Enricher.File (out_headers :: body))
    /\ Forall2 (fun row rec => exists v, rec = Enricher.row_with_image out_headers row v)
               (Importer.DictReader_rows headers records) body.
Proof.
  intros Hin Hs Hout. cbv zeta.
  destruct (read_utf8_some e _ Hs) as [existing Hr].
  destruct (main_completed remote fs infile e headers records existing Hin Hs Hr Hout)
    as (st & Hloop & Hfs & _).
  destruct (completed_loop _ _ _ _ _ _ Hloop) as (body & chunk & Hw & HF & _).
  exists body. split; [rewrite Hfs, Hw; apply lookup_insert_eq|].
  eapply Forall2_impl; [exact HF|].
  intros row rec (v & Hv & _). exists v. exact Hv.
Qed.

Lemma enricher_output_shape_witness :
  let headers := [py "MAL_ID"; py "image"; py "title"] in
  let records := [[py "5"; py "http://x/5.jpg"; py "First"]; [py "6"; py ""; py "Second"]] in
  let r := Enricher.main Scenarios.remote_new Scenarios.fs_resumable (py "anime.csv") in
  Scenarios.fs_resumable !! Enricher.make_path (py "anime.csv")
  = Some (Enricher.File (headers :: records))
  /\ Enricher.read_utf8_sig (Enricher.File (headers :: records)) = Some (headers :: records)
  /\ Enricher.outcome r = None
  /\ exists body,
      Enricher.fs_after r !! Enricher.make_path (py "anime.csv")
      = Some (Enricher.File
                (Enricher.insert_column_after headers (py "MAL_ID") (py "image") :: body))
      /\ Forall2 (fun row rec =>
                    exists v, rec = Enricher.row_with_image
                                      (Enricher.insert_column_after headers (py "MAL_ID")
                                                                    (py "image")) row v)
                 (Importer.DictReader_rows headers records) body.
Proof.
  cbv zeta.
  assert (Scenarios.fs_resumable !! Enricher.make_path (py "anime.csv")
          = Some (Enricher.File
                    ([py "MAL_ID"; py "image"; py "title"]
                       :: [[py "5"; py "http://x/5.jpg"; py "First"];
                           [py "6"; py ""; py "Second"]]))) as H1
      by (vm_compute; reflexivity).
  assert (Enricher.outcome (Enricher.main Scenarios.remote_new Scenarios.fs_resumable
                                          (py "anime.csv")) = None) as H2
      by (vm_compute; reflexivity).
  split; [exact H1|]. split; [reflexivity|]. split; [exact H2|].
  exact (enricher_output_shape Scenarios.remote_new Scenarios.fs_resumable (py "anime.csv")
           _ [py "MAL_ID"; py "image"; py "title"]
           [[py "5"; py "http://x/5.jpg"; py "First"]; [py "6"; py ""; py "Second"]]
           H1 eq_refl H2).
Defined.

(** ** The lookups a run issues *)

Lemma DictReader_rows_length (headers : list pystr) (records : list (list pystr)) :
  (length (Importer.DictReader_rows headers records) <= length records)%nat.
Proof.
  unfold Importer.DictReader_rows. rewrite List.length_map. apply List.filter_length_le.
Qed.


(** ** The files a run touches *)



(** No temporary file is left behind: after a run that completes on a CSV
    with a header, nothing exists at the path of the temporary file, and the
    input path holds a file. *)
Theorem enricher_leaves_no_temp
        (remote : nat -> pystr -> option pystr)
        (fs : gmap Enricher.Path Enricher.entry) (infile : pystr) (e : Enricher.entry)
        (headers : list pystr) (records : list (list pystr)) :
  let in_path := Enricher.make_path infile in
  fs !! in_path = Some e ->
  Enricher.read_utf8_sig e = Some (headers :: records) ->
  Enricher.outcome (Enricher.main remote fs infile) = None ->
  Enricher.fs_after (Enricher.main remote fs infile)
    !! (fst in_path, removelast (snd in_path) ++ [Enricher.name in_path ++ py ".tmp"]) = None
  /\ exists recs, Enricher.fs_after (Enricher.main remote fs infile) !! in_path
                  = Some (Enricher.File recs).
Proof.
  cbv zeta. intros Hin Hs Hout.
  destruct (read_utf8_some e _ Hs) as [existing Hr].
  destruct (main_completed remote fs infile e headers records existing Hin Hs Hr Hout)
    as (st & _ & Hfs & _).
  rewrite Hfs. split.
  - rewrite lookup_insert_ne
      by (intros E; exact (temp_path_differs (Enricher.make_path infile) (eq_sym E))).
    apply lookup_delete_eq.
  - eexists. apply lookup_insert_eq.
Qed.

Lemma enricher_leaves_no_temp_witness :
  let in_path := Enricher.make_path (py "anime.csv") in
  let e := Enricher.File ([py "MAL_ID"; py "image"; py "title"]
                            :: [[py "5"; py "http://x/5.jpg"; py "First"];
                                [py "6"; py ""; py "Second"]]) in
  let r := Enricher.main Scenarios.remote_new Scenarios.fs_resumable (py "anime.csv") in
  Scenarios.fs_resumable !! in_path = Some e
  /\ Enricher.read_utf8_sig e
     = Some ([py "MAL_ID"; py "image"; py "title"]
               :: [[py "5"; py "http://x/5.jpg"; py "First"]; [py "6"; py ""; py "Second"]])
  /\ Enricher.outcome r = None
  /\ Enricher.fs_after r
       !! (fst in_path, removelast (snd in_path) ++ [Enricher.name in_path ++ py ".tmp"]) = None
  /\ exists recs, Enricher.fs_after r !! in_path = Some (Enricher.File recs).
Proof.
  cbv zeta.
  assert (Scenarios.fs_resumable !! Enricher.make_path (py "anime.csv")
          = Some (Enricher.File
                    ([py "MAL_ID"; py "image"; py "title"]
                       :: [[py "5"; py "http://x/5.jpg"; py "First"];
                           [py "6"; py ""; py "Second"]]))) as H1
      by (vm_compute; reflexivity).
  assert (Enricher.outcome (Enricher.main Scenarios.remote_new Scenarios.fs_resumable
                                          (py "anime.csv")) = None) as H2
      by (vm_compute; reflexivity).
  split; [exact H1|]. split; [reflexivity|]. split; [exact H2|].
  exact (enricher_leaves_no_temp Scenarios.remote_new Scenarios.fs_resumable (py "anime.csv")
           _ [py "MAL_ID"; py "image"; py "title"]
           [[py "5"; py "http://x/5.jpg"; py "First"]; [py "6"; py ""; py "Second"]]
           H1 eq_refl H2).
Defined.

(** ** Lookups that fail, and answers that cannot be written *)

Lemma encodable_image_clean (out_headers : list pystr) (row : gmap pystr (option pystr))
      (v : pystr) :
  existsb Importer.is_surrogate v = false ->
  Enricher.encodable (Enricher.row_with_image out_headers row v)
  = Enricher.encodable (Enricher.row_with_image out_headers row []).
Proof.
  intros Hv. unfold Enricher.encodable, Enricher.row_with_image. f_equal.
  induction out_headers as [|col rest IH]; [reflexivity|].
  cbn [List.map existsb]. rewrite IH. f_equal.
  destruct (str_eqb col (py "image")); [exact Hv | reflexivity].
Qed.

Section TwoServices.

Variables remote remote' : nat -> pystr -> option pystr.
Hypothesis clean : forall n m u, remote n m = Some u -> existsb Importer.is_surrogate u = false.
Hypothesis clean' : forall n m u, remote' n m = Some u -> existsb Importer.is_surrogate u = false.

Variable out_headers : list pystr.
Variable already_done : gmap pystr (option pystr).

(** Whether a row can be written does not depend on the service, when its
    answers can be written. *)
Lemma enrich_row_ok_clean (st st' : Enricher.loop_state) (row : gmap pystr (option pystr)) :
  snd (Enricher.enrich_row remote out_headers already_done st row)
  = snd (Enricher.enrich_row remote' out_headers already_done st' row).
Proof.
  unfold Enricher.enrich_row.
  destruct (Enricher.truthy_opt _).
  - destruct (Enricher.encodable _); reflexivity.
  - unfold Enricher.fetch_image_url.
    destruct (negb (truthy (Enricher.row_mal_id row))).
    + destruct (Enricher.encodable _); reflexivity.
    + fold (Enricher.row_with_image out_headers row
              (Enricher.or_empty (remote (Enricher.requests st) (Enricher.row_mal_id row)))).
      fold (Enricher.row_with_image out_headers row
              (Enricher.or_empty (remote' (Enricher.requests st') (Enricher.row_mal_id row)))).
      rewrite (encodable_image_clean out_headers row
                 (Enricher.or_empty (remote (Enricher.requests st) (Enricher.row_mal_id row)))).
      2: { destruct (remote _ _) as [u|] eqn:E; [exact (clean _ _ _ E) | reflexivity]. }
      rewrite (encodable_image_clean out_headers row
                 (Enricher.or_empty (remote' (Enricher.requests st') (Enricher.row_mal_id row)))).
      2: { destruct (remote' _ _) as [u|] eqn:E; [exact (clean' _ _ _ E) | reflexivity]. }
      destruct (Enricher.encodable _); reflexivity.
Qed.

Lemma enrich_rows_ok_clean (rows : list (gmap pystr (option pystr)))
      (st st' : Enricher.loop_state) :
  snd (Enricher.enrich_rows remote out_headers already_done rows st)
  = snd (Enricher.enrich_rows remote' out_headers already_done rows st').
Proof.
  revert st st'. induction rows as [|row rest IH]; intros st st'; [reflexivity|].
  rewrite !enrich_rows_cons, (enrich_row_ok_clean st st' row).
  destruct (snd (Enricher.enrich_row remote' out_headers already_done st' row));
    [apply IH | reflexivity].
Qed.

End TwoServices.

(** Lookup failures are never fatal: as long as the answers of the remote
    service are texts that can be written (no lone surrogate), how a run
    ends does not depend on what the service answers, nor on whether it
    answers at all. *)
Theorem enricher_outcome_ignores_remote
        (remote remote' : nat -> pystr -> option pystr)
        (fs : gmap Enricher.Path Enricher.entry) (infile : pystr) :
  (forall n m u, remote n m = Some u -> existsb Importer.is_surrogate u = false) ->
  (forall n m u, remote' n m = Some u -> existsb Importer.is_surrogate u = false) ->
  Enricher.outcome (Enricher.main remote fs infile)
  = Enricher.outcome (Enricher.main remote' fs infile).
Proof.
  intros Hc Hc'.
  assert (forall in_path out_path headers records already_done t2,
             Enricher.outcome (Enricher.write_output remote fs in_path out_path headers
                                 records already_done t2)
             = Enricher.outcome (Enricher.write_output remote' fs in_path out_path headers
                                   records already_done t2)) as Hw.
  { intros. unfold Enricher.write_output.
    destruct (Enricher.with_suffix _ _) as [temp_path|]; [|reflexivity].
    destruct (fs !! temp_path) as [[| |]|]; try reflexivity;
      (destruct (Enricher.encodable _); [|reflexivity]);
      match goal with
      | |- context [Enricher.enrich_rows remote ?o ?a ?rows ?st0] =>
        pose proof (enrich_rows_ok_clean remote remote' Hc Hc' o a rows st0 st0) as Hok;
          destruct (Enricher.enrich_rows remote o a rows st0) as [st1 ok1];
          destruct (Enricher.enrich_rows remote' o a rows st0) as [st2 ok2]
      end;
      cbn [snd] in Hok; subst ok2; destruct ok1; reflexivity. }
  unfold Enricher.main.
  destruct (fs !! Enricher.make_path infile) as [e|]; [|reflexivity].
  destruct (Enricher.with_name _ _) as [out_path|]; [|reflexivity].
  destruct (Enricher.read_utf8_sig e) as [[|headers records]|]; try reflexivity.
  destruct (fs !! out_path) as [out_entry|]; [|apply Hw].
  destruct (Enricher.read_utf8 out_entry); [apply Hw | reflexivity].
Qed.

Lemma enricher_outcome_ignores_remote_witness :
  (forall n m u, Scenarios.remote_new n m = Some u -> existsb Importer.is_surrogate u = false)
  /\ (forall n m u, Scenarios.remote_down n m = Some u
                    -> existsb Importer.is_surrogate u = false)
  /\ Enricher.outcome (Enricher.main Scenarios.remote_new Scenarios.fs_resumable (py "anime.csv"))
     = Enricher.outcome (Enricher.main Scenarios.remote_down Scenarios.fs_resumable
                                       (py "anime.csv")).
Proof.
  assert (forall n m u, Scenarios.remote_new n m = Some u
                        -> existsb Importer.is_surrogate u = false) as H1
      by (intros n m u [= <-]; reflexivity).
  assert (forall n m u, Scenarios.remote_down n m = Some u
                        -> existsb Importer.is_surrogate u = false) as H2
      by (intros n m u H; discriminate H).
  split; [exact H1|]. split; [exact H2|].
  exact (enricher_outcome_ignores_remote Scenarios.remote_new Scenarios.remote_down
           Scenarios.fs_resumable (py "anime.csv") H1 H2).
Defined.

(** An answer that cannot be written is fatal: when the service answers a
    text with a lone surrogate for the second row, the run ends with the
    UnicodeEncodeError of the writer; the input file is as it was, and the
    temporary file is left behind with the header and the first row. *)
Lemma unwritable_answer_ends_the_run :
  let in_path := Enricher.make_path (py "anime.csv") in
  let r := Enricher.main Scenarios.remote_surrogate Scenarios.fs_resumable (py "anime.csv") in
  Enricher.outcome r = Some Enricher.UnicodeEncodeError
  /\ Enricher.fs_after r !! in_path = Scenarios.fs_resumable !! in_path
  /\ Enricher.fs_after r !! Enricher.make_path (py "anime.csv.tmp")
     = Some (Enricher.File [ [py "MAL_ID"; py "image"; py "image"; py "title"];
                             [py "5"; py "http://x/5.jpg"; py "http://x/5.jpg"; py "First"] ])
  /\ Enricher.lookups (Enricher.trace r) = [py "6"].
Proof.
  cbv zeta.
  split; [vm_compute; reflexivity|].
  split; [vm_compute; reflexivity|].
  split; vm_compute; reflexivity.
Qed.

(** * The importer's command line *)

Lemma import_ignores_previous_content
      (repr_value : json -> pystr) (csv_path db_path : pystr)
      (csv : Importer.csv_source) (store0 store1 : Importer.db) :
  Importer.import_csv_to_db repr_value csv_path db_path csv store0
  = Importer.import_csv_to_db repr_value csv_path db_path csv store1.
Proof. reflexivity. Qed.


(** The current directory as target: nothing is imported. *)
Lemma directory_target_is_refused :
  ImporterMain.main Scenarios.repr_unused [py "import.py"; py "anime.csv"; py "."]
    (fun _ => Scenarios.csv_two_action) ∅
  = (ImporterMain.Refused (Enricher.make_path (py "."))
       Importer.OperationalError
       [Importer.OutCsv (py "anime.csv"); Importer.OutDb (py ".")], ∅).
Proof. vm_compute. reflexivity. Qed.

(** * Identifiers and counts written as plain integers *)

Lemma digit_facts (c : N) :
  is_ascii_digit c = true ->
  (c <? 127) = true /\ Py_ISSPACE c = false /\ (95 =? c) = false
  /\ (c =? 45) = false /\ (c =? 43) = false.
Proof.
  unfold is_ascii_digit, Py_ISSPACE, between. intros H.
  apply andb_true_iff in H as [H1 H2]. apply N.leb_le in H1. apply N.leb_le in H2.
  repeat split.
  - apply N.ltb_lt. lia.
  - apply orb_false_iff. split; [apply andb_false_iff; right; apply N.leb_gt; lia|].
    apply N.eqb_neq. lia.
  - apply N.eqb_neq. lia.
  - apply N.eqb_neq. lia.
  - apply N.eqb_neq. lia.
Qed.

Lemma digits_to_ascii (s : pystr) :
  forallb is_ascii_digit s = true -> to_ascii s = Some s.
Proof.
  induction s as [|c t IH]; [reflexivity|]. cbn [forallb]. intros H.
  apply andb_true_iff in H as [Hc Ht]. cbn [to_ascii].
  destruct (digit_facts c Hc) as (-> & _). rewrite (IH Ht). reflexivity.
Qed.

Lemma digits_no_underscore (s : pystr) :
  forallb is_ascii_digit s = true -> existsb (N.eqb 95) s = false.
Proof.
  induction s as [|c t IH]; [reflexivity|]. cbn [forallb existsb]. intros H.
  apply andb_true_iff in H as [Hc Ht].
  destruct (digit_facts c Hc) as (_ & _ & -> & _). exact (IH Ht).
Qed.

Lemma digits_rstrip (s : pystr) :
  forallb is_ascii_digit s = true -> rstrip_by Py_ISSPACE s = s.
Proof.
  induction s as [|c t IH]; [reflexivity|]. cbn [forallb]. intros H.
  apply andb_true_iff in H as [Hc Ht].
  destruct (digit_facts c Hc) as (_ & Hs & _).
  rewrite rstrip_by_cons by exact Hs. rewrite (IH Ht). reflexivity.
Qed.

Lemma digits_span (s : pystr) :
  forallb is_ascii_digit s = true -> span is_ascii_digit s = (s, []).
Proof.
  induction s as [|c t IH]; [reflexivity|]. cbn [forallb]. intros H.
  apply andb_true_iff in H as [Hc Ht]. cbn [span]. rewrite Hc, (IH Ht). reflexivity.
Qed.

Lemma digits_py_float (s : pystr) :
  s <> [] -> forallb is_ascii_digit s = true ->
  py_float s = Some (round_binary64 false (int_of_digits s) 0).
Proof.
  intros Hne Hd. unfold py_float.
  rewrite (digits_to_ascii s Hd), (digits_no_underscore s Hd).
  destruct s as [|c t]; [congruence|].
  pose proof Hd as Hd'. cbn [forallb] in Hd'. apply andb_true_iff in Hd' as [Hc _].
  destruct (digit_facts c Hc) as (_ & Hs & _ & H45 & H43).
  cbn [lstrip_by]. rewrite Hs, (digits_rstrip _ Hd).
  unfold parse_decimal. cbn [split_sign]. rewrite H45, H43.
  rewrite (digits_span _ Hd). rewrite app_nil_r. reflexivity.
Qed.

Lemma round_small_integer (M : Z) :
  (0 <= M < 2 ^ 53)%Z -> int_of_float (round_binary64 false M 0) = Some M.
Proof.
  intros [H0 H53]. unfold round_binary64.
  destruct (M =? 0)%Z eqn:EM; [apply Z.eqb_eq in EM; subst M; reflexivity|].
  apply Z.eqb_neq in EM. assert (0 < M)%Z as Hpos by lia.
  cbn [Z.leb Z.compare Z.opp]. change (10 ^ 0)%Z with 1%Z. rewrite Z.mul_1_r.
  change (Z.log2 1) with 0%Z. rewrite Z.sub_0_r.
  pose proof (Z.log2_nonneg M) as Hl0.
  pose proof (Z.log2_spec M Hpos) as [Hlo Hhi].
  assert (Z.log2 M <= 52)%Z as Hl52.
  { apply Z.lt_succ_r. apply Z.log2_lt_pow2; [exact Hpos|]. exact H53. }
  assert ((0 <=? Z.log2 M) = true)%Z as -> by (apply Z.leb_le; exact Hl0).
  rewrite Z.mul_1_l.
  assert ((2 ^ Z.log2 M <=? M) = true)%Z as -> by (apply Z.leb_le; exact Hlo).
  rewrite Z.max_l by lia.
  set (p := (Z.log2 M - 52)%Z).
  destruct (0 <=? p)%Z eqn:Ep.
  - apply Z.leb_le in Ep. assert (p = 0)%Z as Hp by lia.
    rewrite Hp. change (1 * 2 ^ 0)%Z with 1%Z.
    rewrite Z.div_1_r, Z.mod_1_r.
    change (2 * 0)%Z with 0%Z. change (1 <? 0)%Z with false.
    change (1 =? 0)%Z with false. cbn [orb andb].
    assert ((1024 <=? Z.log2 M + 0) = false)%Z as -> by (apply Z.leb_gt; lia).
    cbn [int_of_float Z.leb Z.compare]. rewrite Z.pow_0_r, Z.mul_1_r. reflexivity.
  - apply Z.leb_gt in Ep.
    rewrite Z.div_1_r, Z.mod_1_r.
    change (2 * 0)%Z with 0%Z. change (1 <? 0)%Z with false.
    change (1 =? 0)%Z with false. cbn [orb andb].
    assert (0 < 2 ^ (- p))%Z as Hpow by (apply Z.pow_pos_nonneg; lia).
    assert (Z.log2 (M * 2 ^ (- p)) = (- p) + Z.log2 M)%Z as Hlog
        by (apply Z.log2_mul_pow2; lia).
    assert ((1024 <=? Z.log2 (M * 2 ^ (- p)) + p) = false)%Z as ->
        by (apply Z.leb_gt; lia).
    cbn [int_of_float]. assert ((0 <=? p) = false)%Z as -> by (apply Z.leb_gt; lia).
    rewrite Z.div_mul by lia. reflexivity.
Qed.

(** Plain integers below 2^53 are read exactly: for a text made of ASCII
    digits only whose value is below 2^53, [int(float(text))] is that value;
    so an external id written that way is stored verbatim, and the episode
    count of such a cell is its value.  (From 2^53 on the float in between
    rounds: 9007199254740993 reads as 9007199254740992.) *)
Theorem small_integers_are_read_exactly (s : pystr) :
  s <> [] -> forallb is_ascii_digit s = true -> (int_of_digits s < 2 ^ 53)%Z ->
  int_float s = Some (int_of_digits s)
  /\ Importer.parse_episodes s = Importer.Ok (Some (int_of_digits s)).
Proof.
  intros Hne Hd Hlt.
  assert (int_float s = Some (int_of_digits s)) as H.
  { unfold int_float. rewrite (digits_py_float s Hne Hd).
    apply round_small_integer. split; [apply int_of_digits_nonneg | exact Hlt]. }
  split; [exact H|].
  unfold Importer.parse_episodes. apply truthy_true in Hne. rewrite Hne, H. reflexivity.
Qed.

Lemma small_integers_are_read_exactly_witness :
  py "5114" <> []
  /\ forallb is_ascii_digit (py "5114") = true
  /\ (int_of_digits (py "5114") < 2 ^ 53)%Z
  /\ int_float (py "5114") = Some (int_of_digits (py "5114"))
  /\ Importer.parse_episodes (py "5114") = Importer.Ok (Some (int_of_digits (py "5114"))).
Proof.
  split; [discriminate|]. split; [reflexivity|]. split; [vm_compute; reflexivity|].
  apply (small_integers_are_read_exactly (py "5114")).
  - discriminate.
  - reflexivity.
  - vm_compute. reflexivity.
Defined.

Lemma large_identifier_is_rounded :
  int_float (py "9007199254740993") = Some 9007199254740992%Z.
Proof. vm_compute. reflexivity. Qed.

(** * The episode count against the specified algorithm *)
















(** ** Texts that are no number *)













(** * The run, row by row *)

(** Linking a genre touches neither what is committed, nor the count, nor
    the printed lines, nor the [Anime] table. *)
Lemma link_genre_frame (anime_id : Z) (name : pystr) (st st' : Importer.state)
      (r : Importer.result unit) :
  Importer.link_genre anime_id name st = (st', r) ->
  Importer.persisted (Importer.cn st') = Importer.persisted (Importer.cn st)
  /\ Importer.inserted st' = Importer.inserted st
  /\ Importer.out st' = Importer.out st
  /\ Importer.Anime (Importer.working (Importer.cn st'))
     = Importer.Anime (Importer.working (Importer.cn st)).
Proof.
  unfold Importer.link_genre, Importer.bind, Importer.execute, Importer.query,
    Importer.execute, Importer.with_unit.
  destruct (Importer.insert_genre (Importer.working (Importer.cn st)) name) as [d1|e] eqn:E1.
  2: { intros [= <- <-]. repeat split. }
  apply insert_genre_inv in E1 as (_ & Ha1 & _).
  cbn [Importer.cn Importer.working Importer.persisted Importer.inserted Importer.out].
  destruct (Importer.select_genre d1 name) as [[gid|]|e];
    cbn [Importer.cn Importer.working Importer.persisted Importer.inserted Importer.out];
    try (intros [= <- <-]; repeat split; exact Ha1).
  destruct (Importer.insert_link d1 anime_id gid) as [d2|e] eqn:E2; cbv beta iota.
  - intros [= <- <-]. cbn [Importer.cn Importer.working Importer.persisted Importer.inserted
                            Importer.out].
    apply insert_link_inv in E2 as (Ha2 & _). repeat split. rewrite Ha2. exact Ha1.
  - intros [= <- <-]. repeat split. exact Ha1.
Qed.

Lemma for_each_link_frame (anime_id : Z) (names : list pystr) (st st' : Importer.state)
      (r : Importer.result unit) :
  Importer.for_each names (Importer.link_genre anime_id) st = (st', r) ->
  Importer.persisted (Importer.cn st') = Importer.persisted (Importer.cn st)
  /\ Importer.inserted st' = Importer.inserted st
  /\ Importer.out st' = Importer.out st
  /\ Importer.Anime (Importer.working (Importer.cn st'))
     = Importer.Anime (Importer.working (Importer.cn st)).
Proof.
  revert st. induction names as [|name rest IH]; intros st; cbn [Importer.for_each].
  - intros [= <- <-]. repeat split.
  - unfold Importer.bind.
    destruct (Importer.link_genre anime_id name st) as [st1 [[]|e]] eqn:E1;
      apply link_genre_frame in E1 as (P1 & I1 & O1 & A1).
    + intros H. destruct (IH _ H) as (P2 & I2 & O2 & A2).
      repeat split; congruence.
    + intros [= <- <-]. repeat split; assumption.
Qed.

(** What one row does to the state: it prints at most lines that are not the
    completion line, adds at most one [Anime] row, counts at most one
    record, and commits only when the count reaches a multiple of 500. *)
Lemma import_row_frame (repr_value : json -> pystr) (field_map : gmap pystr pystr)
      (i : nat) (row : gmap pystr (option pystr)) (st : Importer.state) :
  let st' := fst (Importer.import_row repr_value field_map i row st) in
  (exists extra, Importer.out st' = Importer.out st ++ extra
                 /\ Forall (fun o => o <> Importer.OutComplete) extra)
  /\ (length (Importer.Anime (Importer.working (Importer.cn st)))
      <= length (Importer.Anime (Importer.working (Importer.cn st')))
      <= S (length (Importer.Anime (Importer.working (Importer.cn st)))))%nat
  /\ (Importer.inserted st <= Importer.inserted st' <= Importer.inserted st + 1)%Z
  /\ (Importer.persisted (Importer.cn st') = Importer.persisted (Importer.cn st)
      \/ Importer.persisted (Importer.cn st') = Importer.working (Importer.cn st')
         /\ (Importer.inserted st' mod 500 = 0)%Z
         /\ Importer.inserted st' = (Importer.inserted st + 1)%Z).
Proof.
  cbv zeta.
  assert (forall (s1 : Importer.state) (o : Importer.output),
             o <> Importer.OutComplete ->
             Importer.out s1 = Importer.out st ->
             exists extra : list Importer.output,
               Importer.out s1 ++ [o] = Importer.out st ++ extra
               /\ Forall (fun o => o <> Importer.OutComplete) extra) as Hone.
  { intros s1 o Ho ->. exists [o]. split; [reflexivity|]. constructor; [exact Ho | constructor]. }
  assert (exists extra : list Importer.output,
             Importer.out st = Importer.out st ++ extra
             /\ Forall (fun o => o <> Importer.OutComplete) extra) as Hnone.
  { exists []. split; [symmetry; apply app_nil_r | constructor]. }
  destruct (Importer.import_row repr_value field_map i row st) as [st' r] eqn:E.
  cbn [fst]. revert E. unfold Importer.import_row.
  destruct (negb (truthy _)).
  { intros [= <- _]. split; [exact Hnone|]. split; [lia|]. split; [lia|]. left. reflexivity. }
  destruct (int_float _) as [mal_id|].
  2: { intros [= <- _]. split; [exact Hnone|]. split; [lia|]. split; [lia|]. left. reflexivity. }
  unfold Importer.try_except, Importer.import_row_body.
  unfold Importer.bind at 1. unfold Importer.of_result at 1.
  destruct (Importer.parse_episodes _) as [episodes|e0].
  2: { unfold Importer.print. intros [= <- _].
       cbn [Importer.cn Importer.out Importer.inserted].
       split; [apply Hone; [discriminate | reflexivity]|].
       split; [lia|]. split; [lia|]. left. reflexivity. }
  unfold Importer.bind at 1. unfold Importer.execute at 1.
  destruct (Importer.insert_anime _ _ _ _ _ _ _ _ _ _) as [[d1 rid]|e] eqn:E1.
  2: { unfold Importer.print. intros [= <- _].
       cbn [Importer.cn Importer.out Importer.inserted].
       split; [apply Hone; [discriminate | reflexivity]|].
       split; [lia|]. split; [lia|]. left. reflexivity. }
  apply insert_anime_inv in E1 as (_ & _ & Ha & _).
  unfold Importer.bind at 1.
  match goal with
  | |- context [Importer.for_each ?l ?b ?s] =>
    destruct (Importer.for_each l b s) as [st2 r2] eqn:E2
  end.
  apply for_each_link_frame in E2 as (P2 & I2 & O2 & A2).
  cbn [Importer.cn Importer.working Importer.persisted Importer.inserted Importer.out] in *.
  assert (length (Importer.Anime (Importer.working (Importer.cn st2)))
          = S (length (Importer.Anime (Importer.working (Importer.cn st))))) as Hlen.
  { rewrite A2, Ha, List.length_app. cbn [length]. lia. }
  destruct r2 as [[]|e].
  - unfold Importer.bind, Importer.incr_inserted.
    destruct ((Importer.inserted st2 + 1) mod 500 =? 0)%Z eqn:Em.
    + apply Z.eqb_eq in Em. unfold Importer.conn_commit, Importer.print.
      intros [= <- _].
      cbn [Importer.cn Importer.out Importer.inserted Importer.commit Importer.working
           Importer.persisted].
      split; [apply Hone; [discriminate | exact O2]|].
      split; [lia|]. split; [lia|].
      right. split; [reflexivity|]. split; [exact Em | lia].
    + unfold Importer.ret. intros [= <- _].
      cbn [Importer.cn Importer.out Importer.inserted Importer.working Importer.persisted].
      split; [rewrite O2; exact Hnone|].
      split; [lia|]. split; [lia|]. left. exact P2.
  - unfold Importer.print. intros [= <- _].
    cbn [Importer.cn Importer.out Importer.inserted].
    split; [apply Hone; [discriminate | exact O2]|].
    split; [lia|]. split; [lia|]. left. exact P2.
Qed.

Lemma import_rows_frame (repr_value : json -> pystr) (field_map : gmap pystr pystr)
      (rows : list (gmap pystr (option pystr))) (i : nat) (st : Importer.state) :
  let st' := fst (Importer.import_rows repr_value field_map i rows st) in
  (exists extra, Importer.out st' = Importer.out st ++ extra
                 /\ Forall (fun o => o <> Importer.OutComplete) extra)
  /\ (length (Importer.Anime (Importer.working (Importer.cn st')))
      <= length rows + length (Importer.Anime (Importer.working (Importer.cn st))))%nat
  /\ ((length (Importer.Anime (Importer.persisted (Importer.cn st)))
       <= length (Importer.Anime (Importer.working (Importer.cn st))))%nat ->
      (length (Importer.Anime (Importer.persisted (Importer.cn st')))
       <= length (Importer.Anime (Importer.working (Importer.cn st'))))%nat)
  /\ (Importer.inserted st <= Importer.inserted st'
      <= Importer.inserted st + Z.of_nat (length rows))%Z
  /\ ((0 <= Importer.inserted st)%Z ->
      (Importer.inserted st + Z.of_nat (length rows) < 500)%Z ->
      Importer.persisted (Importer.cn st') = Importer.persisted (Importer.cn st)).
Proof.
  cbv zeta. revert i st. induction rows as [|row rest IH]; intros i st.
  - cbn. repeat split; try lia.
    exists []. split; [symmetry; apply app_nil_r | constructor].
  - cbn [Importer.import_rows]. unfold Importer.bind.
    pose proof (import_row_frame repr_value field_map i row st) as H1.
    pose proof (import_row_never_raises repr_value field_map i row st) as H2.
    destruct (Importer.import_row repr_value field_map i row st) as [st1 r1].
    cbn [fst snd] in *. subst r1.
    destruct H1 as ((x1 & O1 & F1) & L1 & I1 & P1).
    destruct (IH (S i) st1) as ((x2 & O2 & F2) & L2 & J2 & I2 & P2).
    cbn [length]. repeat split; try lia.
    + exists (x1 ++ x2). split; [rewrite O2, O1, <- app_assoc; reflexivity|].
      apply Forall_app. split; assumption.
    + intros HJ. apply J2. destruct P1 as [-> | (-> & _)]; lia.
    + intros H0 H500. rewrite P2 by lia.
      destruct P1 as [-> | (_ & Hm & Hi)]; [reflexivity|].
      exfalso. rewrite Hi in Hm. rewrite Z.mod_small in Hm by lia. lia.
Qed.

(** The run on a file that gave a header, up to the end of the row loop. *)
Lemma import_after_header (repr_value : json -> pystr) (csv_path db_path : pystr)
      (fieldnames : list pystr) (records : list (list pystr)) (fault : option Importer.exn)
      (store0 : Importer.db) :
  exists st1 st2,
    Importer.import_rows repr_value (Importer.field_map_of fieldnames) 1
      (Importer.DictReader_rows fieldnames records) st1 = (st2, Importer.Ok tt)
    /\ Importer.cn st1 = Importer.connect Importer.empty_db
    /\ Importer.inserted st1 = 0%Z
    /\ Forall (fun o => o <> Importer.OutComplete) (Importer.out st1)
    /\ Importer.import_csv_to_db repr_value csv_path db_path
         (Importer.Opened (fieldnames :: records) fault) store0
       = match fault with
         | None =>
           {| Importer.outcome := Importer.Ok tt;
              Importer.store := Importer.working (Importer.cn st2);
              Importer.printed :=
                (Importer.out st2 ++ [Importer.OutComplete])
                ++ [Importer.OutRows (Importer.count_anime
                                        (Importer.working (Importer.cn st2)))] |}
         | Some e =>
           {| Importer.outcome := Importer.Raise e;
              Importer.store := Importer.persisted (Importer.cn st2);
              Importer.printed := Importer.out st2 |}
         end.
Proof.
  unfold Importer.import_csv_to_db.
  erewrite bind_ok by reflexivity.
  match goal with
  | |- context [Importer.bind (Importer.for_each ?l _) _ ?st] =>
    destruct (for_each_print_ok l Importer.OutColumn st) as (st1 & H1 & Hcn & Hins & Hout)
  end.
  erewrite bind_ok by exact H1.
  match goal with
  | |- context [Importer.bind (Importer.import_rows ?a ?b ?c ?d) _ ?st] =>
    pose proof (import_rows_never_raises a b d c st) as H2;
      destruct (Importer.import_rows a b c d st) as [st2 r2] eqn:E2
  end.
  cbn [snd] in H2. subst r2.
  exists st1, st2. split; [exact E2|].
  split; [exact Hcn|]. split; [exact Hins|].
  split.
  { destruct Hout as [extra [-> He]]. cbn [Importer.out].
    apply Forall_app. split; [|apply He; discriminate].
    repeat (constructor; [discriminate|]). constructor. }
  erewrite bind_ok by exact E2.
  destruct fault as [e|].
  - reflexivity.
  - erewrite bind_ok by reflexivity. rewrite import_tail. reflexivity.
Qed.


(** At most one record per row: the [Anime] table a run leaves has no more
    rows than the input has records after its header, however the reading
    ends. *)
Theorem at_most_one_record_per_row
        (repr_value : json -> pystr) (csv_path db_path : pystr)
        (fieldnames : list pystr) (records : list (list pystr))
        (fault : option Importer.exn) (store0 : Importer.db) :
  (length (Importer.Anime (Importer.store
             (Importer.import_csv_to_db repr_value csv_path db_path
                (Importer.Opened (fieldnames :: records) fault) store0)))
   <= length records)%nat.
Proof.
  destruct (import_after_header repr_value csv_path db_path fieldnames records fault store0)
    as (st1 & st2 & Hrows & Hcn & Hins & Hout & ->).
  pose proof (import_rows_frame repr_value (Importer.field_map_of fieldnames)
                (Importer.DictReader_rows fieldnames records) 1 st1) as HF.
  rewrite Hrows in HF. cbn [fst] in HF.
  destruct HF as (_ & HL & HJ & _).
  rewrite Hcn in HL, HJ. cbn in HL, HJ.
  pose proof (DictReader_rows_length fieldnames records).
  destruct fault; cbn [Importer.store]; [specialize (HJ ltac:(lia))|]; lia.
Qed.

(** * One more column per run *)

Lemma filter_take_drop (f : pystr -> bool) (k : nat) (l : list pystr) :
  List.filter f (take k l) ++ List.filter f (drop k l) = List.filter f l.
Proof. rewrite <- List.filter_app, take_drop. reflexivity. Qed.

Lemma insert_column_after_counts (headers : list pystr) (after_col new_col : pystr) :
  length (Enricher.insert_column_after headers after_col new_col) = S (length headers)
  /\ length (List.filter (str_eqb new_col)
                         (Enricher.insert_column_after headers after_col new_col))
     = S (length (List.filter (str_eqb new_col) headers)).
Proof.
  unfold Enricher.insert_column_after.
  destruct (negb _).
  - cbn [length List.filter]. rewrite str_eqb_refl. split; reflexivity.
  - split.
    + rewrite !List.length_app, length_take, length_drop. cbn [length].
      destruct (Nat.le_gt_cases (Enricher.index_of after_col headers + 1) (length headers)); lia.
    + rewrite !List.filter_app. cbn [List.filter]. rewrite str_eqb_refl.
      rewrite !List.length_app. cbn [length].
      pose proof (f_equal (@length pystr)
                    (filter_take_drop (str_eqb new_col)
                       (Enricher.index_of after_col headers + 1) headers)) as H.
      rewrite List.length_app in H. lia.
Qed.

(** One more column per run: since the output takes the place of the input,
    every run that completes leaves a header with one more cell than it
    found, and with one more column named image; running the enricher on its
    own output adds a second image column. *)
Theorem enricher_adds_a_column_every_run
        (remote : nat -> pystr -> option pystr)
        (fs : gmap Enricher.Path Enricher.entry) (infile : pystr) (e : Enricher.entry)
        (headers : list pystr) (records : list (list pystr)) :
  fs !! Enricher.make_path infile = Some e ->
  Enricher.read_utf8_sig e = Some (headers :: records) ->
  Enricher.outcome (Enricher.main remote fs infile) = None ->
  exists new_headers body,
    Enricher.fs_after (Enricher.main remote fs infile) !! Enricher.make_path infile
    = Some (Enricher.File (new_headers :: body))
    /\ length new_headers = S (length headers)
    /\ length (List.filter (str_eqb (py "image")) new_headers)
       = S (length (List.filter (str_eqb (py "image")) headers)).
Proof.
  intros Hin Hs Hout.
  destruct (read_utf8_some e _ Hs) as [existing Hr].
  destruct (main_completed remote fs infile e headers records existing Hin Hs Hr Hout)
    as (st & Hloop & Hfs & _).
  destruct (completed_loop _ _ _ _ _ _ Hloop) as (body & chunk & Hw & _).
  destruct (insert_column_after_counts headers (py "MAL_ID") (py "image")) as [Hl Hc].
  exists (Enricher.insert_column_after headers (py "MAL_ID") (py "image")), body.
  split; [rewrite Hfs, Hw; apply lookup_insert_eq|]. split; [exact Hl | exact Hc].
Qed.

Lemma enricher_adds_a_column_every_run_witness :
  let headers := [py "MAL_ID"; py "image"; py "title"] in
  let records := [[py "5"; py "http://x/5.jpg"; py "First"]; [py "6"; py ""; py "Second"]] in
  let r := Enricher.main Scenarios.remote_new Scenarios.fs_resumable (py "anime.csv") in
  Scenarios.fs_resumable !! Enricher.make_path (py "anime.csv")
  = Some (Enricher.File (headers :: records))
  /\ Enricher.read_utf8_sig (Enricher.File (headers :: records)) = Some (headers :: records)
  /\ Enricher.outcome r = None
  /\ exists new_headers body,
      Enricher.fs_after r !! Enricher.make_path (py "anime.csv")
      = Some (Enricher.File (new_headers :: body))
      /\ length new_headers = S (length headers)
      /\ length (List.filter (str_eqb (py "image")) new_headers)
         = S (length (List.filter (str_eqb (py "image")) headers)).
Proof.
  cbv zeta.
  assert (Scenarios.fs_resumable !! Enricher.make_path (py "anime.csv")
          = Some (Enricher.File
                    ([py "MAL_ID"; py "image"; py "title"]
                       :: [[py "5"; py "http://x/5.jpg"; py "First"];
                           [py "6"; py ""; py "Second"]]))) as H1
      by (vm_compute; reflexivity).
  assert (Enricher.outcome (Enricher.main Scenarios.remote_new Scenarios.fs_resumable
                                          (py "anime.csv")) = None) as H2
      by (vm_compute; reflexivity).
  split; [exact H1|]. split; [reflexivity|]. split; [exact H2|].
  exact (enricher_adds_a_column_every_run Scenarios.remote_new Scenarios.fs_resumable
           (py "anime.csv") _ [py "MAL_ID"; py "image"; py "title"]
           [[py "5"; py "http://x/5.jpg"; py "First"]; [py "6"; py ""; py "Second"]]
           H1 eq_refl H2).
Defined.
